(** * vrp-backend: the route-construction engine and its fallback chain

    A shallow embedding of the solving strategies of the repository
    ([services/simple_vrp_service.py], [services/gemini_service.py],
    [services/vrp_service.py]), of the validation service
    ([services/validation_service.py]) and of the orchestrator
    ([controllers/vrp_controller.py]), with the properties the
    specification states about them and further properties of the code.

    Conventions.
    - Python [int] is [Z]; [//] and [%] are [Z.div] and [Z.modulo] (both
      floor, as in Python, for the positive divisors the code uses).
    - Python [str] is [string]; lists are [list].
    - Python [float] is the carrier of the class [PyFloat]: its
      primitive operations are abstract, the code built on them
      (the haversine distance, the nearest-neighbour walk) is embedded
      from the source.
    - An [int] of the request or of a reply meets a float through
      [float_of_int] and [int_truediv], which raise [OverflowError] from
      [float_overflow] on; the int literals of the source, the lengths of
      lists and the request counter are below it.
    - A raised exception is the outcome [Raise]; a [while] loop runs on
      fuel and reports [OutOfFuel] when the fuel is exhausted.
    - Values that reach a dataclass field from a decoded JSON reply are
      dynamically typed: such fields have type [pyval]. *)

From Stdlib Require Import ZArith List String Ascii Bool Lia Permutation DecimalString
  DecimalN.
From stdpp Require Import base list strings.

Open Scope Z_scope.

(** ** Exceptions and outcomes *)

(** The exceptions the code meets, all of them subclasses of [Exception]:
    what [except Exception] catches. An interrupt of the process is not an
    outcome of the model. *)
Inductive exn : Type :=
| ZeroDivisionError
| ValueError
| OverflowError
| IndexError
| TypeError
| AttributeError
| ExternalError (msg : string).

Inductive outcome (A : Type) : Type :=
| Ok (a : A)
| Raise (e : exn)
| OutOfFuel.

Arguments Ok {A} a.
Arguments Raise {A} e.
Arguments OutOfFuel {A}.

Definition obind {A B} (m : outcome A) (k : A -> outcome B) : outcome B :=
  match m with
  | Ok a => k a
  | Raise e => Raise e
  | OutOfFuel => OutOfFuel
  end.

#[global] Instance outcome_ret : MRet outcome := fun _ a => Ok a.
#[global] Instance outcome_bind : MBind outcome := fun _ _ k m => obind m k.

(** [try: body except Exception as e: handler]. A handler catches what the
    body raises; it cannot turn a loop that does not end into one that does. *)
Definition try_except {A} (body : outcome A) (handler : exn -> outcome A) : outcome A :=
  match body with
  | Ok a => Ok a
  | Raise e => handler e
  | OutOfFuel => OutOfFuel
  end.

(** [None] of a partial primitive is the exception [e]. *)
Definition or_raise {A} (e : exn) (o : option A) : outcome A :=
  match o with
  | Some a => Ok a
  | None => Raise e
  end.

(** [l[i]], with the negative indices of Python. *)
Definition py_index {A} (l : list A) (i : Z) : outcome A :=
  let n := Z.of_nat (length l) in
  if (0 <=? i) then or_raise IndexError (l !! Z.to_nat i)
  else if (0 <=? n + i) then or_raise IndexError (l !! Z.to_nat (n + i))
  else Raise IndexError.

Definition returns {A} (m : outcome A) : Prop := exists a, m = Ok a.

Definition raises {A} (m : outcome A) : Prop := exists e, m = Raise e.

(** ** Strings: the fragment of [str] and of format specs the code uses *)

Definition digits_of (n : N) : string := NilZero.string_of_uint (N.to_uint n).

Fixpoint zeros (n : nat) : string :=
  match n with
  | O => EmptyString
  | S n' => String "0" (zeros n')
  end.

(** [format(z, '0<width>d')]: the sign comes first, the zeros fill what the
    sign and the digits leave of the width. *)
Definition format_0d (width : nat) (z : Z) : string :=
  let ds := digits_of (Z.abs_N z) in
  let sign := if z <? 0 then "-"%string else EmptyString in
  let used := (String.length sign + String.length ds)%nat in
  (sign ++ zeros (width - used) ++ ds)%string.

Definition is_digit (c : ascii) : bool :=
  let n := nat_of_ascii c in (48 <=? n)%nat && (n <=? 57)%nat.

Definition digit_value (c : ascii) : Z := Z.of_nat (nat_of_ascii c) - 48.

(** ASCII white space, what [str.strip] and [int] skip. *)
Definition is_space (c : ascii) : bool :=
  let n := nat_of_ascii c in
  ((9 <=? n)%nat && (n <=? 13)%nat) || (n =? 32)%nat || ((28 <=? n)%nat && (n <=? 31)%nat).

Fixpoint lstrip (s : string) : string :=
  match s with
  | String c s' => if is_space c then lstrip s' else s
  | EmptyString => EmptyString
  end.

Fixpoint rstrip (s : string) : string :=
  match s with
  | EmptyString => EmptyString
  | String c s' =>
      match rstrip s' with
      | EmptyString => if is_space c then EmptyString else String c EmptyString
      | r => String c r
      end
  end.

Definition strip (s : string) : string := rstrip (lstrip s).

(** Digits of an [int] literal, most significant first; one underscore is
    allowed between two digits. [prev] tells whether the previous character
    was a digit. *)
Fixpoint parse_digits (s : string) (acc : Z) (prev : bool) : option Z :=
  match s with
  | EmptyString => if prev then Some acc else None
  | String c s' =>
      if is_digit c then parse_digits s' (10 * acc + digit_value c) true
      else if (Ascii.eqb c "_" && prev)%bool then
        match s' with
        | String d _ => if is_digit d then parse_digits s' acc false else None
        | EmptyString => None
        end
      else None
  end.

(** [int(s)] on a [str] in base 10; [None] is [ValueError]. Digits other
    than ASCII ones are not recognised. *)
Definition py_int (s : string) : option Z :=
  match strip s with
  | String "-" r => option_map Z.opp (parse_digits r 0 false)
  | String "+" r => parse_digits r 0 false
  | r => parse_digits r 0 false
  end.

(** [s.split(sep)] for a separator of one character. *)
Fixpoint split_on (sep : ascii) (s : string) : list string :=
  match s with
  | EmptyString => [EmptyString]
  | String c s' =>
      if Ascii.eqb c sep then EmptyString :: split_on sep s'
      else match split_on sep s' with
           | p :: ps => String c p :: ps
           | [] => [String c EmptyString]
           end
  end.

Fixpoint string_drop (n : nat) (s : string) : string :=
  match n, s with
  | O, _ => s
  | S n', String _ s' => string_drop n' s'
  | S _, EmptyString => EmptyString
  end.

Fixpoint string_take (n : nat) (s : string) : string :=
  match n, s with
  | O, _ => EmptyString
  | S n', String c s' => String c (string_take n' s')
  | S _, EmptyString => EmptyString
  end.

Definition startswith (s p : string) : bool := String.prefix p s.

Definition endswith (s p : string) : bool :=
  String.eqb (string_drop (String.length s - String.length p) s) p
  && (String.length p <=? String.length s)%nat.

(** ** Floating point

    The primitives of [float] and of [math] are abstract; partial ones
    return [None] where Python raises. *)

Class PyFloat : Type := {
  float : Type;
  float_eq_dec :: EqDecision float;
  f_of_Z : Z -> float;                (* float(n), for n below [float_overflow] *)
  f_quot : Z -> Z -> float;           (* n / d on ints, d not 0, where it returns *)
  f_inf : float;                      (* float('inf') *)
  f_add : float -> float -> float;
  f_sub : float -> float -> float;
  f_mul : float -> float -> float;
  f_div : float -> float -> float;    (* used with non-zero divisors only *)
  f_lt : float -> float -> bool;      (* False when an operand is nan *)
  f_int : float -> option Z;          (* int(x): raises on nan and inf *)
  f_round : Z -> float -> float;      (* round(x, ndigits) *)
  f_radians : float -> float;         (* math.radians *)
  f_sin : float -> option float;      (* math.sin: ValueError on inf *)
  f_cos : float -> option float;
  f_sqrt : float -> option float;     (* math.sqrt: ValueError below zero *)
  f_asin : float -> option float      (* math.asin: ValueError outside [-1,1] *)
}.

(** ** Dynamically typed values

    What [json.loads] returns, and what a dataclass field holds when it was
    filled from such a value. *)

#[local] Set Warnings "-register-all".

Inductive pyval `{PyFloat} : Type :=
| VNone
| VBool (b : bool)
| VInt (z : Z)
| VFloat (f : float)
| VStr (s : string)
| VList (l : list pyval)
| VDict (d : list (string * pyval)).

Inductive number `{PyFloat} : Type :=
| NInt (z : Z)
| NFloat (f : float).

Section Dynamic.
Context `{PyFloat}.

(** [bool] is a subclass of [int]. *)
Definition as_number (v : pyval) : option number :=
  match v with
  | VInt z => Some (NInt z)
  | VBool b => Some (NInt (if b then 1 else 0))
  | VFloat f => Some (NFloat f)
  | _ => None
  end.

(** The least int that rounds beyond the largest double,
    [2**1024 - 2**970]: from there on, in absolute value, the conversion of
    an int to a float raises [OverflowError]. *)
Definition float_overflow : Z := 2 ^ 1024 - 2 ^ 970.

(** [float(z)], the conversion that the arithmetic of an int with a float
    applies to the int. *)
Definition float_of_int (z : Z) : outcome float :=
  if Z.abs z <? float_overflow then Ok (f_of_Z z) else Raise OverflowError.

(** [a / b] on ints: the quotient is rounded once; it is an
    [OverflowError] when it rounds beyond the largest double. *)
Definition int_truediv (a b : Z) : outcome float :=
  if b =? 0 then Raise ZeroDivisionError
  else if Z.abs a <? float_overflow * Z.abs b then Ok (f_quot a b)
  else Raise OverflowError.

Definition to_float (n : number) : outcome float :=
  match n with
  | NInt z => float_of_int z
  | NFloat f => Ok f
  end.

(** [a + b] on numbers, as [sum] uses it from the start value [0]. *)
Definition py_add (a b : pyval) : outcome pyval :=
  match as_number a, as_number b with
  | Some (NInt x), Some (NInt y) => Ok (VInt (x + y))
  | Some x, Some y =>
      x' ← to_float x; y' ← to_float y; Ok (VFloat (f_add x' y'))
  | _, _ => Raise TypeError
  end.

Definition py_mul (a b : pyval) : outcome pyval :=
  match as_number a, as_number b with
  | Some (NInt x), Some (NInt y) => Ok (VInt (x * y))
  | Some x, Some y =>
      x' ← to_float x; y' ← to_float y; Ok (VFloat (f_mul x' y'))
  | _, _ => Raise TypeError
  end.

(** [a / b], true division; a float divisor is one the caller knows not to
    be zero. *)
Definition py_truediv (a b : pyval) : outcome pyval :=
  match as_number a, as_number b with
  | Some (NInt x), Some (NInt y) => q ← int_truediv x y; Ok (VFloat q)
  | Some x, Some y =>
      x' ← to_float x; y' ← to_float y; Ok (VFloat (f_div x' y'))
  | _, _ => Raise TypeError
  end.

(** [a / len(l)] for a list [l] of [n] items that is not empty: a list has
    at most [sys.maxsize] items, far below [float_overflow], so the length
    converts. *)
Definition py_truediv_len (a : pyval) (n : nat) : outcome pyval :=
  match as_number a with
  | Some (NInt x) => q ← int_truediv x (Z.of_nat n); Ok (VFloat q)
  | Some (NFloat f) => Ok (VFloat (f_div f (f_of_Z (Z.of_nat n))))
  | None => Raise TypeError
  end.

(** [a > 0] *)
Definition py_gt0 (a : pyval) : outcome bool :=
  match as_number a with
  | Some (NInt x) => Ok (0 <? x)
  | Some (NFloat f) => Ok (f_lt (f_of_Z 0) f)
  | None => Raise TypeError
  end.

(** [round(a, ndigits)]: an [int] stays an [int]. *)
Definition py_round (a : pyval) (ndigits : Z) : outcome pyval :=
  match as_number a with
  | Some (NInt x) => Ok (VInt x)
  | Some (NFloat f) => Ok (VFloat (f_round ndigits f))
  | None => Raise TypeError
  end.

(** [sum(xs)], from the start value [0]. *)
Fixpoint py_sum_from (acc : pyval) (xs : list pyval) : outcome pyval :=
  match xs with
  | [] => Ok acc
  | x :: xs' => acc' ← py_add acc x; py_sum_from acc' xs'
  end.

Definition py_sum (xs : list pyval) : outcome pyval := py_sum_from (VInt 0) xs.

(** [d.get(key, default)]; only a [dict] has [get]. The pairs of a [VDict]
    are looked up from the left (decoded objects have one pair per key). *)
Fixpoint assoc_get (key : string) (d : list (string * pyval)) : option pyval :=
  match d with
  | [] => None
  | (k, v) :: d' => if String.eqb k key then Some v else assoc_get key d'
  end.

Definition py_get (v : pyval) (key : string) (default : pyval) : outcome pyval :=
  match v with
  | VDict d => Ok (from_option id default (assoc_get key d))
  | _ => Raise AttributeError
  end.

End Dynamic.

(** ** Data model ([models/vrp_models.py])

    Field names carry a prefix where two dataclasses share a name. *)

Section DataModel.
Context `{PyFloat}.

Record Coordinate : Type := {
  lat : float;
  lng : float
}.

Record TimeWindow : Type := {
  tw_start : string;  (* HH:MM *)
  tw_end : string
}.

Record Customer : Type := {
  c_id : string;
  c_name : string;
  c_coordinate : Coordinate;
  c_demand : Z;
  c_time_window : option TimeWindow;
  c_service_time : Z;  (* minutes *)
  c_priority : Z;
  c_special_requirements : list string
}.

Record Vehicle : Type := {
  v_id : string;
  v_name : string;
  v_type : string;
  v_capacity : Z;
  v_speed : float;
  v_cost_per_km : float;
  v_max_distance : option Z;
  v_fuel_type : option string;
  v_fuel_consumption : option float;
  v_road_restrictions : list string;
  v_is_eco_friendly : bool;
  v_driver_cost : option float;
  v_maintenance_cost : option float
}.

Record VRPRequest : Type := {
  depot : Coordinate;
  customers : list Customer;
  vehicles : list Vehicle;
  max_solving_time : Z;
  optimization_objective : string;
  use_time_windows : bool;
  use_capacity_constraints : bool;
  use_distance_constraints : bool;
  algorithm : string
}.

Record RouteStop : Type := {
  s_type : string;  (* 'depot' or 'customer' *)
  s_id : string;
  s_name : string;
  s_coordinate : Coordinate;
  s_demand : Z;
  s_load : pyval;
  s_arrival_time : string;
  s_departure_time : string;
  s_service_time : Z;
  s_wait_time : Z
}.

Record Route : Type := {
  r_vehicle_id : pyval;
  r_vehicle_name : pyval;
  r_vehicle_type : string;
  r_capacity : Z;
  r_stops : list RouteStop;
  r_total_distance : pyval;
  r_total_cost : pyval;
  r_total_load : pyval;
  r_total_time : pyval;
  r_utilization_rate : pyval;
  r_efficiency : pyval
}.

Record VRPSolution : Type := {
  routes : list Route;
  sol_total_distance : pyval;
  sol_total_cost : pyval;
  sol_total_time : pyval;
  vehicles_used : pyval;
  customers_served : pyval;
  average_utilization : pyval;
  average_efficiency : pyval;
  solving_time : pyval;
  status : string;
  sol_algorithm : string;
  timestamp : string
}.

#[global] Instance Coordinate_eq_dec : EqDecision Coordinate.
Proof. solve_decision. Defined.

#[global] Instance TimeWindow_eq_dec : EqDecision TimeWindow.
Proof. solve_decision. Defined.

#[global] Instance Customer_eq_dec : EqDecision Customer.
Proof. solve_decision. Defined.

(** [[s for s in stops if s.type == 'customer']] *)
Definition customer_stops (stops : list RouteStop) : list RouteStop :=
  filter (fun s => s_type s = "customer"%string) stops.

(** [l.remove(x)]: the first element equal to [x] goes; [None] is the
    [ValueError] of an absent [x]. *)
Fixpoint py_remove {A} `{EqDecision A} (x : A) (l : list A) : option (list A) :=
  match l with
  | [] => None
  | y :: l' => if decide (y = x) then Some l' else cons y <$> py_remove x l'
  end.

(** The haversine distance, the same function in [SimpleVRPService] and in
    [VRPService]. *)
Definition _calculate_distance (coord1 coord2 : Coordinate) : outcome float :=
  let R := f_of_Z 6371 in
  let lat1 := f_radians (lat coord1) in
  let lon1 := f_radians (lng coord1) in
  let lat2 := f_radians (lat coord2) in
  let lon2 := f_radians (lng coord2) in
  let dlat := f_sub lat2 lat1 in
  let dlon := f_sub lon2 lon1 in
  s1 ← or_raise ValueError (f_sin (f_div dlat (f_of_Z 2)));
  c1 ← or_raise ValueError (f_cos lat1);
  c2 ← or_raise ValueError (f_cos lat2);
  s2 ← or_raise ValueError (f_sin (f_div dlon (f_of_Z 2)));
  let a := f_add (f_mul s1 s1) (f_mul (f_mul c1 c2) (f_mul s2 s2)) in
  r ← or_raise ValueError (f_sqrt a);
  h ← or_raise ValueError (f_asin r);
  let c := f_mul (f_of_Z 2) h in
  Ok (f_mul R c).

(** The depot stop every strategy writes, up to its load and its times. *)
Definition depot_stop (depot : Coordinate) (load : pyval) (arrival departure : string)
  : RouteStop :=
  {| s_type := "depot"; s_id := "DEPOT"; s_name := "Depo"; s_coordinate := depot;
     s_demand := 0; s_load := load;
     s_arrival_time := arrival; s_departure_time := departure;
     s_service_time := 0; s_wait_time := 0 |}.

End DataModel.

(** ** The greedy strategy ([services/simple_vrp_service.py]) *)

Module SimpleVRPService.
Section Greedy.
Context `{PyFloat}.

Definition _minutes_to_time (minutes : Z) : string :=
  let hours := minutes / 60 in
  let mins := minutes mod 60 in
  (format_0d 2 hours ++ ":" ++ format_0d 2 mins)%string.

(** The [for] loop that looks for the nearest remaining customer. *)
Fixpoint nearest_scan (current_location : Coordinate) (cs : list Customer)
    (nearest_customer : option Customer) (min_distance : float)
  : outcome (option Customer * float) :=
  match cs with
  | [] => Ok (nearest_customer, min_distance)
  | customer :: cs' =>
      distance ← _calculate_distance current_location (c_coordinate customer);
      if f_lt distance min_distance
      then nearest_scan current_location cs' (Some customer) distance
      else nearest_scan current_location cs' nearest_customer min_distance
  end.

(** The locals and the fields of [route] that the [while] loop updates. *)
Record walk : Type := {
  w_stops : list RouteStop;
  w_total_distance : float;
  w_total_load : Z;
  w_current_time : Z;
  w_current_location : Coordinate
}.

(** [int(distance * 60 / 50)], the minutes of a leg at 50 km/h. *)
Definition leg_minutes (distance : float) : outcome Z :=
  or_raise ValueError (f_int (f_div (f_mul distance (f_of_Z 60)) (f_of_Z 50))).

Definition customer_stop (w : walk) (c : Customer) : RouteStop :=
  {| s_type := "customer"; s_id := c_id c; s_name := c_name c;
     s_coordinate := c_coordinate c; s_demand := c_demand c;
     s_load := VInt (w_total_load w + c_demand c);
     s_arrival_time := _minutes_to_time (w_current_time w);
     s_departure_time := _minutes_to_time (w_current_time w + c_service_time c);
     s_service_time := c_service_time c; s_wait_time := 0 |}.

(** [while remaining_customers: ...]. A pass that finds no nearest customer
    changes nothing and the loop test is taken again. *)
Fixpoint visit (fuel : nat) (w : walk) (remaining_customers : list Customer)
  : outcome walk :=
  match remaining_customers with
  | [] => Ok w
  | _ :: _ =>
      match fuel with
      | O => OutOfFuel
      | S fuel' =>
          '(nearest_customer, min_distance) ←
            nearest_scan (w_current_location w) remaining_customers None f_inf;
          match nearest_customer with
          | Some c =>
              minutes ← leg_minutes min_distance;
              remaining' ← or_raise ValueError (py_remove c remaining_customers);
              visit fuel'
                {| w_stops := w_stops w ++ [customer_stop w c];
                   w_total_distance := f_add (w_total_distance w) min_distance;
                   w_total_load := w_total_load w + c_demand c;
                   w_current_time := w_current_time w + c_service_time c + minutes;
                   w_current_location := c_coordinate c |}
                remaining'
          | None => visit fuel' w remaining_customers
          end
      end
  end.

Definition _create_simple_route (fuel : nat) (vehicle_id : Z) (vehicle : Vehicle)
    (customers : list Customer) (depot : Coordinate) : outcome Route :=
  let start :=
    {| w_stops := [depot_stop depot (VInt 0) "08:00" "08:00"];
       w_total_distance := f_of_Z 0;
       w_total_load := 0;
       w_current_time := 8 * 60;
       w_current_location := depot |} in
  w ← visit fuel start customers;
  return_distance ← _calculate_distance (w_current_location w) depot;
  let total_distance := f_add (w_total_distance w) return_distance in
  minutes ← leg_minutes return_distance;
  let current_time := w_current_time w + minutes in
  let total_load := w_total_load w in
  let capacity := v_capacity vehicle in
  utilization_rate ←
    (if 0 <? capacity then q ← int_truediv total_load capacity; Ok (VFloat q)
     else Ok (VInt 0));
  efficiency ←
    (if f_lt (f_of_Z 0) total_distance
     then load ← float_of_int total_load; Ok (VFloat (f_div load total_distance))
     else Ok (VInt 0));
  Ok {| r_vehicle_id := VStr ("V" ++ format_0d 3 (vehicle_id + 1));
        r_vehicle_name := VStr (v_name vehicle);
        r_vehicle_type := v_type vehicle;
        r_capacity := capacity;
        r_stops := w_stops w ++
          [depot_stop depot (VInt total_load)
             (_minutes_to_time current_time) (_minutes_to_time current_time)];
        r_total_distance := VFloat total_distance;
        r_total_cost := VFloat (f_mul total_distance (v_cost_per_km vehicle));
        r_total_load := VInt total_load;
        r_total_time := VFloat (f_div total_distance (f_of_Z 50));
        r_utilization_rate := utilization_rate;
        r_efficiency := efficiency |}.

(** [for vehicle_id, vehicle in enumerate(request.vehicles): ...];
    [n_vehicles] is [len(request.vehicles)], [vs] the vehicles from index
    [vehicle_id] on. *)
Fixpoint assign (fuel : nat) (depot : Coordinate) (n_vehicles : Z)
    (customers_per_vehicle : nat) (vehicle_id : Z) (vs : list Vehicle)
    (remaining_customers : list Customer) (routes : list Route)
  : outcome (list Route) :=
  match vs with
  | [] => Ok routes
  | vehicle :: vs' =>
      let vehicle_customers := take customers_per_vehicle remaining_customers in
      let remaining_customers := drop customers_per_vehicle remaining_customers in
      let '(vehicle_customers, remaining_customers) :=
        if vehicle_id =? n_vehicles - 1
        then (vehicle_customers ++ remaining_customers, [])
        else (vehicle_customers, remaining_customers) in
      match vehicle_customers with
      | [] =>
          assign fuel depot n_vehicles customers_per_vehicle (vehicle_id + 1) vs'
            remaining_customers routes
      | _ :: _ =>
          route ← _create_simple_route fuel vehicle_id vehicle vehicle_customers depot;
          assign fuel depot n_vehicles customers_per_vehicle (vehicle_id + 1) vs'
            remaining_customers (routes ++ [route])
      end
  end.

(** [sum(f(route) for route in routes) / len(routes) if routes else 0] *)
Definition average (f : Route -> pyval) (routes : list Route) : outcome pyval :=
  match routes with
  | [] => Ok (VInt 0)
  | _ :: _ =>
      s ← py_sum (f <$> routes);
      py_truediv_len s (length routes)
  end.

Definition count_customer_stops (routes : list Route) : Z :=
  foldr Z.add 0 ((fun r => Z.of_nat (length (customer_stops (r_stops r)))) <$> routes).

(** The body of the [try] block of [solve_vrp]. *)
Definition solve_body (fuel : nat) (request : VRPRequest) : outcome VRPSolution :=
  let remaining_customers := customers request in
  let n_vehicles := Z.of_nat (length (vehicles request)) in
  quotient ←
    (if n_vehicles =? 0 then Raise ZeroDivisionError
     else Ok (Z.of_nat (length remaining_customers) / n_vehicles));
  let customers_per_vehicle := Z.max 1 quotient in
  routes ← assign fuel (depot request) n_vehicles (Z.to_nat customers_per_vehicle) 0
             (vehicles request) remaining_customers [];
  total_distance ← py_sum (r_total_distance <$> routes);
  total_cost ← py_sum (r_total_cost <$> routes);
  total_time ← py_sum (r_total_time <$> routes);
  let customers_served := count_customer_stops routes in
  average_utilization ← average r_utilization_rate routes;
  average_efficiency ← average r_efficiency routes;
  total_distance' ← py_round total_distance 2;
  total_cost' ← py_round total_cost 2;
  total_time' ← py_round total_time 2;
  percent ← py_mul average_utilization (VInt 100);
  average_utilization' ← py_round percent 1;
  average_efficiency' ← py_round average_efficiency 2;
  Ok {| routes := routes;
        sol_total_distance := total_distance';
        sol_total_cost := total_cost';
        sol_total_time := total_time';
        vehicles_used := VInt (Z.of_nat (length routes));
        customers_served := VInt customers_served;
        average_utilization := average_utilization';
        average_efficiency := average_efficiency';
        solving_time := VFloat (f_div (f_of_Z 1) (f_of_Z 100));  (* 0.01 *)
        status := "success";
        sol_algorithm := "Simple Multi-Vehicle";
        timestamp := "2025-01-01T00:00:00" |}.

(** [solve_vrp]: [Ok (Some s)] is a returned solution, [Ok None] the
    [None] of the [except] branch. *)
Definition solve_vrp (fuel : nat) (request : VRPRequest) : outcome (option VRPSolution) :=
  try_except (solution ← solve_body fuel request; Ok (Some solution))
             (fun _ => Ok None).

End Greedy.
End SimpleVRPService.

(** ** The external-solver adapter ([services/gemini_service.py]) *)

Module GeminiVRPService.
Section Adapter.
Context `{PyFloat}.

(** What the adapter calls and this development does not define: the text
    of the prompt (f-strings over the request), the call of the generative
    model with the [text] of its reply, and [json.loads]. A call either
    returns or raises. *)
Record Collaborator : Type := {
  _create_vrp_prompt : VRPRequest -> string;
  generate_content : string -> exn + string;
  json_loads : string -> exn + pyval
}.

Definition of_sum {A} (r : exn + A) : outcome A :=
  match r with
  | inl e => Raise e
  | inr a => Ok a
  end.

(** [v == s] for a [str] [s] *)
Definition py_eq_str (v : pyval) (s : string) : bool :=
  match v with
  | VStr s' => String.eqb s' s
  | _ => false
  end.

Fixpoint chars (s : string) : list pyval :=
  match s with
  | EmptyString => []
  | String c s' => VStr (String c EmptyString) :: chars s'
  end.

(** [for x in v]: a list gives its items, a dict its keys, a str its
    characters (here one per byte); nothing else is iterable. *)
Definition py_iter (v : pyval) : outcome (list pyval) :=
  match v with
  | VList l => Ok l
  | VDict d => Ok ((fun kv => VStr (fst kv)) <$> d)
  | VStr s => Ok (chars s)
  | _ => Raise TypeError
  end.

(** [for c in request.customers: if c.name == name: customer = c; break] *)
Fixpoint find_customer (name : pyval) (cs : list Customer) : option Customer :=
  match cs with
  | [] => None
  | c :: cs' => if py_eq_str name (c_name c) then Some c else find_customer name cs'
  end.

(** [stop_data.get('name')] is evaluated in the loop over the customers,
    so not at all when there is none. *)
Definition _create_stop_from_data (stop_data : pyval) (request : VRPRequest)
  : outcome (option RouteStop) :=
  try_except
    (stop_type ← py_get stop_data "type" (VStr "customer");
     if py_eq_str stop_type "depot"
     then Ok (Some (depot_stop (depot request) (VInt 0) "08:00" "08:00"))
     else
       match customers request with
       | [] => Ok None
       | _ :: _ =>
           name ← py_get stop_data "name" VNone;
           match find_customer name (customers request) with
           | Some customer =>
               load ← py_get stop_data "demand" (VInt (c_demand customer));
               Ok (Some {| s_type := "customer"; s_id := c_id customer;
                           s_name := c_name customer;
                           s_coordinate := c_coordinate customer;
                           s_demand := c_demand customer;
                           s_load := load;
                           s_arrival_time := "09:00";
                           s_departure_time := "09:15";
                           s_service_time := c_service_time customer;
                           s_wait_time := 0 |})
           | None => Ok None
           end
       end)
    (fun _ => Ok None).

(** [for v in request.vehicles:
       if v.name == vehicle_name or v.id == vehicle_id: vehicle = v; break] *)
Fixpoint match_vehicle (vehicle_name vehicle_id : pyval) (vs : list Vehicle)
  : option Vehicle :=
  match vs with
  | [] => None
  | v :: vs' =>
      if py_eq_str vehicle_name (v_name v) || py_eq_str vehicle_id (v_id v)
      then Some v
      else match_vehicle vehicle_name vehicle_id vs'
  end.

(** The vehicle a returned route is reconciled with; [request.vehicles[0]]
    raises on an empty fleet. *)
Definition select_vehicle (vehicle_name vehicle_id : pyval) (request : VRPRequest)
  : outcome Vehicle :=
  match match_vehicle vehicle_name vehicle_id (vehicles request) with
  | Some v => Ok v
  | None => or_raise IndexError (head (vehicles request))
  end.

(** [for stop_data in ...: stop = ...; if stop: route.stops.append(stop)] *)
Fixpoint collect_stops (stops_data : list pyval) (request : VRPRequest)
    (stops : list RouteStop) : outcome (list RouteStop) :=
  match stops_data with
  | [] => Ok stops
  | stop_data :: rest =>
      stop ← _create_stop_from_data stop_data request;
      match stop with
      | Some s => collect_stops rest request (stops ++ [s])
      | None => collect_stops rest request stops
      end
  end.

Definition _create_route_from_data (route_data : pyval) (request : VRPRequest)
  : outcome (option Route) :=
  try_except
    (vehicle_id ← py_get route_data "vehicle_id" (VStr "V001");
     vehicle_name ← py_get route_data "vehicle_name" (VStr "Araç");
     vehicle ← select_vehicle vehicle_name vehicle_id request;
     total_distance ← py_get route_data "total_distance" (VInt 0);
     total_cost ← py_get route_data "total_cost" (VInt 0);
     total_load ← py_get route_data "total_load" (VInt 0);
     let capacity := v_capacity vehicle in
     stops_data ← py_get route_data "stops" (VList []);
     stops_list ← py_iter stops_data;
     stops ← collect_stops stops_list request [];
     utilization_rate ←
       (if 0 <? capacity then py_truediv total_load (VInt capacity) else Ok (VInt 0));
     positive ← py_gt0 total_distance;
     efficiency ←
       (if positive : bool then py_truediv total_load total_distance else Ok (VInt 0));
     Ok (Some {| r_vehicle_id := vehicle_id;
                 r_vehicle_name := vehicle_name;
                 r_vehicle_type := v_type vehicle;
                 r_capacity := capacity;
                 r_stops := stops;
                 r_total_distance := total_distance;
                 r_total_cost := total_cost;
                 r_total_load := total_load;
                 r_total_time := VInt 0;
                 r_utilization_rate := utilization_rate;
                 r_efficiency := efficiency |}))
    (fun _ => Ok None).

(** [for route_data in ...: route = ...; if route: routes.append(route)] *)
Fixpoint collect_routes (routes_data : list pyval) (request : VRPRequest)
    (routes : list Route) : outcome (list Route) :=
  match routes_data with
  | [] => Ok routes
  | route_data :: rest =>
      route ← _create_route_from_data route_data request;
      match route with
      | Some r => collect_routes rest request (routes ++ [r])
      | None => collect_routes rest request routes
      end
  end.

(** The reply without its code fence. *)
Definition clean_response (response_text : string) : string :=
  let t := strip response_text in
  let t := if startswith t "```json" then string_drop 7 t else t in
  if endswith t "```" then string_take (String.length t - 3) t else t.

Definition _parse_gemini_response (env : Collaborator) (response_text : string)
    (request : VRPRequest) : outcome (option VRPSolution) :=
  try_except
    (solution_data ← of_sum (json_loads env (clean_response response_text));
     routes_data ← py_get solution_data "routes" (VList []);
     routes_list ← py_iter routes_data;
     routes ← collect_routes routes_list request [];
     total_distance ← py_get solution_data "total_distance" (VInt 0);
     total_cost ← py_get solution_data "total_cost" (VInt 0);
     used ← py_get solution_data "vehicles_used" (VInt (Z.of_nat (length routes)));
     served ← py_get solution_data "customers_served" (VInt 0);
     Ok (Some {| routes := routes;
                 sol_total_distance := total_distance;
                 sol_total_cost := total_cost;
                 sol_total_time := VInt 0;
                 vehicles_used := used;
                 customers_served := served;
                 average_utilization := VInt 0;
                 average_efficiency := VInt 0;
                 solving_time := VInt 0;
                 status := "success";
                 sol_algorithm := "Gemini AI";
                 timestamp := "2025-01-01T00:00:00" |}))
    (fun _ => Ok None).

Definition solve_vrp (env : Collaborator) (request : VRPRequest)
  : outcome (option VRPSolution) :=
  try_except
    (let prompt := _create_vrp_prompt env request in
     response_text ← of_sum (generate_content env prompt);
     _parse_gemini_response env response_text request)
    (fun _ => Ok None).

End Adapter.
End GeminiVRPService.

(** ** The constraint-programming strategy ([services/vrp_service.py]) *)

Module VRPService.
Section ConstraintProgramming.
Context `{PyFloat}.

Definition _time_to_seconds (time_str : string) : Z :=
  match split_on ":" time_str with
  | [h; m] =>
      match py_int h, py_int m with
      | Some hours, Some minutes => hours * 3600 + minutes * 60
      | _, _ => 0
      end
  | _ => 0
  end.

Definition _seconds_to_time (seconds : Z) : string :=
  let hours := seconds / 3600 in
  let minutes := (seconds mod 3600) / 60 in
  (format_0d 2 hours ++ ":" ++ format_0d 2 minutes)%string.

(** The dictionary [data]. *)
Record DataModel : Type := {
  distance_matrix : list (list Z);
  time_matrix : list (list Z);
  num_vehicles : Z;
  dm_depot : Z;
  demands : list Z;
  vehicle_capacities : list Z;
  time_windows : list (Z * Z);
  service_times : list Z;
  vehicle_speeds : list float;
  vehicle_costs : list float;
  vehicle_fixed_costs : list Z
}.

(** One entry of the distance matrix (meters) with the entry of the time
    matrix (seconds at 50 km/h). *)
Definition matrix_cell (i j : nat) (a b : Coordinate) : outcome (Z * Z) :=
  if (i =? j)%nat then Ok (0, 0)
  else
    distance ← _calculate_distance a b;
    meters ← or_raise ValueError (f_int (f_mul distance (f_of_Z 1000)));
    seconds ← or_raise ValueError
                (f_int (f_div (f_mul distance (f_of_Z 3600)) (f_of_Z 50)));
    Ok (meters, seconds).

Definition matrix_row (locations : list Coordinate) (i : nat) (a : Coordinate)
  : outcome (list (Z * Z)) :=
  mapM (fun jb => matrix_cell i (fst jb) a (snd jb)) (imap pair locations).

Definition customer_window (customer : Customer) : Z * Z :=
  match c_time_window customer with
  | Some w => (_time_to_seconds (tw_start w), _time_to_seconds (tw_end w))
  | None => (0, 86400)
  end.

Definition _create_data_model (request : VRPRequest) : outcome DataModel :=
  let locations := depot request :: (c_coordinate <$> customers request) in
  rows ← (mapM (fun ia => matrix_row locations (fst ia) (snd ia)) (imap pair locations)
            : outcome (list (list (Z * Z))));
  let time_windows :=
    if use_time_windows request
    then (0, 86400) :: (customer_window <$> customers request)
    else [] in
  Ok {| distance_matrix := map (map fst) rows;
        time_matrix := map (map snd) rows;
        num_vehicles := Z.of_nat (length (vehicles request));
        dm_depot := 0;
        demands := 0 :: (c_demand <$> customers request);
        vehicle_capacities := v_capacity <$> vehicles request;
        time_windows := time_windows;
        service_times := 0 :: ((fun c => c_service_time c * 60) <$> customers request);
        vehicle_speeds := v_speed <$> vehicles request;
        vehicle_costs := v_cost_per_km <$> vehicles request;
        vehicle_fixed_costs := Z.of_nat <$> seq 0 (length (vehicles request)) |}.

(** *** The routing model, as the calls that build it *)

(** A dimension of the routing model with the table its transit callback
    reads. *)
Inductive dimension : Type :=
| AddDimensionWithVehicleCapacity
    (node_demands : list Z) (slack_max : Z) (vehicle_capacities : list Z)
    (fix_start_cumul_to_zero : bool) (name : string)
| AddDimension
    (travel_times : list (list Z)) (node_service_times : list Z)
    (slack_max capacity : Z) (fix_start_cumul_to_zero : bool) (name : string).

Record SearchParameters : Type := {
  first_solution_strategy : string;
  local_search_metaheuristic : string;
  time_limit_seconds : Z;
  solution_limit : Z;
  log_search : bool
}.

Record RoutingModel : Type := {
  rm_nodes : Z;                       (* RoutingIndexManager(nodes, vehicles, depot) *)
  rm_vehicles : Z;
  rm_depot : Z;
  rm_arc_cost : list (list Z);        (* SetArcCostEvaluatorOfAllVehicles *)
  rm_dimensions : list dimension;
  rm_cumul_ranges : list (nat * (Z * Z));  (* CumulVar(node).SetRange(lo, hi) *)
  rm_fixed_costs : list (Z * Z)       (* SetFixedCostOfVehicle(vehicle, cost) *)
}.

(** What the solver assigns to one vehicle: the nodes from the start of its
    route up to, not including, its end, each with the cost of the arc that
    leaves it ([GetArcCostForVehicle]). The end of every route is the node of
    the depot. *)
Definition vehicle_path : Type := list (Z * Z).

Record Assignment : Type := {
  paths : list vehicle_path
}.

(** The library behind [SolveWithParameters]: it returns an assignment, or
    the null of "no solution", or raises; and the clock. *)
Record Solver : Type := {
  SolveWithParameters : RoutingModel -> SearchParameters -> exn + option Assignment;
  elapsed : float;          (* time.time() - start_time *)
  strftime_now : string     (* time.strftime('%Y-%m-%dT%H:%M:%S') *)
}.

Definition capacity_dimension (data : DataModel) : dimension :=
  AddDimensionWithVehicleCapacity (demands data) 0 (vehicle_capacities data) true "Capacity".

Definition time_dimension (data : DataModel) : dimension :=
  AddDimension (time_matrix data) (service_times data) 86400 86400 false "Time".

(** The model [_solve_with_ortools] builds before it calls the solver.
    ['time_windows' in data] is true of every [data] of [_create_data_model]. *)
Definition build_routing_model (data : DataModel) (request : VRPRequest) : RoutingModel :=
  let with_time := use_time_windows request in
  {| rm_nodes := Z.of_nat (length (distance_matrix data));
     rm_vehicles := num_vehicles data;
     rm_depot := dm_depot data;
     rm_arc_cost := distance_matrix data;
     rm_dimensions :=
       capacity_dimension data :: (if with_time then [time_dimension data] else []);
     rm_cumul_ranges := if with_time then imap pair (time_windows data) else [];
     rm_fixed_costs :=
       (fun v => (v, v * 1)) <$> (Z.of_nat <$> seq 0 (Z.to_nat (num_vehicles data))) |}.

Definition search_parameters (request : VRPRequest) : SearchParameters :=
  {| first_solution_strategy := "PATH_CHEAPEST_ARC";
     local_search_metaheuristic := "AUTOMATIC";
     time_limit_seconds := Z.min (max_solving_time request) 30;
     solution_limit := 1;
     log_search := false |}.

(** The calls that build the model are inside the [try] with the call of
    the solver: what any of them raises is the [inl] of [SolveWithParameters]
    here. The loop over the used vehicles only writes to the log. *)
Definition _solve_with_ortools (solver : Solver) (data : DataModel) (request : VRPRequest)
  : outcome (option Assignment) :=
  try_except
    (match SolveWithParameters solver (build_routing_model data request)
             (search_parameters request) with
     | inl e => Raise e
     | inr solution => Ok solution
     end)
    (fun _ => Ok None).

(** The locals of the [while] loop of [_create_route]. *)
Record trail : Type := {
  t_stops : list RouteStop;
  t_route_distance : Z;
  t_route_load : Z;
  t_route_time : Z;
  t_current_time : Z
}.

(** One pass of [while not routing.IsEnd(index)] at a node of the path;
    [next_node] is the node of the index that follows. *)
Definition step (data : DataModel) (request : VRPRequest) (t : trail)
    (node_index arc_distance next_node : Z) : outcome trail :=
  '(stop, route_load, current_time) ←
    (if node_index =? 0
     then Ok (depot_stop (depot request) (VInt (t_route_load t))
                (_seconds_to_time (t_current_time t))
                (_seconds_to_time (t_current_time t)),
              t_route_load t, t_current_time t)
     else
       customer ← py_index (customers request) (node_index - 1);
       let service_time := c_service_time customer * 60 in
       Ok ({| s_type := "customer"; s_id := c_id customer; s_name := c_name customer;
              s_coordinate := c_coordinate customer; s_demand := c_demand customer;
              s_load := VInt (t_route_load t + c_demand customer);
              s_arrival_time := _seconds_to_time (t_current_time t);
              s_departure_time := _seconds_to_time (t_current_time t + service_time);
              s_service_time := c_service_time customer; s_wait_time := 0 |},
           t_route_load t + c_demand customer, t_current_time t + service_time));
  row ← py_index (time_matrix data) node_index;
  travel_time ← py_index row next_node;
  Ok {| t_stops := t_stops t ++ [stop];
        t_route_distance := t_route_distance t + arc_distance;
        t_route_load := route_load;
        t_route_time := t_route_time t + travel_time;
        t_current_time := current_time + travel_time |}.

Fixpoint follow (data : DataModel) (request : VRPRequest) (t : trail) (path : vehicle_path)
  : outcome trail :=
  match path with
  | [] => Ok t
  | (node_index, arc_distance) :: rest =>
      let next_node := match rest with (n, _) :: _ => n | [] => dm_depot data end in
      t' ← step data request t node_index arc_distance next_node;
      follow data request t' rest
  end.

Definition _create_route (vehicle_id : Z) (solution : Assignment) (data : DataModel)
    (request : VRPRequest) : outcome Route :=
  vehicle ← py_index (vehicles request) vehicle_id;
  path ← py_index (paths solution) vehicle_id;
  t ← follow data request
        {| t_stops := []; t_route_distance := 0; t_route_load := 0;
           t_route_time := 0; t_current_time := 0 |} path;
  let capacity := v_capacity vehicle in
  total_distance ← int_truediv (t_route_distance t) 1000;
  total_time ← int_truediv (t_route_time t) 3600;
  utilization_rate ←
    (if 0 <? capacity then q ← int_truediv (t_route_load t) capacity; Ok (VFloat q)
     else Ok (VInt 0));
  efficiency ←
    (if f_lt (f_of_Z 0) total_distance
     then load ← float_of_int (t_route_load t); Ok (VFloat (f_div load total_distance))
     else Ok (VInt 0));
  Ok {| r_vehicle_id := VStr ("V" ++ format_0d 3 (vehicle_id + 1));
        r_vehicle_name := VStr (v_name vehicle);
        r_vehicle_type := v_type vehicle;
        r_capacity := capacity;
        r_stops := t_stops t ++
          [depot_stop (depot request) (VInt (t_route_load t))
             (_seconds_to_time (t_current_time t)) (_seconds_to_time (t_current_time t))];
        r_total_distance := VFloat total_distance;
        r_total_cost := VFloat (f_mul total_distance (v_cost_per_km vehicle));
        r_total_load := VInt (t_route_load t);
        r_total_time := VFloat total_time;
        r_utilization_rate := utilization_rate;
        r_efficiency := efficiency |}.

(** The running totals of [_format_solution]. *)
Record totals : Type := {
  k_routes : list Route;
  k_total_distance : pyval;
  k_total_cost : pyval;
  k_total_time : pyval
}.

(** [for vehicle_id in range(data['num_vehicles']): ...]: a route is kept
    when it has a customer stop. *)
Fixpoint keep_routes (vehicle_ids : list Z) (solution : Assignment) (data : DataModel)
    (request : VRPRequest) (k : totals) : outcome totals :=
  match vehicle_ids with
  | [] => Ok k
  | vehicle_id :: rest =>
      route ← _create_route vehicle_id solution data request;
      match customer_stops (r_stops route) with
      | [] => keep_routes rest solution data request k
      | _ :: _ =>
          total_distance ← py_add (k_total_distance k) (r_total_distance route);
          total_cost ← py_add (k_total_cost k) (r_total_cost route);
          total_time ← py_add (k_total_time k) (r_total_time route);
          keep_routes rest solution data request
            {| k_routes := k_routes k ++ [route];
               k_total_distance := total_distance;
               k_total_cost := total_cost;
               k_total_time := total_time |}
      end
  end.

Definition _format_solution (solver : Solver) (solution : Assignment) (data : DataModel)
    (request : VRPRequest) : outcome VRPSolution :=
  k ← keep_routes (Z.of_nat <$> seq 0 (Z.to_nat (num_vehicles data))) solution data request
        {| k_routes := []; k_total_distance := VInt 0; k_total_cost := VInt 0;
           k_total_time := VInt 0 |};
  let routes := k_routes k in
  let customers_served := SimpleVRPService.count_customer_stops routes in
  average_utilization ← SimpleVRPService.average r_utilization_rate routes;
  average_efficiency ← SimpleVRPService.average r_efficiency routes;
  total_distance ← py_round (k_total_distance k) 2;
  total_cost ← py_round (k_total_cost k) 2;
  total_time ← py_round (k_total_time k) 2;
  percent ← py_mul average_utilization (VInt 100);
  average_utilization' ← py_round percent 1;
  average_efficiency' ← py_round average_efficiency 2;
  Ok {| routes := routes;
        sol_total_distance := total_distance;
        sol_total_cost := total_cost;
        sol_total_time := total_time;
        vehicles_used := VInt (Z.of_nat (length routes));
        customers_served := VInt customers_served;
        average_utilization := average_utilization';
        average_efficiency := average_efficiency';
        solving_time := VFloat (f_round 2 (elapsed solver));
        status := "success";
        sol_algorithm := "OR-Tools";
        timestamp := strftime_now solver |}.

Definition solve_vrp (solver : Solver) (request : VRPRequest)
  : outcome (option VRPSolution) :=
  try_except
    (data ← _create_data_model request;
     result ← _solve_with_ortools solver data request;
     match result with
     | Some solution =>
         formatted ← _format_solution solver solution data request;
         Ok (Some formatted)
     | None => Ok None
     end)
    (fun _ => Ok None).

End ConstraintProgramming.
End VRPService.

(** ** The orchestrator ([controllers/vrp_controller.py]) *)

Module VRPController.
Section Orchestrator.
Context `{PyFloat}.

Inductive strategy : Type :=
| Simple    (* self.simple_service *)
| Gemini    (* self.gemini_service *)
| ORTools.  (* self.vrp_service *)

(** The services of the controller, the validation service and the clock
    ([time.time() - start_time]). *)
Record Services : Type := {
  simple_service : VRPRequest -> outcome (option VRPSolution);
  gemini_service : VRPRequest -> outcome (option VRPSolution);
  vrp_service : VRPRequest -> outcome (option VRPSolution);
  validate_vrp_request : VRPRequest -> list string;
  solving_clock : float
}.

Definition service (svc : Services) (which : strategy)
  : VRPRequest -> outcome (option VRPSolution) :=
  match which with
  | Simple => simple_service svc
  | Gemini => gemini_service svc
  | ORTools => vrp_service svc
  end.

(** [self.solving_stats], and the services called so far, in order (the
    second is not a field of the controller: it records the calls). *)
Record ControllerState : Type := {
  total_requests : Z;
  successful_solves : Z;
  failed_solves : Z;
  average_solving_time : float;
  total_solving_time : float;
  invoked : list strategy
}.

Inductive error_text : Type :=
| Message (s : string)
| StrOf (e : exn).  (* str(e) *)

(** The dictionary the controller answers with, without its metadata. *)
Record Response : Type := {
  success : bool;
  data : option VRPSolution;
  error : option error_text;
  details : list string
}.

Definition call (svc : Services) (which : strategy) (request : VRPRequest)
    (st : ControllerState) : outcome (option VRPSolution) * ControllerState :=
  (service svc which request,
   {| total_requests := total_requests st;
      successful_solves := successful_solves st;
      failed_solves := failed_solves st;
      average_solving_time := average_solving_time st;
      total_solving_time := total_solving_time st;
      invoked := invoked st ++ [which] |}).

(** [result = simple...; if not result: result = gemini...;
     if not result: result = ortools...] *)
Definition fallback_chain (svc : Services) (request : VRPRequest) (st : ControllerState)
  : outcome (option VRPSolution) * ControllerState :=
  let '(result, st) := call svc Simple request st in
  match result with
  | Ok None =>
      let '(result, st) := call svc Gemini request st in
      match result with
      | Ok None => call svc ORTools request st
      | _ => (result, st)
      end
  | _ => (result, st)
  end.

(** [successful_solves] counts the calls since the controller was created:
    it is below [float_overflow], and the average is a float. *)
Definition count_success (svc : Services) (st : ControllerState) : ControllerState :=
  let successes := successful_solves st + 1 in
  let total := f_add (total_solving_time st) (solving_clock svc) in
  {| total_requests := total_requests st;
     successful_solves := successes;
     failed_solves := failed_solves st;
     average_solving_time := f_div total (f_of_Z successes);
     total_solving_time := total;
     invoked := invoked st |}.

Definition count_failure (st : ControllerState) : ControllerState :=
  {| total_requests := total_requests st;
     successful_solves := successful_solves st;
     failed_solves := failed_solves st + 1;
     average_solving_time := average_solving_time st;
     total_solving_time := total_solving_time st;
     invoked := invoked st |}.

Definition count_request (st : ControllerState) : ControllerState :=
  {| total_requests := total_requests st + 1;
     successful_solves := successful_solves st;
     failed_solves := failed_solves st;
     average_solving_time := average_solving_time st;
     total_solving_time := total_solving_time st;
     invoked := invoked st |}.

(** [solve_vrp], from the converted request on. [None] is a call that does
    not return because a service does not. *)
Definition solve_vrp (svc : Services) (request : VRPRequest) (st : ControllerState)
  : option Response * ControllerState :=
  let st := count_request st in
  match validate_vrp_request svc request with
  | (_ :: _) as validation_errors =>
      (Some {| success := false; data := None;
               error := Some (Message "Input validation failed");
               details := validation_errors |}, st)
  | [] =>
      let '(result, st) := fallback_chain svc request st in
      match result with
      | Ok (Some solution) =>
          (Some {| success := true; data := Some solution; error := None;
                   details := [] |}, count_success svc st)
      | Ok None =>
          (Some {| success := false; data := None;
                   error := Some (Message "Çözüm bulunamadı"); details := [] |},
           count_failure st)
      | Raise e =>
          (Some {| success := false; data := None; error := Some (StrOf e);
                   details := [] |}, count_failure st)
      | OutOfFuel => (None, st)
      end
  end.

End Orchestrator.
End VRPController.

(** ** An instance of the float interface

    Integers with [inf] and [nan], and the small-angle forms of the
    trigonometric functions ([sin x = x], [cos x = 1], [asin x = x]): the
    haversine distance becomes 6371 times the integer Euclidean distance.
    It is used to run the model on concrete requests. *)

Module GridFloat.

Inductive t : Type :=
| Fin (z : Z)
| Inf
| Nan.

#[global] Instance t_eq_dec : EqDecision t.
Proof. solve_decision. Defined.

Definition lift2 (op : Z -> Z -> Z) (a b : t) : t :=
  match a, b with
  | Fin x, Fin y => Fin (op x y)
  | Nan, _ | _, Nan => Nan
  | _, _ => Inf
  end.

Definition div (a b : t) : t :=
  match a, b with
  | Fin x, Fin y => if y =? 0 then Nan else Fin (Z.quot x y)
  | Inf, Fin _ => Inf
  | Fin _, Inf => Fin 0
  | _, _ => Nan
  end.

Definition lt (a b : t) : bool :=
  match a, b with
  | Fin x, Fin y => x <? y
  | Fin _, Inf => true
  | _, _ => false
  end.

Definition to_int (a : t) : option Z :=
  match a with
  | Fin x => Some x
  | _ => None
  end.

Definition sin (a : t) : option t :=
  match a with
  | Inf => None
  | _ => Some a
  end.

Definition sqrt (a : t) : option t :=
  match a with
  | Fin x => if x <? 0 then None else Some (Fin (Z.sqrt x))
  | _ => Some a
  end.

#[global] Instance ops : PyFloat := {|
  float := t;
  f_of_Z := Fin;
  f_quot := fun a b => div (Fin a) (Fin b);
  f_inf := Inf;
  f_add := lift2 Z.add;
  f_sub := lift2 Z.sub;
  f_mul := lift2 Z.mul;
  f_div := div;
  f_lt := lt;
  f_int := to_int;
  f_round := fun _ a => a;
  f_radians := fun a => a;
  f_sin := sin;
  f_cos := fun _ => Some (Fin 1);
  f_sqrt := sqrt;
  f_asin := sin
|}.

Definition coord (x y : Z) : Coordinate := {| lat := Fin x; lng := Fin y |}.

Definition customer (id name : string) (x y demand : Z) : Customer :=
  {| c_id := id; c_name := name; c_coordinate := coord x y; c_demand := demand;
     c_time_window := None; c_service_time := 15; c_priority := 5;
     c_special_requirements := [] |}.

Definition vehicle (id name : string) (capacity : Z) : Vehicle :=
  {| v_id := id; v_name := name; v_type := "truck"; v_capacity := capacity;
     v_speed := Fin 50; v_cost_per_km := Fin 2;
     v_max_distance := None; v_fuel_type := None; v_fuel_consumption := None;
     v_road_restrictions := []; v_is_eco_friendly := false;
     v_driver_cost := None; v_maintenance_cost := None |}.

(** A request with the defaults of [VRPRequest]. *)
Definition request (d : Coordinate) (cs : list Customer) (vs : list Vehicle) : VRPRequest :=
  {| depot := d; customers := cs; vehicles := vs;
     max_solving_time := 300; optimization_objective := "balanced";
     use_time_windows := false; use_capacity_constraints := true;
     use_distance_constraints := true; algorithm := "ortools" |}.

End GridFloat.

(** ** The vocabulary of the properties *)

(** A wall-clock time [HH:MM]: two digits, a colon, two digits, hours up to
    23 and minutes up to 59. *)
Definition valid_HHMM (s : string) : bool :=
  match s with
  | String h1 (String h2 (String c (String m1 (String m2 EmptyString)))) =>
      Ascii.eqb c ":" && is_digit h1 && is_digit h2 && is_digit m1 && is_digit m2
      && (10 * digit_value h1 + digit_value h2 <=? 23)
      && (10 * digit_value m1 + digit_value m2 <=? 59)
  | _ => false
  end.

Definition digit_chars : list ascii :=
  ["0"; "1"; "2"; "3"; "4"; "5"; "6"; "7"; "8"; "9"]%char.

Definition hhmm (h1 h2 m1 m2 : ascii) : string :=
  String h1 (String h2 (String ":" (String m1 (String m2 EmptyString)))).

Definition round_trip_ok (s : string) : bool :=
  implb (valid_HHMM s)
        (String.eqb (VRPService._seconds_to_time (VRPService._time_to_seconds s)) s).

(** The computation ends: it returns or it raises. *)
Definition halts {A} (m : outcome A) : Prop := m <> OutOfFuel.

Section Vocabulary.
Context `{PyFloat}.

(** The depot and the customers of a request, as the walk meets them. *)
Definition locations (request : VRPRequest) : list Coordinate :=
  depot request :: (c_coordinate <$> customers request).

(** A leg the walk can take: the distance is computed, it compares below
    [float('inf')] and its minutes at 50 km/h are an [int]. Validated
    coordinates are meant to give such legs. *)
Definition finite_leg (a b : Coordinate) : bool :=
  match _calculate_distance a b with
  | Ok d =>
      f_lt d f_inf &&
      match f_int (f_div (f_mul d (f_of_Z 60)) (f_of_Z 50)) with
      | Some _ => true
      | None => false
      end
  | _ => false
  end.

Definition finite_distances (request : VRPRequest) : bool :=
  forallb (fun a => forallb (finite_leg a) (locations request)) (locations request).

Definition finite_among (ls : list Coordinate) : Prop :=
  forall a b, a ∈ ls -> b ∈ ls -> finite_leg a b = true.

(** A distance that is computed compares below [float('inf')]: it is
    neither [nan] nor [inf]. *)
Definition comparable_leg (a b : Coordinate) : bool :=
  match _calculate_distance a b with
  | Ok d => f_lt d f_inf
  | _ => true
  end.

Definition comparable_distances (request : VRPRequest) : bool :=
  forallb (fun a => forallb (comparable_leg a) (locations request)) (locations request).

Definition comparable_among (ls : list Coordinate) : Prop :=
  forall a b, a ∈ ls -> b ∈ ls -> comparable_leg a b = true.

(** The stop [s] is the visit of the customer [c]. *)
Definition serves (s : RouteStop) (c : Customer) : Prop :=
  s_type s = "customer"%string /\ s_id s = c_id c /\ s_name s = c_name c /\
  s_coordinate s = c_coordinate c /\ s_demand s = c_demand c /\
  s_service_time s = c_service_time c.

Definition total_demand (cs : list Customer) : Z := foldr Z.add 0 (c_demand <$> cs).

Definition stops_demand (stops : list RouteStop) : Z := foldr Z.add 0 (s_demand <$> stops).

(** The demands of the customers, in absolute value. *)
Definition abs_demand (cs : list Customer) : Z :=
  foldr Z.add 0 ((fun c => Z.abs (c_demand c)) <$> cs).

(** The demands of the request add up to an int that converts to a float,
    and so does the load of every vehicle. *)
Definition demands_in_range (request : VRPRequest) : bool :=
  abs_demand (customers request) <? float_overflow.

(** A metric of a route or of a solution: a float, or the int 0 of an
    empty sum and of a ratio that is not computed. *)
Definition is_measure (v : pyval) : Prop := v = VInt 0 \/ exists f, v = VFloat f.

Definition is_depot (s : RouteStop) : Prop := s_type s = "depot"%string.

(** The route [r] names the vehicle at index [fst iv] of the fleet, which
    is [snd iv]. *)
Definition route_vehicle (r : Route) (iv : Z * Vehicle) : Prop :=
  r_vehicle_id r = VStr ("V" ++ format_0d 3 (fst iv + 1)) /\
  r_vehicle_name r = VStr (v_name (snd iv)) /\
  r_vehicle_type r = v_type (snd iv) /\
  r_capacity r = v_capacity (snd iv).

(** [enumerate(vs, start=i)] *)
Fixpoint numbered (i : Z) (vs : list Vehicle) : list (Z * Vehicle) :=
  match vs with
  | [] => []
  | v :: vs' => (i, v) :: numbered (i + 1) vs'
  end.

(** The customers each vehicle is given by the loop of
    [SimpleVRPService.solve_vrp], for the vehicles that are given any: the
    bookkeeping of [assign] without the routes. *)
Fixpoint shares (n_vehicles : Z) (customers_per_vehicle : nat) (vehicle_id : Z)
    (vs : list Vehicle) (remaining_customers : list Customer)
  : list (Z * Vehicle * list Customer) :=
  match vs with
  | [] => []
  | vehicle :: vs' =>
      let vehicle_customers := take customers_per_vehicle remaining_customers in
      let remaining_customers := drop customers_per_vehicle remaining_customers in
      let '(vehicle_customers, remaining_customers) :=
        if vehicle_id =? n_vehicles - 1
        then (vehicle_customers ++ remaining_customers, [])
        else (vehicle_customers, remaining_customers) in
      match vehicle_customers with
      | [] => shares n_vehicles customers_per_vehicle (vehicle_id + 1) vs' remaining_customers
      | _ :: _ =>
          (vehicle_id, vehicle, vehicle_customers)
          :: shares n_vehicles customers_per_vehicle (vehicle_id + 1) vs' remaining_customers
      end
  end.

(** The route the greedy strategy builds for a vehicle and the customers it
    was given: a depot stop, one visit for each of them in some order, a
    depot stop; the load is their demand. *)
Definition built_route (depot : Coordinate) (share : Z * Vehicle * list Customer)
    (r : Route) : Prop :=
  route_vehicle r (fst share) /\
  (exists order visits final,
     Permutation order (snd share) /\ Forall2 serves visits order /\
     r_stops r = depot_stop depot (VInt 0) "08:00" "08:00" :: visits ++ [final] /\
     is_depot final) /\
  r_total_load r = VInt (total_demand (snd share)) /\
  is_measure (r_total_distance r) /\ is_measure (r_total_cost r) /\
  is_measure (r_total_time r) /\ is_measure (r_utilization_rate r) /\
  is_measure (r_efficiency r).

(** The stop sequence begins with a depot stop and ends with one. *)
Definition depot_bookends (stops : list RouteStop) : Prop :=
  (exists s, head stops = Some s /\ is_depot s) /\
  (exists s, last stops = Some s /\ is_depot s).

(** [route.total_load] is the demand of the customer stops of the route. *)
Definition load_is_demand (r : Route) : Prop :=
  r_total_load r = VInt (stops_demand (customer_stops (r_stops r))).

(** [route.total_load <= route.capacity] *)
Definition within_capacity (r : Route) : Prop :=
  exists load, r_total_load r = VInt load /\ load <= r_capacity r.

(** Depot, visits of customers, depot, and the load of the visits. *)
Definition greedy_shape (depot : Coordinate) (r : Route) : Prop :=
  exists visits final,
    r_stops r = depot_stop depot (VInt 0) "08:00" "08:00" :: visits ++ [final] /\
    Forall (fun s => s_type s = "customer"%string) visits /\
    is_depot final /\
    r_total_load r = VInt (stops_demand visits).

(** The selection of a vehicle as the specification words it: the vehicle
    with the returned name; without one, the vehicle with the returned id;
    without one, the first vehicle. *)
Fixpoint find_by_name (vehicle_name : pyval) (vs : list Vehicle) : option Vehicle :=
  match vs with
  | [] => None
  | v :: vs' =>
      if GeminiVRPService.py_eq_str vehicle_name (v_name v) then Some v
      else find_by_name vehicle_name vs'
  end.

Fixpoint find_by_id (vehicle_id : pyval) (vs : list Vehicle) : option Vehicle :=
  match vs with
  | [] => None
  | v :: vs' =>
      if GeminiVRPService.py_eq_str vehicle_id (v_id v) then Some v
      else find_by_id vehicle_id vs'
  end.

Definition select_by_name_then_id (vehicle_name vehicle_id : pyval) (request : VRPRequest)
  : outcome Vehicle :=
  match find_by_name vehicle_name (vehicles request) with
  | Some v => Ok v
  | None =>
      match find_by_id vehicle_id (vehicles request) with
      | Some v => Ok v
      | None => or_raise IndexError (head (vehicles request))
      end
  end.

(** The vehicle [v] matches the returned name or the returned id. *)
Definition matches (vehicle_name vehicle_id : pyval) (v : Vehicle) : bool :=
  GeminiVRPService.py_eq_str vehicle_name (v_name v)
  || GeminiVRPService.py_eq_str vehicle_id (v_id v).

(** The routes of the solver leave from the node of the depot, as those of
    a routing model built on [RoutingIndexManager(nodes, vehicles, 0)] do. *)
Definition path_from_depot (path : VRPService.vehicle_path) : bool :=
  match path with
  | [] => true
  | (node, _) :: _ => node =? 0
  end.

Definition starts_at_depot (solver : VRPService.Solver) : Prop :=
  forall model parameters solution,
    VRPService.SolveWithParameters solver model parameters = inr (Some solution) ->
    forallb path_from_depot (VRPService.paths solution) = true.

(** A solution of the greedy strategy or of the constraint-programming
    strategy. *)
Definition greedy_or_cp_solution (sol : VRPSolution) : Prop :=
  (exists fuel request, SimpleVRPService.solve_vrp fuel request = Ok (Some sol)) \/
  (exists solver request,
     starts_at_depot solver /\ VRPService.solve_vrp solver request = Ok (Some sol)).

(** The entries of the stop list of a returned route. *)
Definition reply_stops (route_data : pyval) : outcome (list pyval) :=
  stops_data ← py_get route_data "stops" (VList []);
  GeminiVRPService.py_iter stops_data.

(** The stops the adapter makes of the entries of a reply: one for each
    entry it can reconcile, in the order of the entries. *)
Definition reconciled (request : VRPRequest) (entries : list pyval) : list RouteStop :=
  omap (fun entry =>
          match GeminiVRPService._create_stop_from_data entry request with
          | Ok (Some s) => Some s
          | _ => None
          end) entries.

(** An entry of type ['depot']. *)
Definition depot_entry (entry : pyval) : bool :=
  match py_get entry "type" (VStr "customer") with
  | Ok stop_type => GeminiVRPService.py_eq_str stop_type "depot"
  | _ => false
  end.

(** The adapter makes a stop of the entry. *)
Definition reconcilable (request : VRPRequest) (entry : pyval) : bool :=
  match GeminiVRPService._create_stop_from_data entry request with
  | Ok (Some _) => true
  | _ => false
  end.

(** The first and the last of the entries are of type ['depot']. *)
Definition depot_ends (entries : list pyval) : Prop :=
  (exists entry, head entries = Some entry /\ depot_entry entry = true) /\
  (exists entry, last entries = Some entry /\ depot_entry entry = true).

(** The request with another value of [use_capacity_constraints]. *)
Definition with_capacity_constraints (b : bool) (request : VRPRequest) : VRPRequest :=
  {| depot := depot request; customers := customers request;
     vehicles := vehicles request; max_solving_time := max_solving_time request;
     optimization_objective := optimization_objective request;
     use_time_windows := use_time_windows request;
     use_capacity_constraints := b;
     use_distance_constraints := use_distance_constraints request;
     algorithm := algorithm request |}.

Definition is_capacity_dimension (d : VRPService.dimension) : bool :=
  match d with
  | VRPService.AddDimensionWithVehicleCapacity _ _ _ _ _ => true
  | VRPService.AddDimension _ _ _ _ _ _ => false
  end.

(** The response of the controller to a solved request, and to a request
    no strategy solved. *)
Definition solved (solution : VRPSolution) : VRPController.Response :=
  {| VRPController.success := true; VRPController.data := Some solution;
     VRPController.error := None; VRPController.details := [] |}.

Definition no_solution : VRPController.Response :=
  {| VRPController.success := false; VRPController.data := None;
     VRPController.error := Some (VRPController.Message "Çözüm bulunamadı");
     VRPController.details := [] |}.

End Vocabulary.

(** ** Concrete requests, replies and collaborators *)

Module Examples.
Import GridFloat.

Definition origin : Coordinate := coord 0 0.

(** Four customers of demand 10 around the depot, two vehicles of capacity 25. *)
Definition four_customers : VRPRequest :=
  request origin
    [customer "C1" "A" 2 0 10; customer "C2" "B" 4 0 10;
     customer "C3" "C" 0 2 10; customer "C4" "D" 0 4 10]
    [vehicle "X1" "Van" 25; vehicle "X2" "Bus" 25].

(** One customer of demand 10, one vehicle of capacity 5; capacity
    constraints are enabled, as by default. *)
Definition overloaded : VRPRequest :=
  request origin [customer "C1" "A" 2 0 10] [vehicle "X1" "Van" 5].

(** Two customers, four vehicles. *)
Definition spare_vehicles : VRPRequest :=
  request origin
    [customer "C1" "A" 2 0 10; customer "C2" "B" 0 4 10]
    [vehicle "X1" "Van" 25; vehicle "X2" "Bus" 25;
     vehicle "X3" "Cab" 25; vehicle "X4" "Car" 25].

(** [overloaded] with capacity constraints disabled. *)
Definition unconstrained : VRPRequest := with_capacity_constraints false overloaded.

(** A customer whose location has a [nan] latitude. *)
Definition nowhere : VRPRequest :=
  request origin
    [{| c_id := "C1"; c_name := "A"; c_coordinate := {| lat := Nan; lng := Fin 0 |};
        c_demand := 10; c_time_window := None; c_service_time := 15;
        c_priority := 5; c_special_requirements := [] |}]
    [vehicle "X1" "Van" 25].

(** [nowhere] with a second vehicle. *)
Definition nowhere_spare : VRPRequest :=
  request origin (customers nowhere) [vehicle "X1" "Van" 25; vehicle "X2" "Bus" 25].

(** One customer of demand [10**400], which no float holds, and one
    vehicle; and the same with a second vehicle. *)
Definition heavy : VRPRequest :=
  request origin [customer "C1" "A" 2 0 (10 ^ 400)] [vehicle "X1" "Van" 25].

Definition heavy_spare : VRPRequest :=
  request origin (customers heavy) [vehicle "X1" "Van" 25; vehicle "X2" "Bus" 25].

(** Two vehicles; the name "Bus" is that of the second, the id "X1" that of
    the first. *)
Definition two_vehicles : VRPRequest :=
  request origin [customer "C1" "A" 2 0 10]
    [vehicle "X1" "Van" 25; vehicle "X2" "Bus" 40].

(** A decoded reply with one route, whose only stop is the customer "A". *)
Definition reply : pyval :=
  VDict [("routes",
          VList [VDict [("vehicle_id", VStr "V001");
                        ("vehicle_name", VStr "Van");
                        ("stops", VList [VDict [("type", VStr "customer");
                                                ("name", VStr "A")]]);
                        ("total_distance", VInt 3);
                        ("total_cost", VInt 6);
                        ("total_load", VInt 10)]]);
         ("total_distance", VInt 3);
         ("total_cost", VInt 6);
         ("vehicles_used", VInt 1);
         ("customers_served", VInt 1)].

(** A collaborator that answers every prompt with the JSON text of
    [reply]; the text is written [<reply>] here, and [json.loads] decodes it
    and nothing else. *)
Definition collaborator : GeminiVRPService.Collaborator :=
  {| GeminiVRPService._create_vrp_prompt := fun _ => "VRP";
     GeminiVRPService.generate_content := fun _ => inr "<reply>"%string;
     GeminiVRPService.json_loads := fun text =>
       if String.eqb text "<reply>" then inr reply
       else inl (ExternalError "JSONDecodeError") |}.

(** A solver that sends the first vehicle to customer 1 and back. *)
Definition solver : VRPService.Solver :=
  {| VRPService.SolveWithParameters := fun _ _ =>
       inr (Some {| VRPService.paths := [[(0, 12742000); (1, 12742000)]] |});
     VRPService.elapsed := Fin 0;
     VRPService.strftime_now := "2025-01-01T00:00:00" |}.

(** A solver that finds no solution. *)
Definition no_solver : VRPService.Solver :=
  {| VRPService.SolveWithParameters := fun _ _ => inr None;
     VRPService.elapsed := Fin 0;
     VRPService.strftime_now := "2025-01-01T00:00:00" |}.

(** The three services behind the controller, with a validation that lets the
    request through. *)
Definition services : VRPController.Services :=
  {| VRPController.simple_service := SimpleVRPService.solve_vrp 4;
     VRPController.gemini_service := GeminiVRPService.solve_vrp collaborator;
     VRPController.vrp_service := VRPService.solve_vrp solver;
     VRPController.validate_vrp_request := fun _ => [];
     VRPController.solving_clock := Fin 0 |}.

Definition fresh : VRPController.ControllerState :=
  {| VRPController.total_requests := 0;
     VRPController.successful_solves := 0;
     VRPController.failed_solves := 0;
     VRPController.average_solving_time := Fin 0;
     VRPController.total_solving_time := Fin 0;
     VRPController.invoked := [] |}.

End Examples.

(** ** The validation service ([services/validation_service.py]) *)

(** [a <= b] on floats, which the range checks of the validation use;
    False when an operand is nan. *)
Class PyFloatLe `{PyFloat} : Type := {
  f_le : float -> float -> bool
}.

Module ValidationService.
Section Validation.
Context `{PyFloat} `{!PyFloatLe}.

(** [str(i)] for an [int]. *)
Definition str_int (i : Z) : string :=
  ((if (i <? 0)%Z then "-"%string else EmptyString) ++ digits_of (Z.abs_N i))%string.

Definition _is_valid_coordinate (coord : Coordinate) : bool :=
  if negb (f_le (f_of_Z (-90)) (lat coord) && f_le (lat coord) (f_of_Z 90)) then false
  else if negb (f_le (f_of_Z (-180)) (lng coord) && f_le (lng coord) (f_of_Z 180))
  then false
  else true.

Definition _is_valid_time (time_str : string) : bool :=
  match split_on ":" time_str with
  | [h; m] =>
      match py_int h with
      | Some hours =>
          match py_int m with
          | Some minutes =>
              if negb ((0 <=? hours) && (hours <=? 23)) then false
              else if negb ((0 <=? minutes) && (minutes <=? 59)) then false
              else true
          | None => false
          end
      | None => false
      end
  | _ => false
  end.

Definition _time_to_seconds (time_str : string) : Z :=
  match split_on ":" time_str with
  | [h; m] =>
      match py_int h, py_int m with
      | Some hours, Some minutes => hours * 3600 + minutes * 60
      | _, _ => 0
      end
  | _ => 0
  end.

(** [errors.append(msg)] under [if cond]. *)
Definition check (cond : bool) (msg : string) : list string :=
  if cond then [msg] else [].

Definition is_empty (s : string) : bool := String.eqb s EmptyString.

Definition validate_time_window (w : TimeWindow) (label : string) : list string :=
  check (negb (_is_valid_time (tw_start w)))
    (label ++ "Invalid time window start time") ++
  check (negb (_is_valid_time (tw_end w)))
    (label ++ "Invalid time window end time") ++
  (if _is_valid_time (tw_start w) && _is_valid_time (tw_end w)
   then check (_time_to_seconds (tw_end w) <=? _time_to_seconds (tw_start w))
          (label ++ "Time window start must be before end")
   else []).

Definition _validate_customer (customer : Customer) (index : Z) : list string :=
  let label := ("Customer " ++ str_int index ++ ": ")%string in
  check (is_empty (c_id customer)) (label ++ "ID is required") ++
  check (is_empty (c_name customer)) (label ++ "Name is required") ++
  check (negb (_is_valid_coordinate (c_coordinate customer)))
    (label ++ "Invalid coordinates") ++
  check (c_demand customer <=? 0) (label ++ "Demand must be positive") ++
  check (c_service_time customer <? 0) (label ++ "Service time cannot be negative") ++
  check ((c_priority customer <? 1) || (10 <? c_priority customer))
    (label ++ "Priority must be between 1 and 10") ++
  match c_time_window customer with
  | Some w => validate_time_window w label
  | None => []
  end.

(** [x is not None and x <= 0] *)
Definition given_and {A} (x : option A) (bad : A -> bool) : bool :=
  match x with
  | Some a => bad a
  | None => false
  end.

Definition _validate_vehicle (vehicle : Vehicle) (index : Z) : list string :=
  let label := ("Vehicle " ++ str_int index ++ ": ")%string in
  check (is_empty (v_id vehicle)) (label ++ "ID is required") ++
  check (is_empty (v_name vehicle)) (label ++ "Name is required") ++
  check (is_empty (v_type vehicle)) (label ++ "Type is required") ++
  check (v_capacity vehicle <=? 0) (label ++ "Capacity must be positive") ++
  check (f_le (v_speed vehicle) (f_of_Z 0)) (label ++ "Speed must be positive") ++
  check (f_le (v_cost_per_km vehicle) (f_of_Z 0))
    (label ++ "Cost per km must be positive") ++
  check (given_and (v_max_distance vehicle) (fun d => d <=? 0))
    (label ++ "Max distance must be positive") ++
  check (given_and (v_fuel_consumption vehicle) (fun f => f_le f (f_of_Z 0)))
    (label ++ "Fuel consumption must be positive") ++
  check (given_and (v_driver_cost vehicle) (fun f => f_lt f (f_of_Z 0)))
    (label ++ "Driver cost cannot be negative") ++
  check (given_and (v_maintenance_cost vehicle) (fun f => f_lt f (f_of_Z 0)))
    (label ++ "Maintenance cost cannot be negative").

Definition valid_objectives : list string := ["distance"; "cost"; "time"; "balanced"].

Definition valid_algorithms : list string := ["nearest_neighbor"; "genetic"; "ortools"].

(** [x in xs] for strings *)
Definition py_in (x : string) (xs : list string) : bool := existsb (String.eqb x) xs.

(** [for i, c in enumerate(cs): errors.extend(validate(c, i + 1))], from
    index [i] on. *)
Fixpoint validate_each {A} (validate : A -> Z -> list string) (i : Z) (xs : list A)
  : list string :=
  match xs with
  | [] => []
  | x :: xs' => validate x (i + 1) ++ validate_each validate (i + 1) xs'
  end.

(** A [Coordinate] is an object, which is true; the branch of a missing
    depot or of missing coordinates is taken for [None] only. *)
Definition validate_vrp_request (request : VRPRequest) : list string :=
  check (negb (_is_valid_coordinate (depot request))) "Invalid depot coordinates" ++
  match customers request with
  | [] => ["At least one customer is required"%string]
  | cs => validate_each _validate_customer 0 cs
  end ++
  match vehicles request with
  | [] => ["At least one vehicle is required"%string]
  | vs => validate_each _validate_vehicle 0 vs
  end ++
  (if max_solving_time request <=? 0 then ["Max solving time must be positive"%string]
   else check (3600 <? max_solving_time request)
          "Max solving time cannot exceed 3600 seconds") ++
  check (negb (py_in (optimization_objective request) valid_objectives))
    "Invalid optimization objective. Must be one of: ['distance', 'cost', 'time', 'balanced']" ++
  check (negb (py_in (algorithm request) valid_algorithms))
    "Invalid algorithm. Must be one of: ['nearest_neighbor', 'genetic', 'ortools']".

End Validation.
End ValidationService.

(** The order of the integers with [inf] and [nan]. *)
Module GridFloatOrder.

Definition le (a b : GridFloat.t) : bool :=
  match a, b with
  | GridFloat.Fin x, GridFloat.Fin y => x <=? y
  | GridFloat.Fin _, GridFloat.Inf => true
  | GridFloat.Inf, GridFloat.Inf => true
  | _, _ => false
  end.

#[global] Instance order : @PyFloatLe GridFloat.ops := {| f_le := le |}.

End GridFloatOrder.

(** ** The dictionary of a solution ([controllers/vrp_controller.py]) *)

Module SolutionDict.
Section Conversion.
Context `{PyFloat}.

Definition stop_dict (stop : RouteStop) : pyval :=
  VDict [("type", VStr (s_type stop));
         ("id", VStr (s_id stop));
         ("name", VStr (s_name stop));
         ("coordinate", VDict [("lat", VFloat (lat (s_coordinate stop)));
                               ("lng", VFloat (lng (s_coordinate stop)))]);
         ("demand", VInt (s_demand stop));
         ("load", s_load stop);
         ("arrivalTime", VStr (s_arrival_time stop));
         ("departureTime", VStr (s_departure_time stop));
         ("serviceTime", VInt (s_service_time stop));
         ("waitTime", VInt (s_wait_time stop))].

Definition route_dict (route : Route) : pyval :=
  VDict [("vehicleId", r_vehicle_id route);
         ("vehicleName", r_vehicle_name route);
         ("vehicleType", VStr (r_vehicle_type route));
         ("capacity", VInt (r_capacity route));
         ("stops", VList (stop_dict <$> r_stops route));
         ("totalDistance", r_total_distance route);
         ("totalCost", r_total_cost route);
         ("totalLoad", r_total_load route);
         ("totalTime", r_total_time route);
         ("utilizationRate", r_utilization_rate route);
         ("efficiency", r_efficiency route)].

Definition _convert_solution_to_dict (solution : VRPSolution) : pyval :=
  VDict [("routes", VList (route_dict <$> routes solution));
         ("totalDistance", sol_total_distance solution);
         ("totalCost", sol_total_cost solution);
         ("totalTime", sol_total_time solution);
         ("vehiclesUsed", vehicles_used solution);
         ("customersServed", customers_served solution);
         ("averageUtilization", average_utilization solution);
         ("averageEfficiency", average_efficiency solution);
         ("solvingTime", solving_time solution);
         ("status", VStr (status solution));
         ("algorithm", VStr (sol_algorithm solution));
         ("timestamp", VStr (timestamp solution))].

End Conversion.
End SolutionDict.

(** ** More vocabulary *)

Section MoreVocabulary.
Context `{PyFloat} `{!PyFloatLe}.

(** What the validation asks of a customer. *)
Definition valid_customer (c : Customer) : Prop :=
  c_id c <> EmptyString /\ c_name c <> EmptyString /\
  ValidationService._is_valid_coordinate (c_coordinate c) = true /\
  0 < c_demand c /\ 0 <= c_service_time c /\ 1 <= c_priority c <= 10 /\
  forall w, c_time_window c = Some w ->
    ValidationService._is_valid_time (tw_start w) = true /\
    ValidationService._is_valid_time (tw_end w) = true /\
    ValidationService._time_to_seconds (tw_start w)
      < ValidationService._time_to_seconds (tw_end w).

(** What the validation asks of a vehicle. *)
Definition valid_vehicle (v : Vehicle) : Prop :=
  v_id v <> EmptyString /\ v_name v <> EmptyString /\ v_type v <> EmptyString /\
  0 < v_capacity v /\
  f_le (v_speed v) (f_of_Z 0) = false /\
  f_le (v_cost_per_km v) (f_of_Z 0) = false /\
  (forall d, v_max_distance v = Some d -> 0 < d) /\
  (forall f, v_fuel_consumption v = Some f -> f_le f (f_of_Z 0) = false) /\
  (forall f, v_driver_cost v = Some f -> f_lt f (f_of_Z 0) = false) /\
  (forall f, v_maintenance_cost v = Some f -> f_lt f (f_of_Z 0) = false).

Definition valid_request (request : VRPRequest) : Prop :=
  ValidationService._is_valid_coordinate (depot request) = true /\
  customers request <> [] /\ Forall valid_customer (customers request) /\
  vehicles request <> [] /\ Forall valid_vehicle (vehicles request) /\
  0 < max_solving_time request <= 3600 /\
  In (optimization_objective request) ValidationService.valid_objectives /\
  In (algorithm request) ValidationService.valid_algorithms.

(** The services as [VRPController.__init__] creates them, with the fuel of
    the greedy loop, the collaborator, the solver and the clock. *)
Definition controller_services (fuel : nat) (env : GeminiVRPService.Collaborator)
    (solver : VRPService.Solver) (clock : float) : VRPController.Services :=
  {| VRPController.simple_service := SimpleVRPService.solve_vrp fuel;
     VRPController.gemini_service := GeminiVRPService.solve_vrp env;
     VRPController.vrp_service := VRPService.solve_vrp solver;
     VRPController.validate_vrp_request := ValidationService.validate_vrp_request;
     VRPController.solving_clock := clock |}.

(** The distances from a location to the customers of a list, those that
    are computed. *)
Definition legs_from (current_location : Coordinate) (cs : list Customer) : list float :=
  omap (fun c => match _calculate_distance current_location (c_coordinate c) with
                 | Ok d => Some d
                 | _ => None
                 end) cs.

(** [<] ranks the floats of a list: it is transitive among them, and a
    float below another is below, or above, any third ([nan] is neither). *)
Definition ranked (ds : list float) : bool :=
  forallb (fun x =>
    forallb (fun y =>
      forallb (fun z =>
        implb (f_lt x y && f_lt y z) (f_lt x z)
        && implb (f_lt x z) (f_lt x y || f_lt y z)) ds) ds) ds.

(** Every stop has the load of the stops up to it, itself included, over
    the load [carried] before them. *)
Fixpoint running_load (carried : Z) (stops : list RouteStop) : Prop :=
  match stops with
  | [] => True
  | s :: rest =>
      s_load s = VInt (carried + s_demand s) /\ running_load (carried + s_demand s) rest
  end.

(** A stop as the adapter writes it: the depot stop, or the visit of a
    customer of the request. *)
Definition reconciled_stop (request : VRPRequest) (s : RouteStop) : Prop :=
  s = depot_stop (depot request) (VInt 0) "08:00" "08:00" \/
  exists c, c ∈ customers request /\ serves s c /\
            s_arrival_time s = "09:00"%string /\ s_departure_time s = "09:15"%string.

(** A route as the adapter writes it: reconciled stops, and the type and
    the capacity of a vehicle of the request. *)
Definition reconciled_route (request : VRPRequest) (r : Route) : Prop :=
  Forall (reconciled_stop request) (r_stops r) /\
  exists v, v ∈ vehicles request /\
            r_vehicle_type r = v_type v /\ r_capacity r = v_capacity v.

(** The stop of a node of the routing model: a depot stop at the depot of
    the request for node 0, the visit of customer [node - 1] otherwise. *)
Definition node_stop (request : VRPRequest) (node : Z) (s : RouteStop) : Prop :=
  if node =? 0
  then s_type s = "depot"%string /\ s_coordinate s = depot request /\ s_demand s = 0
  else exists c, py_index (customers request) (node - 1) = Ok c /\ serves s c.

(** The distances from the locations of a request to its customers, those
    that are computed. *)
Definition request_legs (request : VRPRequest) : list float :=
  flat_map (fun a => legs_from a (customers request)) (locations request).

(** [<] ranks the legs of the request and [float('inf')], and none of them
    is below itself. *)
Definition ranked_legs (request : VRPRequest) : bool :=
  let ds := f_inf :: request_legs request in
  ranked ds && forallb (fun d => negb (f_lt d d)) ds.

(** The order of the nearest neighbour: from [current], the first of the
    customers at the least distance, then the same from there over the
    others. *)
Inductive nearest_first : Coordinate -> list Customer -> list Customer -> Prop :=
| nearest_first_nil current : nearest_first current [] []
| nearest_first_cons current before c after d rest :
    _calculate_distance current (c_coordinate c) = Ok d ->
    Forall (fun c' => exists d', _calculate_distance current (c_coordinate c') = Ok d' /\
                                 f_lt d d' = true) before ->
    Forall (fun c' => exists d', _calculate_distance current (c_coordinate c') = Ok d' /\
                                 f_lt d' d = false) after ->
    nearest_first (c_coordinate c) (before ++ after) rest ->
    nearest_first current (before ++ c :: after) (c :: rest).

(** The legs the walk can meet are among the floats [ds]. *)
Definition legs_among (ds : list float) (from : list Coordinate) (cs : list Customer)
  : Prop :=
  forall a c d, a ∈ from -> c ∈ cs ->
    _calculate_distance a (c_coordinate c) = Ok d -> In d ds.

End MoreVocabulary.

(** ** Decimal numerals and clock times *)

(** The value of a decimal numeral read after the digits of [acc]. *)
Fixpoint uint_value (d : Decimal.uint) (acc : Z) : Z :=
  match d with
  | Decimal.Nil => acc
  | Decimal.D0 l => uint_value l (10 * acc + 0)
  | Decimal.D1 l => uint_value l (10 * acc + 1)
  | Decimal.D2 l => uint_value l (10 * acc + 2)
  | Decimal.D3 l => uint_value l (10 * acc + 3)
  | Decimal.D4 l => uint_value l (10 * acc + 4)
  | Decimal.D5 l => uint_value l (10 * acc + 5)
  | Decimal.D6 l => uint_value l (10 * acc + 6)
  | Decimal.D7 l => uint_value l (10 * acc + 7)
  | Decimal.D8 l => uint_value l (10 * acc + 8)
  | Decimal.D9 l => uint_value l (10 * acc + 9)
  end.

Fixpoint all_digits (s : string) : bool :=
  match s with
  | EmptyString => true
  | String c s' => is_digit c && all_digits s'
  end.

(** A text that is no wall-clock time, or that the validation accepts and
    both services read as seconds within the day. *)
Definition within_day (s : string) : bool :=
  implb (valid_HHMM s)
        (ValidationService._is_valid_time s
         && (VRPService._time_to_seconds s <=? 86340)).

(** ** More examples *)

Module MoreExamples.
Import GridFloat.

(** The services of the controller, with the collaborator and the solver
    of the examples. *)
Definition controller : VRPController.Services :=
  controller_services 4 Examples.collaborator Examples.solver (Fin 0).

(** The answer to [Examples.nowhere], and the statistics after it. *)
Definition rejected : VRPController.Response :=
  {| VRPController.success := false;
     VRPController.data := None;
     VRPController.error := Some (VRPController.Message "Input validation failed");
     VRPController.details := ["Customer 1: Invalid coordinates"%string] |}.

Definition one_request : VRPController.ControllerState :=
  {| VRPController.total_requests := 1;
     VRPController.successful_solves := 0;
     VRPController.failed_solves := 0;
     VRPController.average_solving_time := Fin 0;
     VRPController.total_solving_time := Fin 0;
     VRPController.invoked := [] |}.

(** Two customers, the second with the time window 09:00 to 17:30, one
    vehicle; time windows are enabled. *)
Definition timed : VRPRequest :=
  {| depot := Examples.origin;
     customers :=
       [customer "C1" "A" 2 0 10;
        {| c_id := "C2"; c_name := "B"; c_coordinate := coord 0 2; c_demand := 10;
           c_time_window := Some {| tw_start := "09:00"; tw_end := "17:30" |};
           c_service_time := 15; c_priority := 5; c_special_requirements := [] |}];
     vehicles := [vehicle "X1" "Van" 25];
     max_solving_time := 300; optimization_objective := "balanced";
     use_time_windows := true; use_capacity_constraints := true;
     use_distance_constraints := true; algorithm := "ortools" |}.

(** A customer and no vehicle. *)
Definition no_fleet : VRPRequest :=
  request Examples.origin [customer "C1" "A" 2 0 10] [].

(** A solution without routes. *)
Definition no_routes : VRPSolution :=
  {| routes := []; sol_total_distance := VInt 0; sol_total_cost := VInt 0;
     sol_total_time := VInt 0; vehicles_used := VInt 0; customers_served := VInt 0;
     average_utilization := VInt 0; average_efficiency := VInt 0;
     solving_time := VInt 0; status := "success"; sol_algorithm := "Gemini AI";
     timestamp := "2025-01-01T00:00:00" |}.

End MoreExamples.

(** * Properties *)

(** ** Outcomes *)

Lemma halts_Ok {A} (a : A) : halts (Ok a).
Proof. discriminate. Qed.

Lemma halts_Raise {A} (e : exn) : halts (@Raise A e).
Proof. discriminate. Qed.

Lemma halts_or_raise {A} e (o : option A) : halts (or_raise e o).
Proof. destruct o; discriminate. Qed.

Lemma halts_bind {A B} (m : outcome A) (k : A -> outcome B) :
  halts m -> (forall a, halts (k a)) -> halts (m ≫= k).
Proof.
  intros Hm Hk. destruct m; [apply Hk|discriminate|contradiction].
Qed.

Lemma halts_try {A} (body : outcome A) (handler : exn -> outcome A) :
  halts body -> (forall e, halts (handler e)) -> halts (try_except body handler).
Proof.
  intros Hb Hh. destruct body; [discriminate|apply Hh|contradiction].
Qed.

(** A [try] whose handler returns a value returns, once its body ends. *)
Lemma returns_try {A} (body : outcome A) (d : A) :
  halts body -> returns (try_except body (fun _ => Ok d)).
Proof.
  intros Hb. destruct body; [by eexists|by eexists|contradiction].
Qed.

Lemma never_raises_try {A} (body : outcome A) (d : A) :
  ~ raises (try_except body (fun _ => Ok d)).
Proof.
  intros [e He]. destruct body; discriminate.
Qed.

Lemma returns_halts {A} (m : outcome A) : returns m -> halts m.
Proof. intros [a ->]. discriminate. Qed.

Lemma halts_mapM {A B} (f : A -> outcome B) (l : list A) :
  (forall x, halts (f x)) -> halts (mapM f l).
Proof.
  intros Hf. induction l as [|x l IH]; [discriminate|].
  cbn [mapM]. apply halts_bind; [apply Hf|]. intros y.
  apply halts_bind; [exact IH|]. intros ys. discriminate.
Qed.

Create HintDb halts.
#[local] Hint Resolve halts_Ok halts_Raise halts_or_raise returns_halts : halts.

Ltac halts_step :=
  lazymatch goal with
  | |- halts (_ ≫= _) => apply halts_bind; [|intros]
  | |- halts (try_except _ _) => apply halts_try; [|intros]
  | |- halts (if ?b then _ else _) => destruct b
  | |- halts (match ?o with Some _ => _ | None => _ end) => destruct o
  | |- halts (match ?o with [] => _ | _ :: _ => _ end) => destruct o
  | |- halts (let '(_, _) := ?p in _) => destruct p
  | |- halts (Ok _) => apply halts_Ok
  | |- halts (Raise _) => apply halts_Raise
  | |- halts (or_raise _ _) => apply halts_or_raise
  end.

Ltac halts_auto := repeat halts_step; eauto with halts.

(** [H : (x ← m; k) = Ok r]: every computation bound in [H] returned. *)
Ltac bind_inv H :=
  repeat (cbv beta iota zeta delta [mbind outcome_bind obind] in H;
          match type of H with
          | match ?m with Ok _ => _ | Raise _ => _ | OutOfFuel => _ end = Ok _ =>
              let E := fresh "E" in
              destruct m eqn:E; [|discriminate H|discriminate H]
          end).

(** ** Clock times *)

Lemma is_digit_chars c : is_digit c = true -> In c digit_chars.
Proof.
  destruct c as [[] [] [] [] [] [] [] []]; intros Hd;
    try discriminate Hd; simpl; tauto.
Qed.

(** Every string of two digits, a colon and two digits passes
    [round_trip_ok]: it is not a time, or the round trip gives it back. *)
Lemma round_trip_table :
  forallb (fun h1 => forallb (fun h2 => forallb (fun m1 => forallb (fun m2 =>
    round_trip_ok (hhmm h1 h2 m1 m2)) digit_chars) digit_chars) digit_chars) digit_chars
  = true.
Proof. vm_compute. reflexivity. Qed.

(** C9. For every valid wall-clock time string HH:MM (hours 00 to 23,
    minutes 00 to 59), converting it to seconds with [_time_to_seconds] and
    back with [_seconds_to_time] gives the string again. *)
Theorem time_round_trip (s : string) :
  valid_HHMM s = true ->
  VRPService._seconds_to_time (VRPService._time_to_seconds s) = s.
Proof.
  intros Hv.
  destruct s as [|h1 [|h2 [|c [|m1 [|m2 [|? ?]]]]]]; try discriminate Hv.
  pose proof Hv as Hd. unfold valid_HHMM in Hd.
  apply andb_prop in Hd as [Hd _]. apply andb_prop in Hd as [Hd _].
  apply andb_prop in Hd as [Hd Dm2]. apply andb_prop in Hd as [Hd Dm1].
  apply andb_prop in Hd as [Hd Dh2]. apply andb_prop in Hd as [Hc Dh1].
  apply Ascii.eqb_eq in Hc. subst c.
  pose proof round_trip_table as T.
  rewrite forallb_forall in T. specialize (T h1 (is_digit_chars _ Dh1)).
  rewrite forallb_forall in T. specialize (T h2 (is_digit_chars _ Dh2)).
  rewrite forallb_forall in T. specialize (T m1 (is_digit_chars _ Dm1)).
  rewrite forallb_forall in T. specialize (T m2 (is_digit_chars _ Dm2)).
  unfold round_trip_ok, hhmm in T. rewrite Hv in T. simpl in T.
  apply String.eqb_eq in T. exact T.
Qed.

Lemma time_round_trip_witness :
  VRPService._time_to_seconds "08:30" = 30600 /\
  VRPService._seconds_to_time (VRPService._time_to_seconds "08:30") = "08:30"%string.
Proof.
  split; [reflexivity|]. apply (time_round_trip "08:30"). reflexivity.
Defined.

(** ** The greedy strategy: what it returns *)

Section GreedyReturns.
Context `{PyFloat}.
Import SimpleVRPService.

Lemma py_remove_perm {A} `{EqDecision A} (x : A) (l l' : list A) :
  py_remove x l = Some l' -> l ≡ₚ x :: l'.
Proof.
  revert l'. induction l as [|y l IH]; intros l' Hr; [discriminate|].
  simpl in Hr. destruct (decide (y = x)) as [->|Hne].
  - injection Hr as <-. reflexivity.
  - destruct (py_remove x l) as [r|] eqn:E; [|discriminate].
    injection Hr as <-. rewrite (IH r eq_refl). apply perm_swap.
Qed.

Lemma py_remove_elem {A} `{EqDecision A} (x : A) (l : list A) :
  x ∈ l -> is_Some (py_remove x l).
Proof.
  induction l as [|y l IH]; intros Hin; [by apply elem_of_nil in Hin|].
  simpl. destruct (decide (y = x)) as [->|Hne]; [eauto|].
  apply elem_of_cons in Hin as [->|Hin]; [congruence|].
  destruct (IH Hin) as [r ->]. simpl. eauto.
Qed.

Lemma finite_leg_inv a b :
  finite_leg a b = true ->
  exists d minutes, _calculate_distance a b = Ok d /\ f_lt d f_inf = true /\
                    leg_minutes d = Ok minutes.
Proof.
  unfold finite_leg, leg_minutes. intros Hf.
  destruct (_calculate_distance a b) as [d| |]; try discriminate Hf.
  apply andb_prop in Hf as [Hlt Hint].
  destruct (f_int (f_div (f_mul d (f_of_Z 60)) (f_of_Z 50))) as [z|] eqn:Ez;
    [|discriminate Hint].
  exists d, z. split_and!; [reflexivity|exact Hlt|by rewrite Ez].
Qed.

Lemma finite_distances_among request :
  finite_distances request = true -> finite_among (locations request).
Proof.
  unfold finite_distances. intros Hf a b Ha Hb.
  rewrite forallb_forall in Hf. specialize (Hf a (proj1 (list_elem_of_In _ _) Ha)).
  rewrite forallb_forall in Hf. exact (Hf b (proj1 (list_elem_of_In _ _) Hb)).
Qed.

Lemma finite_among_sub (big small : list Coordinate) :
  (forall x, x ∈ small -> x ∈ big) -> finite_among big -> finite_among small.
Proof. intros Hsub Hfin a b Ha Hb. apply Hfin; by apply Hsub. Qed.

Lemma locations_sub (depot : Coordinate) (big small : list Customer) :
  (forall c, c ∈ small -> c ∈ big) ->
  forall x, x ∈ depot :: (c_coordinate <$> small) -> x ∈ depot :: (c_coordinate <$> big).
Proof.
  intros Hsub x Hx. apply elem_of_cons in Hx as [->|Hx]; [by left|]. right.
  apply list_elem_of_fmap in Hx as (c & -> & Hc).
  apply list_elem_of_fmap_2. by apply Hsub.
Qed.

(** The scan keeps what it has or takes a customer of the list, with the
    distance to it. *)
Lemma nearest_scan_keeps current cs : forall nearest m,
  (forall c, c ∈ cs -> finite_leg current (c_coordinate c) = true) ->
  exists nearest' m', nearest_scan current cs nearest m = Ok (nearest', m') /\
    ((nearest' = nearest /\ m' = m) \/
     exists c, nearest' = Some c /\ c ∈ cs /\
               _calculate_distance current (c_coordinate c) = Ok m').
Proof.
  induction cs as [|c cs IH]; intros nearest m Hfin.
  - exists nearest, m. split; [reflexivity|by left].
  - destruct (finite_leg_inv _ _ (Hfin c ltac:(left))) as (d & _ & Hd & _ & _).
    assert (Hrest : forall c', c' ∈ cs -> finite_leg current (c_coordinate c') = true)
      by (intros; apply Hfin; by right).
    cbn [nearest_scan]. rewrite Hd. cbv beta iota delta [mbind outcome_bind obind].
    destruct (f_lt d m).
    + destruct (IH (Some c) d Hrest) as (n' & m' & -> & [[-> ->]|(c' & -> & Hin & Hc')]).
      * eexists _, _. split; [reflexivity|]. right. exists c. repeat split; [by left|done].
      * eexists _, _. split; [reflexivity|]. right. exists c'. repeat split; [by right|done].
    + destruct (IH nearest m Hrest) as (n' & m' & -> & [[-> ->]|(c' & -> & Hin & Hc')]).
      * eexists _, _. split; [reflexivity|]. by left.
      * eexists _, _. split; [reflexivity|]. right. exists c'. repeat split; [by right|done].
Qed.

(** From [None] and [float('inf')] the scan of a list that is not empty
    finds a customer. *)
Lemma nearest_scan_finds current c0 cs :
  (forall c, c ∈ c0 :: cs -> finite_leg current (c_coordinate c) = true) ->
  exists c d, nearest_scan current (c0 :: cs) None f_inf = Ok (Some c, d) /\
    c ∈ c0 :: cs /\ _calculate_distance current (c_coordinate c) = Ok d.
Proof.
  intros Hfin.
  destruct (finite_leg_inv _ _ (Hfin c0 ltac:(left))) as (d & _ & Hd & Hlt & _).
  assert (Hrest : forall c', c' ∈ cs -> finite_leg current (c_coordinate c') = true)
    by (intros; apply Hfin; by right).
  cbn [nearest_scan]. rewrite Hd. cbv beta iota delta [mbind outcome_bind obind].
  rewrite Hlt.
  destruct (nearest_scan_keeps current cs (Some c0) d Hrest)
    as (n' & m' & -> & [[-> ->]|(c' & -> & Hin & Hc')]).
  - exists c0, d. repeat split; [by left|done].
  - exists c', m'. repeat split; [by right|done].
Qed.

Lemma float_overflow_pos : 0 < float_overflow.
Proof. reflexivity. Qed.

Lemma float_of_int_in_range (z : Z) :
  Z.abs z < float_overflow -> float_of_int z = Ok (f_of_Z z).
Proof.
  intros Hz. unfold float_of_int.
  by replace (Z.abs z <? float_overflow) with true by (symmetry; by apply Z.ltb_lt).
Qed.

Lemma int_truediv_in_range (a b : Z) :
  0 < b -> Z.abs a < float_overflow -> int_truediv a b = Ok (f_quot a b).
Proof.
  intros Hb Ha. unfold int_truediv.
  replace (b =? 0) with false by (symmetry; apply Z.eqb_neq; lia).
  replace (Z.abs a <? float_overflow * Z.abs b) with true; [reflexivity|].
  symmetry. apply Z.ltb_lt. pose proof float_overflow_pos. nia.
Qed.

Lemma abs_demand_nonneg (cs : list Customer) : 0 <= abs_demand cs.
Proof. unfold abs_demand. induction cs as [|c cs IH]; csimpl; lia. Qed.

Lemma abs_demand_app (l1 l2 : list Customer) :
  abs_demand (l1 ++ l2) = abs_demand l1 + abs_demand l2.
Proof. unfold abs_demand. induction l1 as [|c l1 IH]; csimpl; lia. Qed.

Lemma abs_demand_take (k : nat) (cs : list Customer) :
  abs_demand (take k cs) <= abs_demand cs.
Proof.
  rewrite <- (take_drop k cs) at 2. rewrite abs_demand_app.
  pose proof (abs_demand_nonneg (drop k cs)). lia.
Qed.

Lemma abs_demand_drop (k : nat) (cs : list Customer) :
  abs_demand (drop k cs) <= abs_demand cs.
Proof.
  rewrite <- (take_drop k cs) at 2. rewrite abs_demand_app.
  pose proof (abs_demand_nonneg (take k cs)). lia.
Qed.

Lemma total_demand_abs (cs : list Customer) : Z.abs (total_demand cs) <= abs_demand cs.
Proof. unfold total_demand, abs_demand. induction cs as [|c cs IH]; csimpl; lia. Qed.

Lemma total_demand_perm (l1 l2 : list Customer) :
  l1 ≡ₚ l2 -> total_demand l1 = total_demand l2.
Proof. unfold total_demand. induction 1; csimpl; lia. Qed.

Lemma serves_customer_stop w c : serves (customer_stop w c) c.
Proof. by repeat split. Qed.

Lemma visit_nil fuel w :
  exists (w' : walk) (order : list Customer) (new : list RouteStop),
    visit fuel w [] = Ok w' /\ Permutation order [] /\
    w_stops w' = (w_stops w ++ new)%list /\ Forall2 serves new order /\
    w_total_load w' = w_total_load w + total_demand [] /\
    w_current_location w' ∈ w_current_location w :: (c_coordinate <$> []).
Proof.
  exists w, [], []. split_and!.
  - by destruct fuel.
  - constructor.
  - by rewrite app_nil_r.
  - constructor.
  - unfold total_demand. simpl. lia.
  - by left.
Qed.

(** With a unit of fuel for each customer, the walk visits each of them
    once, in some order. *)
Lemma visit_spec fuel : forall w cs,
  (length cs <= fuel)%nat ->
  finite_among (w_current_location w :: (c_coordinate <$> cs)) ->
  exists (w' : walk) (order : list Customer) (new : list RouteStop),
    visit fuel w cs = Ok w' /\ Permutation order cs /\
    w_stops w' = (w_stops w ++ new)%list /\ Forall2 serves new order /\
    w_total_load w' = w_total_load w + total_demand cs /\
    w_current_location w' ∈ w_current_location w :: (c_coordinate <$> cs).
Proof.
  induction fuel as [|fuel IH]; intros w cs Hlen Hfin.
  - destruct cs; [|simpl in Hlen; lia]. apply visit_nil.
  - destruct cs as [|c0 cs]; [apply visit_nil|].
    destruct (nearest_scan_finds (w_current_location w) c0 cs) as (c & d & Hscan & Hin & Hd).
    { intros c' Hc'. apply Hfin; [by left|]. right. by apply list_elem_of_fmap_2. }
    destruct (finite_leg_inv _ _ (Hfin (w_current_location w) (c_coordinate c)
                ltac:(left) ltac:(right; by apply list_elem_of_fmap_2)))
      as (d' & minutes & Hd' & _ & Hmin).
    rewrite Hd in Hd'. injection Hd' as <-.
    destruct (py_remove_elem c (c0 :: cs) Hin) as [rest Hrest].
    pose proof (py_remove_perm _ _ _ Hrest) as Hperm.
    set (w1 := {| w_stops := w_stops w ++ [customer_stop w c];
                  w_total_distance := f_add (w_total_distance w) d;
                  w_total_load := w_total_load w + c_demand c;
                  w_current_time := w_current_time w + c_service_time c + minutes;
                  w_current_location := c_coordinate c |}).
    assert (Hsub : forall x, x ∈ c_coordinate <$> (c :: rest) ->
                             x ∈ c_coordinate <$> (c0 :: cs)).
    { intros x Hx. by rewrite Hperm. }
    destruct (IH w1 rest) as (w' & order & new & Hv & Hord & Hst & Hserve & Hload & Hloc).
    { apply Permutation_length in Hperm. simpl in Hperm, Hlen. lia. }
    { eapply finite_among_sub; [|exact Hfin]. intros x Hx. right. by apply Hsub. }
    exists w', (c :: order), (customer_stop w c :: new).
    split.
    { cbn [visit]. rewrite Hscan. cbv beta iota delta [mbind outcome_bind obind].
      rewrite Hmin, Hrest. exact Hv. }
    split; [rewrite Hperm; by constructor|].
    split; [rewrite Hst; simpl; by rewrite <- app_assoc|].
    split; [constructor; [apply serves_customer_stop|exact Hserve]|].
    split.
    { rewrite Hload. simpl. rewrite (total_demand_perm _ _ Hperm).
      unfold total_demand. csimpl. lia. }
    { right. by apply Hsub. }
Qed.

Lemma create_simple_route_spec fuel i v cs depot :
  (length cs <= fuel)%nat ->
  finite_among (depot :: (c_coordinate <$> cs)) ->
  abs_demand cs < float_overflow ->
  exists r, _create_simple_route fuel i v cs depot = Ok r /\
            built_route depot (i, v, cs) r.
Proof.
  intros Hlen Hfin Hrange.
  set (start := {| w_stops := [depot_stop depot (VInt 0) "08:00" "08:00"];
                   w_total_distance := f_of_Z 0; w_total_load := 0;
                   w_current_time := 8 * 60; w_current_location := depot |}).
  destruct (visit_spec fuel start cs Hlen Hfin)
    as (w & order & new & Hv & Hord & Hst & Hserve & Hload & Hloc).
  destruct (finite_leg_inv _ _ (Hfin (w_current_location w) depot Hloc ltac:(left)))
    as (d & minutes & Hd & _ & Hmin).
  assert (Hw : Z.abs (w_total_load w) < float_overflow).
  { rewrite Hload. cbn [w_total_load start]. pose proof (total_demand_abs cs).
    rewrite Z.add_0_l. lia. }
  unfold _create_simple_route. fold start. rewrite Hv.
  cbv beta iota zeta delta [mbind outcome_bind obind]. rewrite Hd, Hmin.
  assert (Hu : exists u,
             (if 0 <? v_capacity v
              then match int_truediv (w_total_load w) (v_capacity v) with
                   | Ok q => Ok (VFloat q)
                   | Raise e => Raise e
                   | OutOfFuel => OutOfFuel
                   end
              else Ok (VInt 0)) = Ok u /\ is_measure u).
  { destruct (0 <? v_capacity v) eqn:Ecap.
    - apply Z.ltb_lt in Ecap. rewrite int_truediv_in_range by assumption.
      eexists. split; [reflexivity|right; by eexists].
    - eexists. split; [reflexivity|by left]. }
  destruct Hu as (u & -> & Hu).
  rewrite float_of_int_in_range by exact Hw.
  assert (He : exists e,
             (if f_lt (f_of_Z 0) (f_add (w_total_distance w) d)
              then Ok (VFloat (f_div (f_of_Z (w_total_load w))
                                 (f_add (w_total_distance w) d)))
              else Ok (VInt 0)) = Ok e /\ is_measure e).
  { destruct (f_lt _ _); eexists; (split; [reflexivity|]);
      [right; by eexists|by left]. }
  destruct He as (e & -> & He).
  eexists. split; [reflexivity|].
  unfold built_route, route_vehicle. cbn [fst snd r_vehicle_id r_vehicle_name
    r_vehicle_type r_capacity r_stops r_total_load r_total_distance r_total_cost
    r_total_time r_utilization_rate r_efficiency].
  split_and!; try reflexivity; try (by eexists).
  - exists order, new,
      (depot_stop depot (VInt (w_total_load w))
         (_minutes_to_time (w_current_time w + minutes))
         (_minutes_to_time (w_current_time w + minutes))).
    split; [exact Hord|]. split; [exact Hserve|].
    split; [|reflexivity]. rewrite Hst. reflexivity.
  - rewrite Hload. reflexivity.
  - right. by eexists.
  - right. by eexists.
  - right. by eexists.
  - exact Hu.
  - exact He.
Qed.

(** The loop over the vehicles builds the routes of the shares. *)
Lemma assign_spec fuel depot nv k : forall vs i rem routes,
  (length rem <= fuel)%nat ->
  finite_among (depot :: (c_coordinate <$> rem)) ->
  abs_demand rem < float_overflow ->
  exists rs, assign fuel depot nv k i vs rem routes = Ok (routes ++ rs) /\
             Forall2 (fun r share => built_route depot share r) rs (shares nv k i vs rem).
Proof.
  induction vs as [|v vs IH]; intros i rem routes Hlen Hfin Hrange.
  - exists []. split; [simpl; by rewrite app_nil_r|constructor].
  - cbn [assign shares].
    set (mine := fst (if i =? nv - 1 then (take k rem ++ drop k rem, [])
                      else (take k rem, drop k rem))).
    set (rest := snd (if i =? nv - 1 then (take k rem ++ drop k rem, [])
                      else (take k rem, drop k rem))).
    assert (Hmine : forall c, c ∈ mine -> c ∈ rem).
    { subst mine. destruct (i =? nv - 1); simpl; intros c Hc.
      - by rewrite take_drop in Hc.
      - eapply elem_of_sublist; [exact Hc|apply sublist_take]. }
    assert (Hmine_len : (length mine <= length rem)%nat).
    { subst mine. destruct (i =? nv - 1); simpl.
      - by rewrite take_drop.
      - rewrite length_take. lia. }
    assert (Hrest : forall c, c ∈ rest -> c ∈ rem).
    { subst rest. destruct (i =? nv - 1); simpl; intros c Hc.
      - by apply elem_of_nil in Hc.
      - eapply elem_of_sublist; [exact Hc|apply sublist_drop]. }
    assert (Hrest_len : (length rest <= length rem)%nat).
    { subst rest. destruct (i =? nv - 1); simpl; [lia|].
      rewrite length_drop. lia. }
    assert (Hmine_range : abs_demand mine < float_overflow).
    { subst mine. destruct (i =? nv - 1); simpl.
      - by rewrite take_drop.
      - pose proof (abs_demand_take k rem). lia. }
    assert (Hrest_range : abs_demand rest < float_overflow).
    { subst rest. destruct (i =? nv - 1); simpl.
      - exact float_overflow_pos.
      - pose proof (abs_demand_drop k rem). lia. }
    replace (if i =? nv - 1 then (take k rem ++ drop k rem, [])
             else (take k rem, drop k rem)) with (mine, rest)
      by (subst mine rest; by destruct (i =? nv - 1)).
    cbv beta iota.
    destruct mine as [|c0 mine'] eqn:Emine.
    + apply IH; [lia| |exact Hrest_range]. eapply finite_among_sub; [|exact Hfin].
      by apply locations_sub.
    + destruct (create_simple_route_spec fuel i v (c0 :: mine') depot) as (r & Hr & Hb).
      { lia. }
      { eapply finite_among_sub; [|exact Hfin]. by apply locations_sub. }
      { exact Hmine_range. }
      rewrite Hr. cbv beta iota delta [mbind outcome_bind obind].
      destruct (IH (i + 1) rest (routes ++ [r])) as (rs & Hrs & Hall).
      { lia. }
      { eapply finite_among_sub; [|exact Hfin]. by apply locations_sub. }
      { exact Hrest_range. }
      exists (r :: rs). split.
      * rewrite Hrs. by rewrite <- app_assoc.
      * constructor; assumption.
Qed.

End GreedyReturns.

(** ** Numbers in the fields of a solution *)

Section Numbers.
Context `{PyFloat}.

Lemma is_measure_zero : is_measure (VInt 0).
Proof. by left. Qed.

Lemma is_measure_float f : is_measure (VFloat f).
Proof. right. by eexists. Qed.

Lemma py_add_measure a b :
  is_measure a -> is_measure b -> exists v, py_add a b = Ok v /\ is_measure v.
Proof.
  intros [->|[x ->]] [->|[y ->]]; eexists; (split; [reflexivity|]);
    first [apply is_measure_zero|apply is_measure_float].
Qed.

Lemma py_mul_percent a :
  is_measure a -> exists v, py_mul a (VInt 100) = Ok v /\ is_measure v.
Proof.
  intros [->|[x ->]]; eexists; (split; [reflexivity|]);
    first [apply is_measure_zero|apply is_measure_float].
Qed.

Lemma py_truediv_len_measure a n :
  is_measure a -> (0 < n)%nat ->
  exists v, py_truediv_len a n = Ok v /\ is_measure v.
Proof.
  intros [->|[x ->]] Hn; unfold py_truediv_len; cbn [as_number].
  - rewrite int_truediv_in_range by (first [lia|exact float_overflow_pos]).
    eexists. split; [reflexivity|apply is_measure_float].
  - eexists. split; [reflexivity|apply is_measure_float].
Qed.

Lemma py_round_measure a n :
  is_measure a -> exists v, py_round a n = Ok v /\ is_measure v.
Proof.
  intros [->|[x ->]]; eexists; (split; [reflexivity|]);
    first [apply is_measure_zero|apply is_measure_float].
Qed.

Lemma py_sum_from_measures xs : forall acc,
  is_measure acc -> Forall is_measure xs ->
  exists v, py_sum_from acc xs = Ok v /\ is_measure v.
Proof.
  induction xs as [|x xs IH]; intros acc Hacc Hxs.
  - exists acc. by split.
  - inversion Hxs as [|? ? Hx Hxs']; subst.
    destruct (py_add_measure acc x Hacc Hx) as (v & Hv & Hn).
    cbn [py_sum_from]. rewrite Hv. cbv beta iota delta [mbind outcome_bind obind].
    by apply IH.
Qed.

Lemma py_sum_measures xs :
  Forall is_measure xs -> exists v, py_sum xs = Ok v /\ is_measure v.
Proof. apply py_sum_from_measures, is_measure_zero. Qed.

Lemma average_measure (f : Route -> pyval) routes :
  Forall (fun r => is_measure (f r)) routes ->
  exists v, SimpleVRPService.average f routes = Ok v /\ is_measure v.
Proof.
  intros Hall. destruct routes as [|r routes].
  - eexists. split; [reflexivity|apply is_measure_zero].
  - unfold SimpleVRPService.average.
    destruct (py_sum_measures (f <$> r :: routes)) as (v & Hv & Hn).
    { by apply Forall_fmap. }
    rewrite Hv. cbv beta iota delta [mbind outcome_bind obind].
    apply py_truediv_len_measure; [exact Hn|cbn [length]; lia].
Qed.

End Numbers.

(** ** The greedy strategy: vehicles and customers *)

Section GreedyShares.
Context `{PyFloat}.
Import SimpleVRPService.

Lemma built_routes_numbers depot rs sh (f : Route -> pyval) :
  Forall2 (fun r share => built_route depot share r) rs sh ->
  (forall r share, built_route depot share r -> is_measure (f r)) ->
  Forall (fun r => is_measure (f r)) rs.
Proof.
  intros Hall Hf. induction Hall; constructor; eauto.
Qed.

(** The greedy strategy returns a solution whenever the fleet is not empty
    and the legs between the locations of the request are finite; its
    routes are the routes of the shares. *)
Lemma solve_vrp_returns fuel request :
  vehicles request <> [] ->
  (length (customers request) <= fuel)%nat ->
  finite_distances request = true ->
  demands_in_range request = true ->
  exists sol,
    solve_vrp fuel request = Ok (Some sol) /\
    Forall2 (fun r share => built_route (depot request) share r) (routes sol)
      (shares (Z.of_nat (length (vehicles request)))
         (Z.to_nat (Z.max 1 (Z.of_nat (length (customers request))
                             / Z.of_nat (length (vehicles request)))))
         0 (vehicles request) (customers request)) /\
    vehicles_used sol = VInt (Z.of_nat (length (routes sol))) /\
    customers_served sol = VInt (count_customer_stops (routes sol)).
Proof.
  intros Hveh Hlen Hfin Hrange. apply finite_distances_among in Hfin.
  apply Z.ltb_lt in Hrange.
  unfold solve_vrp, solve_body.
  destruct (Z.of_nat (length (vehicles request)) =? 0) eqn:Enz.
  { apply Z.eqb_eq in Enz. destruct (vehicles request); [congruence|simpl in Enz; lia]. }
  cbv beta iota delta [mbind outcome_bind obind].
  destruct (assign_spec fuel (depot request) (Z.of_nat (length (vehicles request)))
              (Z.to_nat (Z.max 1 (Z.of_nat (length (customers request))
                                  / Z.of_nat (length (vehicles request)))))
              (vehicles request) 0 (customers request) [] Hlen Hfin Hrange)
    as (rs & Hrs & Hall).
  rewrite Hrs. cbn [app].
  assert (Hnum : forall f : Route -> pyval,
             (forall r share, built_route (depot request) share r -> is_measure (f r)) ->
             Forall (fun r => is_measure (f r)) rs).
  { intros f Hf. eapply built_routes_numbers; eauto. }
  destruct (py_sum_measures (r_total_distance <$> rs)) as (td & -> & Ntd).
  { apply Forall_fmap, Hnum. intros r sh Hb. apply Hb. }
  destruct (py_sum_measures (r_total_cost <$> rs)) as (tc & -> & Ntc).
  { apply Forall_fmap, Hnum. intros r sh Hb. apply Hb. }
  destruct (py_sum_measures (r_total_time <$> rs)) as (tt & -> & Ntt).
  { apply Forall_fmap, Hnum. intros r sh Hb. apply Hb. }
  destruct (average_measure r_utilization_rate rs) as (au & -> & Nau).
  { apply Hnum. intros r sh Hb. apply Hb. }
  destruct (average_measure r_efficiency rs) as (ae & -> & Nae).
  { apply Hnum. intros r sh Hb. apply Hb. }
  destruct (py_round_measure td 2 Ntd) as (td' & -> & _).
  destruct (py_round_measure tc 2 Ntc) as (tc' & -> & _).
  destruct (py_round_measure tt 2 Ntt) as (tt' & -> & _).
  destruct (py_mul_percent au Nau) as (pc & -> & Npc).
  destruct (py_round_measure pc 1 Npc) as (au' & -> & _).
  destruct (py_round_measure ae 2 Nae) as (ae' & -> & _).
  eexists. split; [reflexivity|]. cbn [routes vehicles_used customers_served].
  split; [exact Hall|]. split; reflexivity.
Qed.

Lemma numbered_length i vs : length (numbered i vs) = length vs.
Proof. revert i. induction vs; intros; simpl; auto. Qed.

(** Enough customers: every vehicle has a share, and the shares are the
    customers, in their order. *)
Lemma shares_all nv k : forall vs i rem,
  i + Z.of_nat (length vs) = nv -> vs <> [] ->
  (1 <= k)%nat -> (k * length vs <= length rem)%nat ->
  fst <$> shares nv k i vs rem = numbered i vs /\
  concat (snd <$> shares nv k i vs rem) = rem.
Proof.
  induction vs as [|v vs IH]; intros i rem Hnv Hne Hk Hlen; [congruence|].
  cbn [shares numbered]. destruct vs as [|v' vs].
  - replace (i =? nv - 1) with true by (simpl in Hnv; symmetry; apply Z.eqb_eq; lia).
    rewrite take_drop. destruct rem as [|c rem]; [simpl in Hlen; lia|].
    simpl. by rewrite app_nil_r.
  - replace (i =? nv - 1) with false
      by (cbn [length] in Hnv; symmetry; apply Z.eqb_neq; lia).
    cbn [length] in Hlen.
    destruct (take k rem) as [|c mine] eqn:Etake.
    { apply (f_equal length) in Etake. rewrite length_take in Etake.
      simpl in Etake. nia. }
    destruct (IH (i + 1) (drop k rem)) as [Hfst Hcat].
    { cbn [length] in *. lia. }
    { congruence. }
    { exact Hk. }
    { rewrite length_drop. cbn [length]. nia. }
    rewrite !fmap_cons. cbn [fst snd concat]. rewrite Hfst, Hcat.
    split; [reflexivity|]. rewrite <- Etake. apply take_drop.
Qed.

Lemma shares_nil nv k : forall vs i, shares nv k i vs [] = [].
Proof.
  induction vs as [|v vs IH]; intros i; [reflexivity|].
  cbn [shares]. rewrite take_nil, drop_nil.
  destruct (i =? nv - 1); simpl; apply IH.
Qed.

(** Fewer customers than vehicles: the first vehicles have one customer
    each, the others none. *)
Lemma shares_few nv : forall vs i rem,
  i + Z.of_nat (length vs) = nv -> (length rem < length vs)%nat ->
  shares nv 1 i vs rem = zip_with (fun iv c => (iv, [c])) (numbered i vs) rem.
Proof.
  induction vs as [|v vs IH]; intros i rem Hnv Hlen; [simpl in Hlen; lia|].
  destruct rem as [|c rem].
  - rewrite shares_nil. reflexivity.
  - cbn [shares numbered zip_with take drop].
    replace (i =? nv - 1) with false
      by (cbn [length] in *; symmetry; apply Z.eqb_neq; lia).
    cbv beta iota. f_equal.
    apply IH; cbn [length] in *; lia.
Qed.

Lemma share_size (n m : nat) :
  (1 <= m <= n)%nat ->
  let k := Z.to_nat (Z.max 1 (Z.of_nat n / Z.of_nat m)) in
  (1 <= k)%nat /\ (k * m <= n)%nat.
Proof.
  intros Hnm k.
  assert (Hq : 1 <= Z.of_nat n / Z.of_nat m).
  { apply Z.div_le_lower_bound; lia. }
  assert (Hmul : Z.of_nat m * (Z.of_nat n / Z.of_nat m) <= Z.of_nat n).
  { apply Z.mul_div_le. lia. }
  subst k. rewrite Z.max_r by lia. split; [lia|]. nia.
Qed.

Lemma share_size_few (n m : nat) :
  (n < m)%nat -> Z.to_nat (Z.max 1 (Z.of_nat n / Z.of_nat m)) = 1%nat.
Proof.
  intros Hnm. rewrite Z.div_small by lia. reflexivity.
Qed.

Lemma customer_stops_all (l : list RouteStop) :
  Forall (fun s => s_type s = "customer"%string) l -> customer_stops l = l.
Proof.
  unfold customer_stops. induction 1 as [|s l Hs _ IH]; [reflexivity|].
  rewrite filter_cons_True by exact Hs. by rewrite IH.
Qed.

Lemma customer_stops_shape depot visits final :
  Forall (fun s => s_type s = "customer"%string) visits -> is_depot final ->
  customer_stops (depot_stop depot (VInt 0) "08:00" "08:00" :: visits ++ [final]) = visits.
Proof.
  intros Hty Hfin. unfold customer_stops.
  rewrite filter_cons_False by (simpl; discriminate).
  rewrite filter_app, filter_cons_False, filter_nil, app_nil_r
    by (rewrite Hfin; discriminate).
  by apply customer_stops_all.
Qed.

Lemma serves_customers visits order :
  Forall2 serves visits order -> Forall (fun s => s_type s = "customer"%string) visits.
Proof. induction 1 as [|s c ? ? Hs]; constructor; [apply Hs|assumption]. Qed.

Lemma built_route_customer_stops depot share r :
  built_route depot share r ->
  exists order, Permutation order (snd share) /\
                Forall2 serves (customer_stops (r_stops r)) order.
Proof.
  intros (_ & (order & visits & final & Hord & Hs & Hst & Hf) & _).
  exists order. split; [exact Hord|].
  rewrite Hst, (customer_stops_shape _ _ _ (serves_customers _ _ Hs) Hf). exact Hs.
Qed.

Lemma built_routes_customers depot rs sh :
  Forall2 (fun r share => built_route depot share r) rs sh ->
  exists order, Permutation order (concat (snd <$> sh)) /\
    Forall2 serves (concat ((fun r => customer_stops (r_stops r)) <$> rs)) order.
Proof.
  induction 1 as [|r share rs sh Hb _ (order & Hord & Hs)].
  - exists []. split; constructor.
  - destruct (built_route_customer_stops _ _ _ Hb) as (o1 & Ho1 & Hs1).
    exists (o1 ++ order). rewrite !fmap_cons. cbn [concat]. split.
    + by apply Permutation_app.
    + by apply Forall2_app.
Qed.

Lemma built_routes_vehicles depot rs sh :
  Forall2 (fun r share => built_route depot share r) rs sh ->
  Forall2 route_vehicle rs (fst <$> sh).
Proof.
  induction 1 as [|r share rs sh Hb _ IH]; [constructor|].
  rewrite fmap_cons. constructor; [apply Hb|exact IH].
Qed.

Lemma built_route_single depot iv c r :
  built_route depot (iv, [c]) r ->
  exists s, customer_stops (r_stops r) = [s] /\ serves s c.
Proof.
  intros Hb. destruct (built_route_customer_stops _ _ _ Hb) as (order & Hord & Hs).
  cbn [snd] in Hord. apply Permutation_singleton_r in Hord. subst order.
  inversion Hs as [|s c' l l' Hsc Hnil Heq]; subst.
  inversion Hnil; subst. exists s. by split.
Qed.

Lemma built_routes_few depot : forall ivs cs rs,
  Forall2 (fun r share => built_route depot share r) rs
    (zip_with (fun iv c => (iv, [c])) ivs cs) ->
  (length cs <= length ivs)%nat ->
  Forall2 (fun r c => exists s, customer_stops (r_stops r) = [s] /\ serves s c) rs cs /\
  Forall2 route_vehicle rs (take (length cs) ivs).
Proof.
  induction ivs as [|iv ivs IH]; intros cs rs Hall Hlen.
  - destruct cs; [|simpl in Hlen; lia]. inversion Hall; subst. split; constructor.
  - destruct cs as [|c cs].
    { inversion Hall; subst. split; constructor. }
    cbn [zip_with] in Hall. inversion Hall as [|r sh rs' shs Hb Hrest]; subst.
    destruct (IH cs rs' Hrest) as [H1 H2]; [simpl in Hlen; lia|].
    split.
    + constructor; [by eapply built_route_single|exact H1].
    + cbn [length take]. constructor; [apply Hb|exact H2].
Qed.



End GreedyShares.



(** ** The greedy strategy: what every returned route satisfies *)

Section GreedyRoutes.
Context `{PyFloat}.
Import SimpleVRPService.

Lemma visit_inv fuel : forall w cs w',
  visit fuel w cs = Ok w' ->
  exists new, w_stops w' = w_stops w ++ new /\
              Forall (fun s => s_type s = "customer"%string) new /\
              w_total_load w' = w_total_load w + stops_demand new.
Proof.
  induction fuel as [|fuel IH]; intros w cs w' Hv.
  - destruct cs; [|discriminate Hv]. injection Hv as <-.
    exists []. rewrite app_nil_r.
    split_and!; [done|constructor|unfold stops_demand; simpl; lia].
  - destruct cs as [|c0 cs].
    { injection Hv as <-. exists []. rewrite app_nil_r.
      split_and!; [done|constructor|unfold stops_demand; simpl; lia]. }
    cbn [visit] in Hv.
    destruct (nearest_scan (w_current_location w) (c0 :: cs) None f_inf)
      as [[nearest d]| |] eqn:Escan; try discriminate Hv.
    cbv beta iota delta [mbind outcome_bind obind] in Hv.
    destruct nearest as [c|]; [|exact (IH _ _ _ Hv)].
    destruct (leg_minutes d) as [minutes| |]; try discriminate Hv.
    destruct (py_remove c (c0 :: cs)) as [rest|]; try discriminate Hv.
    cbn [or_raise] in Hv. apply IH in Hv as (new & Hst & Hty & Hload).
    cbn [w_stops w_total_load] in Hst, Hload.
    exists (customer_stop w c :: new). split_and!.
    + rewrite Hst. by rewrite <- app_assoc.
    + by constructor.
    + rewrite Hload. unfold stops_demand. csimpl. lia.
Qed.

Lemma create_simple_route_inv fuel i v cs depot r :
  _create_simple_route fuel i v cs depot = Ok r -> greedy_shape depot r.
Proof.
  unfold _create_simple_route. intros Hr. bind_inv Hr.
  injection Hr as <-.
  match goal with E : visit _ _ _ = Ok _ |- _ =>
    apply visit_inv in E as (new & Hst & Hty & Hload) end.
  cbn [w_stops w_total_load] in Hst, Hload.
  unfold greedy_shape. cbn [r_stops r_total_load].
  eexists new, _. split_and!; [by rewrite Hst|exact Hty|reflexivity|].
  rewrite Hload. reflexivity.
Qed.

Lemma assign_inv fuel depot nv k (P : Route -> Prop) :
  (forall i v cs r, _create_simple_route fuel i v cs depot = Ok r -> P r) ->
  forall vs i rem routes rs,
    assign fuel depot nv k i vs rem routes = Ok rs ->
    Forall P routes -> Forall P rs.
Proof.
  intros HP. induction vs as [|v vs IH]; intros i rem routes rs Ha Hall.
  - injection Ha as <-. exact Hall.
  - cbn [assign] in Ha.
    destruct (if i =? nv - 1 then (take k rem ++ drop k rem, [])
              else (take k rem, drop k rem)) as [mine rest].
    destruct mine as [|c0 mine]; [by eapply IH|].
    destruct (_create_simple_route fuel i v (c0 :: mine) depot) as [r| |] eqn:Er;
      try discriminate Ha.
    cbv beta iota delta [mbind outcome_bind obind] in Ha.
    eapply IH; [exact Ha|]. apply Forall_app. split; [exact Hall|].
    constructor; [by eapply HP|constructor].
Qed.

Lemma solve_vrp_inv fuel request sol :
  solve_vrp fuel request = Ok (Some sol) ->
  exists rs,
    assign fuel (depot request) (Z.of_nat (length (vehicles request)))
      (Z.to_nat (Z.max 1 (Z.of_nat (length (customers request))
                          / Z.of_nat (length (vehicles request)))))
      0 (vehicles request) (customers request) [] = Ok rs /\
    routes sol = rs.
Proof.
  unfold solve_vrp, try_except. intros Hs.
  destruct (solve_body fuel request) as [s| |] eqn:Eb; try discriminate Hs.
  cbv beta iota delta [mbind outcome_bind obind] in Hs. injection Hs as ->.
  unfold solve_body in Eb. cbv zeta in Eb.
  destruct (Z.of_nat (length (vehicles request)) =? 0); [discriminate Eb|].
  bind_inv Eb. injection Eb as <-. eexists. split; reflexivity.
Qed.

Lemma greedy_routes_shape fuel request sol :
  solve_vrp fuel request = Ok (Some sol) ->
  Forall (greedy_shape (depot request)) (routes sol).
Proof.
  intros Hs. apply solve_vrp_inv in Hs as (rs & Ha & ->).
  eapply assign_inv; [|exact Ha|constructor].
  intros i v cs r. apply create_simple_route_inv.
Qed.

Lemma greedy_shape_bookends depot r :
  greedy_shape depot r -> depot_bookends (r_stops r).
Proof.
  intros (visits & final & Hst & Hty & Hfin & Hload). rewrite Hst. split.
  - eexists. split; reflexivity.
  - exists final. split; [|exact Hfin].
    change (last ((depot_stop depot (VInt 0) "08:00" "08:00" :: visits) ++ [final])
            = Some final).
    apply last_snoc.
Qed.

Lemma greedy_shape_load depot r : greedy_shape depot r -> load_is_demand r.
Proof.
  intros (visits & final & Hst & Hty & Hfin & Hload).
  unfold load_is_demand. rewrite Hload, Hst.
  by rewrite (customer_stops_shape _ _ _ Hty Hfin).
Qed.

(** C2, amended. The greedy strategy reads neither
    [use_capacity_constraints] nor the capacities when it gives customers
    to vehicles: its result is the same whatever the flag is. In every
    solution it returns, [total_load] of every route is the sum of the
    demands of the customer stops of the route; so [total_load <= capacity]
    holds for a route exactly when that sum is at most the capacity. *)
Theorem greedy_load_is_customer_demand (fuel : nat) (request : VRPRequest) :
  (forall b, solve_vrp fuel (with_capacity_constraints b request) = solve_vrp fuel request) /\
  (forall sol,
     solve_vrp fuel request = Ok (Some sol) ->
     Forall (fun r =>
               load_is_demand r /\
               (within_capacity r <->
                stops_demand (customer_stops (r_stops r)) <= r_capacity r))
            (routes sol)).
Proof.
  split; [reflexivity|].
  intros sol Hs. apply greedy_routes_shape in Hs.
  eapply Forall_impl; [exact Hs|]. intros r Hr.
  pose proof (greedy_shape_load _ _ Hr) as Hload. split; [exact Hload|].
  unfold within_capacity. rewrite Hload. split.
  - intros (load & Heq & Hle). injection Heq as <-. exact Hle.
  - intros Hle. eexists. split; [reflexivity|exact Hle].
Qed.

End GreedyRoutes.

Lemma greedy_load_is_customer_demand_witness :
  exists sol,
    SimpleVRPService.solve_vrp 4 Examples.four_customers = Ok (Some sol) /\
    Forall (fun r =>
              load_is_demand r /\
              (within_capacity r <->
               stops_demand (customer_stops (r_stops r)) <= r_capacity r))
           (routes sol).
Proof.
  eexists. split; [vm_compute; reflexivity|].
  apply (proj2 (greedy_load_is_customer_demand 4 Examples.four_customers)).
  vm_compute. reflexivity.
Defined.

(** C2 as it is stated fails: capacity constraints are enabled, the
    controller answers with the solution of the greedy strategy, and the
    load of its route, 10, is above the capacity of the vehicle, 5. *)
Lemma capacity_exceeded_by_greedy :
  use_capacity_constraints Examples.overloaded = true /\
  exists sol,
    fst (VRPController.solve_vrp Examples.services Examples.overloaded Examples.fresh)
      = Some (solved sol) /\
    SimpleVRPService.solve_vrp 4 Examples.overloaded = Ok (Some sol) /\
    ~ Forall within_capacity (routes sol).
Proof.
  split; [reflexivity|]. eexists. split; [vm_compute; reflexivity|].
  split; [vm_compute; reflexivity|].
  intros Hall. apply Forall_cons in Hall as [(load & Hload & Hle) _].
  cbn in Hload. injection Hload as <-. cbn in Hle. lia.
Qed.

(** ** The constraint-programming strategy: what every kept route satisfies *)

Section KeptRoutes.
Context `{PyFloat}.
Import VRPService.

Lemma step_inv data request t n a nx t' :
  step data request t n a nx = Ok t' ->
  exists stop, t_stops t' = t_stops t ++ [stop] /\ (n = 0 -> is_depot stop).
Proof.
  unfold step. intros Hs.
  destruct (n =? 0) eqn:En.
  - bind_inv Hs. injection Hs as <-. eexists. split; [reflexivity|]. reflexivity.
  - bind_inv Hs.
    match goal with p : (RouteStop * Z * Z)%type |- _ => destruct p as [[stop load] time] end.
    bind_inv Hs. injection Hs as <-. exists stop. split; [reflexivity|].
    intros ->. discriminate En.
Qed.

Lemma follow_extends data request path : forall t t',
  follow data request t path = Ok t' -> exists new, t_stops t' = t_stops t ++ new.
Proof.
  induction path as [|[n a] path IH]; intros t t' Hf.
  - injection Hf as <-. exists []. by rewrite app_nil_r.
  - cbn [follow] in Hf.
    destruct (step data request t n a _) as [t1| |] eqn:Es; try discriminate Hf.
    cbv beta iota delta [mbind outcome_bind obind] in Hf.
    apply step_inv in Es as (stop & Hst & _).
    apply IH in Hf as (new & Hnew).
    exists (stop :: new). rewrite Hnew, Hst. by rewrite <- app_assoc.
Qed.

(** The stops of a path that leaves from the depot begin with a depot stop. *)
Lemma follow_from_depot data request path t t' :
  path_from_depot path = true ->
  follow data request t path = Ok t' ->
  t_stops t' = t_stops t \/
  exists s new, t_stops t' = t_stops t ++ s :: new /\ is_depot s.
Proof.
  intros Hp Hf. destruct path as [|[n a] path].
  - injection Hf as <-. by left.
  - right. cbn [follow] in Hf. cbn [path_from_depot] in Hp. apply Z.eqb_eq in Hp.
    destruct (step data request t n a _) as [t1| |] eqn:Es; try discriminate Hf.
    cbv beta iota delta [mbind outcome_bind obind] in Hf.
    apply step_inv in Es as (stop & Hst & Hdep).
    apply follow_extends in Hf as (new & Hnew).
    exists stop, new. split; [|by apply Hdep].
    rewrite Hnew, Hst. by rewrite <- app_assoc.
Qed.

Lemma py_index_elem {A} (l : list A) i x : py_index l i = Ok x -> x ∈ l.
Proof.
  unfold py_index. intros Hi.
  destruct (0 <=? i).
  - destruct (l !! Z.to_nat i) eqn:E; [|discriminate Hi]. injection Hi as <-.
    by eapply list_elem_of_lookup_2.
  - destruct (0 <=? Z.of_nat (length l) + i); [|discriminate Hi].
    destruct (l !! Z.to_nat (Z.of_nat (length l) + i)) eqn:E; [|discriminate Hi].
    injection Hi as <-. by eapply list_elem_of_lookup_2.
Qed.

Lemma create_route_inv i solution data request r :
  forallb path_from_depot (paths solution) = true ->
  _create_route i solution data request = Ok r ->
  depot_bookends (r_stops r).
Proof.
  intros Hall Hr. unfold _create_route in Hr. bind_inv Hr. injection Hr as <-.
  cbn [r_stops].
  match goal with E : py_index (paths solution) i = Ok ?p |- _ =>
    apply py_index_elem in E; rename p into path;
    assert (Hp : path_from_depot path = true)
      by (rewrite forallb_forall in Hall; apply Hall; by apply list_elem_of_In)
  end.
  match goal with E : follow _ _ _ _ = Ok ?t |- _ =>
    destruct (follow_from_depot _ _ _ _ _ Hp E) as [Hst|(s & new & Hst & Hdep)]
  end; cbn [t_stops] in Hst; rewrite Hst.
  - split; eexists; (split; [reflexivity|reflexivity]).
  - split.
    + exists s. by split.
    + eexists. split; [cbn [app]; rewrite app_comm_cons; apply last_snoc|reflexivity].
Qed.

Lemma keep_routes_inv solution data request (P : Route -> Prop) :
  (forall i r, _create_route i solution data request = Ok r -> P r) ->
  forall ids k k',
    keep_routes ids solution data request k = Ok k' ->
    Forall P (k_routes k) -> Forall P (k_routes k').
Proof.
  intros HP. induction ids as [|i ids IH]; intros k k' Hk Hall.
  - injection Hk as <-. exact Hall.
  - cbn [keep_routes] in Hk.
    destruct (_create_route i solution data request) as [r| |] eqn:Er;
      try discriminate Hk.
    cbv beta iota delta [mbind outcome_bind obind] in Hk.
    destruct (customer_stops (r_stops r)); [by eapply IH|].
    bind_inv Hk. eapply IH; [exact Hk|]. cbn [k_routes].
    apply Forall_app. split; [exact Hall|]. constructor; [by eapply HP|constructor].
Qed.

Lemma format_solution_routes solver solution data request sol :
  _format_solution solver solution data request = Ok sol ->
  exists k,
    keep_routes (Z.of_nat <$> seq 0 (Z.to_nat (num_vehicles data))) solution data request
      {| k_routes := []; k_total_distance := VInt 0; k_total_cost := VInt 0;
         k_total_time := VInt 0 |} = Ok k /\
    routes sol = k_routes k.
Proof.
  unfold _format_solution. intros Hf. bind_inv Hf. injection Hf as <-.
  eexists. split; reflexivity.
Qed.

Lemma solve_vrp_cp_inv solver request sol :
  solve_vrp solver request = Ok (Some sol) ->
  exists data solution,
    _create_data_model request = Ok data /\
    SolveWithParameters solver (build_routing_model data request)
      (search_parameters request) = inr (Some solution) /\
    _format_solution solver solution data request = Ok sol.
Proof.
  unfold solve_vrp, try_except. intros Hs.
  destruct (_create_data_model request) as [data| |] eqn:Ed;
    cbv beta iota delta [mbind outcome_bind obind] in Hs; try discriminate Hs.
  unfold _solve_with_ortools, try_except in Hs.
  destruct (SolveWithParameters solver _ _) as [e|[solution|]] eqn:Ecall;
    try discriminate Hs.
  destruct (_format_solution solver solution data request) as [s| |] eqn:Ef;
    try discriminate Hs.
  injection Hs as <-. by exists data, solution.
Qed.

Lemma cp_routes_bookends solver request sol :
  starts_at_depot solver ->
  solve_vrp solver request = Ok (Some sol) ->
  Forall (fun r => depot_bookends (r_stops r)) (routes sol).
Proof.
  intros Hstart Hs.
  apply solve_vrp_cp_inv in Hs as (data & solution & _ & Hcall & Hf).
  apply Hstart in Hcall.
  apply format_solution_routes in Hf as (k & Hk & ->).
  eapply keep_routes_inv; [|exact Hk|constructor].
  intros i r. by apply create_route_inv.
Qed.

(** *** The stops of the external adapter *)

Lemma collect_stops_reconciled request : forall entries acc stops,
  GeminiVRPService.collect_stops entries request acc = Ok stops ->
  stops = acc ++ reconciled request entries.
Proof.
  induction entries as [|entry rest IH]; intros acc stops Hc.
  - injection Hc as <-. unfold reconciled. cbn. by rewrite app_nil_r.
  - cbn [GeminiVRPService.collect_stops] in Hc. unfold reconciled. cbn [omap list_omap].
    destruct (GeminiVRPService._create_stop_from_data entry request) as [[s|]| |];
      cbv beta iota delta [mbind outcome_bind obind] in Hc; try discriminate Hc.
    + apply IH in Hc. rewrite Hc. by rewrite <- app_assoc.
    + by apply IH in Hc.
Qed.

Lemma create_route_from_data_stops route_data request r :
  GeminiVRPService._create_route_from_data route_data request = Ok (Some r) ->
  exists entries,
    reply_stops route_data = Ok entries /\ r_stops r = reconciled request entries.
Proof.
  unfold GeminiVRPService._create_route_from_data, try_except. intros Hr.
  match type of Hr with
  | match ?body with Ok _ => _ | Raise _ => _ | OutOfFuel => _ end = _ =>
      destruct body as [[r'|]| |] eqn:Eb; try discriminate Hr
  end.
  injection Hr as ->. bind_inv Eb. injection Eb as <-. cbn [r_stops].
  match goal with E : GeminiVRPService.py_iter _ = Ok ?l |- _ => exists l end.
  split.
  - unfold reply_stops.
    match goal with E : py_get route_data "stops" _ = Ok _ |- _ => rewrite E end.
    cbv beta iota delta [mbind outcome_bind obind]. assumption.
  - match goal with E : GeminiVRPService.collect_stops _ _ [] = Ok _ |- _ =>
      by apply collect_stops_reconciled in E end.
Qed.

Lemma collect_routes_inv request (P : Route -> Prop) :
  (forall route_data r,
     GeminiVRPService._create_route_from_data route_data request = Ok (Some r) -> P r) ->
  forall routes_data acc routes,
    GeminiVRPService.collect_routes routes_data request acc = Ok routes ->
    Forall P acc -> Forall P routes.
Proof.
  intros HP. induction routes_data as [|rd rest IH]; intros acc routes Hc Hacc.
  - by injection Hc as <-.
  - cbn [GeminiVRPService.collect_routes] in Hc.
    destruct (GeminiVRPService._create_route_from_data rd request) as [[r|]| |] eqn:Er;
      cbv beta iota delta [mbind outcome_bind obind] in Hc; try discriminate Hc.
    + apply IH in Hc; [exact Hc|]. apply Forall_app. split; [exact Hacc|].
      constructor; [by eapply HP|constructor].
    + by apply IH in Hc.
Qed.

Lemma adapter_routes_inv env request (P : Route -> Prop) sol :
  (forall route_data r,
     GeminiVRPService._create_route_from_data route_data request = Ok (Some r) -> P r) ->
  GeminiVRPService.solve_vrp env request = Ok (Some sol) -> Forall P (routes sol).
Proof.
  intros HP. unfold GeminiVRPService.solve_vrp, try_except. intros Hs.
  match type of Hs with
  | match ?body with Ok _ => _ | Raise _ => _ | OutOfFuel => _ end = _ =>
      destruct body as [[sol'|]| |] eqn:Eb; try discriminate Hs
  end.
  injection Hs as ->.
  destruct (GeminiVRPService.of_sum (GeminiVRPService.generate_content env _))
    as [text| |];
    cbv beta iota zeta delta [mbind outcome_bind obind] in Eb; try discriminate Eb.
  unfold GeminiVRPService._parse_gemini_response, try_except in Eb.
  match type of Eb with
  | match ?body with Ok _ => _ | Raise _ => _ | OutOfFuel => _ end = _ =>
      destruct body as [[sol'|]| |] eqn:Ep; try discriminate Eb
  end.
  injection Eb as ->. bind_inv Ep. injection Ep as <-. cbn [routes].
  match goal with E : GeminiVRPService.collect_routes _ _ [] = Ok _ |- _ =>
    eapply collect_routes_inv in E; [exact E|exact HP|constructor] end.
Qed.

Lemma create_stop_depot request entry s :
  GeminiVRPService._create_stop_from_data entry request = Ok (Some s) ->
  (is_depot s <-> depot_entry entry = true).
Proof.
  unfold GeminiVRPService._create_stop_from_data, try_except, depot_entry. intros Hs.
  match type of Hs with
  | match ?body with Ok _ => _ | Raise _ => _ | OutOfFuel => _ end = _ =>
      destruct body as [[s'|]| |] eqn:Eb; try discriminate Hs
  end.
  injection Hs as ->.
  destruct (py_get entry "type" (VStr "customer")) as [stop_type| |];
    cbv beta iota delta [mbind outcome_bind obind] in Eb; try discriminate Eb.
  destruct (GeminiVRPService.py_eq_str stop_type "depot").
  { injection Eb as <-. by split. }
  destruct (customers request) as [|c0 cs]; [discriminate Eb|].
  destruct (py_get entry "name" VNone) as [name| |];
    cbv beta iota delta [mbind outcome_bind obind] in Eb; try discriminate Eb.
  destruct (GeminiVRPService.find_customer name (c0 :: cs)) as [customer|];
    [|discriminate Eb].
  destruct (py_get entry "demand" _) as [load| |];
    cbv beta iota delta [mbind outcome_bind obind] in Eb; try discriminate Eb.
  injection Eb as <-. unfold is_depot. cbn [s_type]. split; discriminate.
Qed.

Lemma reconciled_cons request entry entries :
  reconciled request (entry :: entries) =
  match GeminiVRPService._create_stop_from_data entry request with
  | Ok (Some s) => s :: reconciled request entries
  | _ => reconciled request entries
  end.
Proof.
  unfold reconciled. cbn [omap list_omap].
  by destruct (GeminiVRPService._create_stop_from_data entry request) as [[s|]| |].
Qed.

Lemma reconciled_app request entries entries' :
  reconciled request (entries ++ entries') =
  reconciled request entries ++ reconciled request entries'.
Proof. apply omap_app. Qed.

Lemma reconciled_head request entries :
  (exists s, head (reconciled request entries) = Some s /\ is_depot s) <->
  (exists entry, head (List.filter (reconcilable request) entries) = Some entry /\
                 depot_entry entry = true).
Proof.
  induction entries as [|entry entries IH]; [by split; intros (? & ? & ?)|].
  rewrite reconciled_cons. cbn [List.filter]. unfold reconcilable at 1.
  destruct (GeminiVRPService._create_stop_from_data entry request)
    as [[s|]| |] eqn:Es; try exact IH.
  cbn [head]. apply create_stop_depot in Es.
  split; intros (x & [= <-] & Hx); eexists; (split; [reflexivity|]); by apply Es.
Qed.

Lemma reconciled_last request entries :
  (exists s, last (reconciled request entries) = Some s /\ is_depot s) <->
  (exists entry, last (List.filter (reconcilable request) entries) = Some entry /\
                 depot_entry entry = true).
Proof.
  induction entries as [|entry entries IH] using rev_ind;
    [by split; intros (? & ? & ?)|].
  rewrite reconciled_app, List.filter_app, reconciled_cons.
  cbn [List.filter reconciled omap list_omap]. unfold reconcilable at 2.
  destruct (GeminiVRPService._create_stop_from_data entry request)
    as [[s|]| |] eqn:Es; rewrite ?app_nil_r; try exact IH.
  rewrite !last_snoc. apply create_stop_depot in Es.
  split; intros (x & [= <-] & Hx); eexists; (split; [reflexivity|]); by apply Es.
Qed.


End KeptRoutes.



(** ** Every strategy returns *)

Section Halting.
Context `{PyFloat}.

Lemma halts_calculate_distance a b : halts (_calculate_distance a b).
Proof. unfold _calculate_distance. halts_auto. Qed.

Lemma halts_py_get v k d : halts (py_get v k d).
Proof. destruct v; discriminate. Qed.

Lemma halts_float_of_int z : halts (float_of_int z).
Proof. unfold float_of_int. by destruct (Z.abs z <? float_overflow). Qed.

Lemma halts_int_truediv a b : halts (int_truediv a b).
Proof.
  unfold int_truediv.
  by destruct (b =? 0), (Z.abs a <? float_overflow * Z.abs b).
Qed.

Lemma halts_to_float n : halts (to_float n).
Proof. destruct n; [apply halts_float_of_int|discriminate]. Qed.

#[local] Hint Resolve halts_float_of_int halts_int_truediv halts_to_float : halts.

Lemma halts_py_add a b : halts (py_add a b).
Proof.
  unfold py_add.
  destruct (as_number a) as [[]|], (as_number b) as [[]|]; try discriminate; halts_auto.
Qed.

Lemma halts_py_mul a b : halts (py_mul a b).
Proof.
  unfold py_mul.
  destruct (as_number a) as [[]|], (as_number b) as [[]|]; try discriminate; halts_auto.
Qed.

Lemma halts_py_truediv a b : halts (py_truediv a b).
Proof.
  unfold py_truediv.
  destruct (as_number a) as [[]|], (as_number b) as [[]|]; try discriminate; halts_auto.
Qed.

Lemma halts_py_truediv_len a n : halts (py_truediv_len a n).
Proof.
  unfold py_truediv_len. destruct (as_number a) as [[]|]; try discriminate; halts_auto.
Qed.

Lemma halts_py_gt0 a : halts (py_gt0 a).
Proof. unfold py_gt0. destruct (as_number a) as [[]|]; discriminate. Qed.

Lemma halts_py_round a n : halts (py_round a n).
Proof. unfold py_round. destruct (as_number a) as [[]|]; discriminate. Qed.

Lemma halts_py_sum_from xs : forall acc, halts (py_sum_from acc xs).
Proof.
  induction xs as [|x xs IH]; intros acc; [discriminate|].
  cbn [py_sum_from]. apply halts_bind; [apply halts_py_add|]. intros. apply IH.
Qed.

Lemma halts_py_sum xs : halts (py_sum xs).
Proof. apply halts_py_sum_from. Qed.

Lemma halts_average (f : Route -> pyval) rs : halts (SimpleVRPService.average f rs).
Proof.
  unfold SimpleVRPService.average. destruct rs; [discriminate|].
  apply halts_bind; [apply halts_py_sum|]. intros. apply halts_py_truediv_len.
Qed.

Lemma halts_py_index {A} (l : list A) i : halts (py_index l i).
Proof. unfold py_index. halts_auto. Qed.

#[local] Hint Resolve halts_calculate_distance halts_py_get halts_py_add halts_py_mul
  halts_py_truediv halts_py_gt0 halts_py_round halts_py_sum halts_average
  halts_py_index : halts.

(** *** The external adapter *)

Lemma halts_of_sum {A} (r : exn + A) : halts (GeminiVRPService.of_sum r).
Proof. destruct r; discriminate. Qed.

Lemma halts_py_iter v : halts (GeminiVRPService.py_iter v).
Proof. destruct v; discriminate. Qed.

#[local] Hint Resolve halts_of_sum halts_py_iter : halts.

Lemma returns_create_stop stop_data request :
  returns (GeminiVRPService._create_stop_from_data stop_data request).
Proof.
  unfold GeminiVRPService._create_stop_from_data. apply returns_try. halts_auto.
Qed.

Lemma halts_collect_stops request l : forall acc,
  halts (GeminiVRPService.collect_stops l request acc).
Proof.
  induction l as [|x l IH]; intros acc; [discriminate|].
  cbn [GeminiVRPService.collect_stops].
  apply halts_bind; [apply returns_halts, returns_create_stop|].
  intros [s|]; apply IH.
Qed.

Lemma halts_select_vehicle n i request :
  halts (GeminiVRPService.select_vehicle n i request).
Proof. unfold GeminiVRPService.select_vehicle. halts_auto. Qed.

#[local] Hint Resolve halts_collect_stops halts_select_vehicle : halts.

Lemma returns_create_route route_data request :
  returns (GeminiVRPService._create_route_from_data route_data request).
Proof.
  unfold GeminiVRPService._create_route_from_data. apply returns_try. halts_auto.
Qed.

Lemma halts_collect_routes request l : forall acc,
  halts (GeminiVRPService.collect_routes l request acc).
Proof.
  induction l as [|x l IH]; intros acc; [discriminate|].
  cbn [GeminiVRPService.collect_routes].
  apply halts_bind; [apply returns_halts, returns_create_route|].
  intros [r|]; apply IH.
Qed.

#[local] Hint Resolve halts_collect_routes : halts.

Lemma returns_parse env text request :
  returns (GeminiVRPService._parse_gemini_response env text request).
Proof.
  unfold GeminiVRPService._parse_gemini_response. apply returns_try. halts_auto.
Qed.

Lemma gemini_returns env request :
  returns (GeminiVRPService.solve_vrp env request).
Proof.
  unfold GeminiVRPService.solve_vrp. apply returns_try.
  apply halts_bind; [apply halts_of_sum|]. intros. apply returns_halts, returns_parse.
Qed.

(** *** The constraint-programming strategy *)

Lemma halts_matrix_cell i j a b : halts (VRPService.matrix_cell i j a b).
Proof. unfold VRPService.matrix_cell. halts_auto. Qed.

Lemma halts_create_data_model request : halts (VRPService._create_data_model request).
Proof.
  unfold VRPService._create_data_model. apply halts_bind; [|intros; discriminate].
  apply halts_mapM. intros ia. unfold VRPService.matrix_row.
  apply halts_mapM. intros jb. apply halts_matrix_cell.
Qed.

Lemma returns_solve_with_ortools solver data request :
  returns (VRPService._solve_with_ortools solver data request).
Proof.
  unfold VRPService._solve_with_ortools. apply returns_try.
  destruct (VRPService.SolveWithParameters _ _ _); discriminate.
Qed.

Lemma halts_step data request t n a nx : halts (VRPService.step data request t n a nx).
Proof. unfold VRPService.step. halts_auto. Qed.

Lemma halts_follow data request path : forall t,
  halts (VRPService.follow data request t path).
Proof.
  induction path as [|[n a] path IH]; intros t; [discriminate|].
  cbn [VRPService.follow]. apply halts_bind; [apply halts_step|]. intros. apply IH.
Qed.

Lemma halts_create_route i solution data request :
  halts (VRPService._create_route i solution data request).
Proof.
  unfold VRPService._create_route.
  repeat halts_step; eauto using halts_follow with halts.
Qed.

Lemma halts_keep_routes solution data request ids : forall k,
  halts (VRPService.keep_routes ids solution data request k).
Proof.
  induction ids as [|i ids IH]; intros k; [discriminate|].
  cbn [VRPService.keep_routes].
  apply halts_bind; [apply halts_create_route|]. intros route.
  destruct (customer_stops (r_stops route)); [apply IH|].
  repeat (apply halts_bind; [eauto with halts|intros]). apply IH.
Qed.

Lemma halts_format_solution solver solution data request :
  halts (VRPService._format_solution solver solution data request).
Proof.
  unfold VRPService._format_solution.
  apply halts_bind; [apply halts_keep_routes|]. intros k.
  repeat (apply halts_bind; [eauto with halts|intros]). discriminate.
Qed.

Lemma ortools_returns solver request :
  returns (VRPService.solve_vrp solver request).
Proof.
  unfold VRPService.solve_vrp. apply returns_try.
  apply halts_bind; [apply halts_create_data_model|]. intros data.
  apply halts_bind; [apply returns_halts, returns_solve_with_ortools|].
  intros [solution|]; [|discriminate].
  apply halts_bind; [apply halts_format_solution|]. intros. discriminate.
Qed.

(** *** The greedy strategy *)

Import SimpleVRPService.

Lemma comparable_distances_among request :
  comparable_distances request = true -> comparable_among (locations request).
Proof.
  unfold comparable_distances. intros Hc a b Ha Hb.
  rewrite forallb_forall in Hc. specialize (Hc a (proj1 (list_elem_of_In _ _) Ha)).
  rewrite forallb_forall in Hc. exact (Hc b (proj1 (list_elem_of_In _ _) Hb)).
Qed.

Lemma comparable_among_sub (big small : list Coordinate) :
  (forall x, x ∈ small -> x ∈ big) -> comparable_among big -> comparable_among small.
Proof. intros Hsub Hc a b Ha Hb. apply Hc; by apply Hsub. Qed.

Lemma halts_nearest_scan cur cs : forall n m, halts (nearest_scan cur cs n m).
Proof.
  induction cs as [|c cs IH]; intros n m; [discriminate|].
  cbn [nearest_scan]. apply halts_bind; [apply halts_calculate_distance|].
  intros d. destruct (f_lt d m); apply IH.
Qed.

Lemma nearest_scan_inv cur cs : forall n m n' m',
  nearest_scan cur cs n m = Ok (n', m') ->
  n' = n \/ exists c, n' = Some c /\ c ∈ cs.
Proof.
  induction cs as [|c cs IH]; intros n m n' m' Hs.
  - injection Hs as <- <-. by left.
  - cbn [nearest_scan] in Hs.
    destruct (_calculate_distance cur (c_coordinate c)) as [d| |]; try discriminate Hs.
    cbv beta iota delta [mbind outcome_bind obind] in Hs.
    destruct (f_lt d m); apply IH in Hs as [->|(c' & -> & Hin)].
    + right. exists c. split; [done|by left].
    + right. exists c'. split; [done|by right].
    + by left.
    + right. exists c'. split; [done|by right].
Qed.

(** When the distance to the first customer compares below
    [float('inf')], a scan that returns has found a customer. *)
Lemma nearest_scan_some cur c0 cs n' m' :
  comparable_leg cur (c_coordinate c0) = true ->
  nearest_scan cur (c0 :: cs) None f_inf = Ok (n', m') ->
  exists c, n' = Some c /\ c ∈ c0 :: cs.
Proof.
  unfold comparable_leg. intros Hc Hs. cbn [nearest_scan] in Hs.
  destruct (_calculate_distance cur (c_coordinate c0)) as [d| |]; try discriminate Hs.
  cbv beta iota delta [mbind outcome_bind obind] in Hs. rewrite Hc in Hs.
  apply nearest_scan_inv in Hs as [->|(c & -> & Hin)].
  - exists c0. split; [done|by left].
  - exists c. split; [done|by right].
Qed.

Lemma halts_visit fuel : forall w cs,
  (length cs <= fuel)%nat ->
  comparable_among (w_current_location w :: (c_coordinate <$> cs)) ->
  halts (visit fuel w cs).
Proof.
  induction fuel as [|fuel IH]; intros w cs Hlen Hc.
  - destruct cs; [discriminate|simpl in Hlen; lia].
  - destruct cs as [|c0 cs]; [discriminate|].
    cbn [visit].
    destruct (nearest_scan (w_current_location w) (c0 :: cs) None f_inf)
      as [[nearest d]| |] eqn:Escan.
    2: discriminate.
    2: { exfalso. eapply halts_nearest_scan; eauto. }
    apply nearest_scan_some in Escan as (c & -> & Hin).
    2: { apply Hc; [by left|]. right. rewrite fmap_cons. by left. }
    cbv beta iota delta [mbind outcome_bind obind].
    destruct (leg_minutes d) as [minutes| |] eqn:Emin.
    2: discriminate.
    2: { exfalso. unfold leg_minutes in Emin. eapply halts_or_raise; eauto. }
    destruct (py_remove_elem c (c0 :: cs) Hin) as [rest Hrest].
    rewrite Hrest. cbn [or_raise].
    pose proof (py_remove_perm _ _ _ Hrest) as Hperm.
    apply IH.
    + apply Permutation_length in Hperm. simpl in Hperm, Hlen. lia.
    + cbn [w_current_location]. eapply comparable_among_sub; [|exact Hc].
      intros x Hx. right. rewrite Hperm. by rewrite fmap_cons.
Qed.

Lemma halts_create_simple_route fuel i v cs depot :
  (length cs <= fuel)%nat ->
  comparable_among (depot :: (c_coordinate <$> cs)) ->
  halts (_create_simple_route fuel i v cs depot).
Proof.
  intros Hlen Hc. unfold _create_simple_route.
  apply halts_bind; [by apply halts_visit|]. intros w.
  apply halts_bind; [apply halts_calculate_distance|]. intros d.
  apply halts_bind; [apply halts_or_raise|]. intros. halts_auto.
Qed.

Lemma halts_assign fuel depot nv k : forall vs i rem routes,
  (length rem <= fuel)%nat ->
  comparable_among (depot :: (c_coordinate <$> rem)) ->
  halts (assign fuel depot nv k i vs rem routes).
Proof.
  induction vs as [|v vs IH]; intros i rem routes Hlen Hc; [discriminate|].
  cbn [assign].
  set (mine := fst (if i =? nv - 1 then (take k rem ++ drop k rem, [])
                    else (take k rem, drop k rem))).
  set (rest := snd (if i =? nv - 1 then (take k rem ++ drop k rem, [])
                    else (take k rem, drop k rem))).
  assert (Hmine : forall c, c ∈ mine -> c ∈ rem).
  { subst mine. destruct (i =? nv - 1); simpl; intros c Hin.
    - by rewrite take_drop in Hin.
    - eapply elem_of_sublist; [exact Hin|apply sublist_take]. }
  assert (Hmine_len : (length mine <= length rem)%nat).
  { subst mine. destruct (i =? nv - 1); simpl.
    - by rewrite take_drop.
    - rewrite length_take. lia. }
  assert (Hrest : forall c, c ∈ rest -> c ∈ rem).
  { subst rest. destruct (i =? nv - 1); simpl; intros c Hin.
    - by apply elem_of_nil in Hin.
    - eapply elem_of_sublist; [exact Hin|apply sublist_drop]. }
  assert (Hrest_len : (length rest <= length rem)%nat).
  { subst rest. destruct (i =? nv - 1); simpl; [lia|].
    rewrite length_drop. lia. }
  replace (if i =? nv - 1 then (take k rem ++ drop k rem, [])
           else (take k rem, drop k rem)) with (mine, rest)
    by (subst mine rest; by destruct (i =? nv - 1)).
  cbv beta iota.
  assert (Hnext : forall i' routes', halts (assign fuel depot nv k i' vs rest routes')).
  { intros. apply IH; [lia|]. eapply comparable_among_sub; [|exact Hc].
    by apply locations_sub. }
  destruct mine as [|c0 mine'] eqn:Emine; [apply Hnext|].
  apply halts_bind; [|intros; apply Hnext].
  apply halts_create_simple_route; [lia|].
  eapply comparable_among_sub; [|exact Hc]. by apply locations_sub.
Qed.

Lemma greedy_returns fuel request :
  comparable_distances request = true ->
  (length (customers request) <= fuel)%nat ->
  returns (solve_vrp fuel request).
Proof.
  intros Hc Hlen. apply comparable_distances_among in Hc.
  unfold solve_vrp. apply returns_try.
  apply halts_bind; [|intros; discriminate].
  unfold solve_body.
  apply halts_bind; [destruct (_ =? 0); discriminate|]. intros q.
  apply halts_bind; [by apply halts_assign|]. intros rs.
  repeat (apply halts_bind; [eauto with halts|intros]). discriminate.
Qed.


End Halting.


(** ** Where the greedy strategy gives no solution *)

(** The distance to a location with a [nan] latitude never compares below
    the minimum: no customer is found and none is removed, and the loop does
    not end. *)
Lemma visit_spins_on_nan (fuel : nat) : forall w,
  SimpleVRPService.w_current_location w = Examples.origin ->
  SimpleVRPService.visit fuel w (customers Examples.nowhere) = OutOfFuel.
Proof.
  induction fuel as [|fuel IH]; intros w Hw; [reflexivity|].
  cbn [SimpleVRPService.visit customers Examples.nowhere GridFloat.request].
  rewrite Hw. cbn -[SimpleVRPService.visit]. by apply IH.
Qed.

Lemma route_spins_on_nan (fuel : nat) (i : Z) (v : Vehicle) :
  SimpleVRPService._create_simple_route fuel i v (customers Examples.nowhere)
    Examples.origin = OutOfFuel.
Proof.
  unfold SimpleVRPService._create_simple_route. by rewrite visit_spins_on_nan.
Qed.

Lemma greedy_spins_on_nan (fuel : nat) :
  SimpleVRPService.solve_vrp fuel Examples.nowhere = OutOfFuel.
Proof.
  unfold SimpleVRPService.solve_vrp, SimpleVRPService.solve_body.
  change (Z.of_nat (length (vehicles Examples.nowhere))) with 1.
  change (Z.of_nat (length (customers Examples.nowhere))) with 1.
  change (1 =? 0) with false.
  cbv beta iota zeta delta [mbind outcome_bind obind].
  change (Z.to_nat (Z.max 1 (1 / 1))) with 1%nat.
  change (vehicles Examples.nowhere) with [GridFloat.vehicle "X1" "Van" 25].
  change (depot Examples.nowhere) with Examples.origin.
  cbn [SimpleVRPService.assign].
  change (0 =? 1 - 1) with true. rewrite take_drop.
  remember (customers Examples.nowhere) as cs eqn:Ecs.
  destruct cs as [|c cs]; [discriminate Ecs|].
  rewrite Ecs, route_spins_on_nan. reflexivity.
Qed.

Lemma greedy_spins_on_nan_spare (fuel : nat) :
  SimpleVRPService.solve_vrp fuel Examples.nowhere_spare = OutOfFuel.
Proof.
  unfold SimpleVRPService.solve_vrp, SimpleVRPService.solve_body.
  change (Z.of_nat (length (vehicles Examples.nowhere_spare))) with 2.
  change (Z.of_nat (length (customers Examples.nowhere_spare))) with 1.
  change (2 =? 0) with false.
  cbv beta iota zeta delta [mbind outcome_bind obind].
  change (Z.to_nat (Z.max 1 (1 / 2))) with 1%nat.
  change (vehicles Examples.nowhere_spare)
    with [GridFloat.vehicle "X1" "Van" 25; GridFloat.vehicle "X2" "Bus" 25].
  change (depot Examples.nowhere_spare) with Examples.origin.
  change (customers Examples.nowhere_spare) with (customers Examples.nowhere).
  cbn [SimpleVRPService.assign].
  change (0 =? 2 - 1) with false. cbv iota.
  remember (customers Examples.nowhere) as cs eqn:Ecs.
  assert (Hone : take 1 cs = cs) by (by subst cs).
  rewrite Hone.
  destruct cs as [|c cs]; [discriminate Ecs|].
  rewrite Ecs, route_spins_on_nan. reflexivity.
Qed.

(** The load of the vehicle is the demand [10**400]: its ratio to the
    capacity is an [OverflowError], which [solve_vrp] turns into null. *)
Lemma greedy_overflows (fuel : nat) :
  (1 <= fuel)%nat -> SimpleVRPService.solve_vrp fuel Examples.heavy = Ok None.
Proof.
  intros Hfuel. destruct fuel as [|[|fuel]]; [lia| |]; vm_compute; reflexivity.
Qed.

Lemma greedy_overflows_spare (fuel : nat) :
  (1 <= fuel)%nat -> SimpleVRPService.solve_vrp fuel Examples.heavy_spare = Ok None.
Proof.
  intros Hfuel. destruct fuel as [|[|fuel]]; [lia| |]; vm_compute; reflexivity.
Qed.




(** ** The orchestrator *)

Section Orchestration.
Context `{PyFloat}.
Import VRPController.

(** C3. Once the request has passed validation, the controller calls the
    greedy strategy, then the external adapter, then the
    constraint-programming strategy; the first of them that returns a
    solution gives the answer and the later ones are not called; the answer
    is a failure only when the three of them have returned null. *)
Theorem fallback_order (svc : Services) (request : VRPRequest) (st : ControllerState) :
  validate_vrp_request svc request = [] ->
  let result := solve_vrp svc request st in
  (forall s,
     simple_service svc request = Ok (Some s) ->
     fst result = Some (solved s) /\
     invoked (snd result) = invoked st ++ [Simple]) /\
  (forall s,
     simple_service svc request = Ok None ->
     gemini_service svc request = Ok (Some s) ->
     fst result = Some (solved s) /\
     invoked (snd result) = invoked st ++ [Simple; Gemini]) /\
  (forall s,
     simple_service svc request = Ok None ->
     gemini_service svc request = Ok None ->
     vrp_service svc request = Ok (Some s) ->
     fst result = Some (solved s) /\
     invoked (snd result) = invoked st ++ [Simple; Gemini; ORTools]) /\
  (simple_service svc request = Ok None ->
   gemini_service svc request = Ok None ->
   vrp_service svc request = Ok None ->
   fst result = Some no_solution /\
   invoked (snd result) = invoked st ++ [Simple; Gemini; ORTools]) /\
  ((forall which, ~ raises (service svc which request)) ->
   forall response,
     fst result = Some response -> success response = false ->
     simple_service svc request = Ok None /\
     gemini_service svc request = Ok None /\
     vrp_service svc request = Ok None).
Proof.
  intros Hvalid result. subst result.
  unfold solve_vrp, fallback_chain, call. rewrite Hvalid. cbn [service].
  split_and!.
  - intros s ->. cbn. by rewrite <- ?app_assoc.
  - intros s -> ->. cbn. by rewrite <- ?app_assoc.
  - intros s -> -> ->. cbn. by rewrite <- ?app_assoc.
  - intros -> -> ->. cbn. by rewrite <- ?app_assoc.
  - intros Hraise response.
    pose proof (Hraise Simple) as H1. pose proof (Hraise Gemini) as H2.
    pose proof (Hraise ORTools) as H3. cbn [service] in H1, H2, H3.
    destruct (simple_service svc request) as [[s1|]|e1|].
    + cbn. intros [= <-]. discriminate.
    + destruct (gemini_service svc request) as [[s2|]|e2|].
      * cbn. intros [= <-]. discriminate.
      * destruct (vrp_service svc request) as [[s3|]|e3|].
        -- cbn. intros [= <-]. discriminate.
        -- done.
        -- exfalso. apply H3. by exists e3.
        -- cbn. discriminate.
      * exfalso. apply H2. by exists e2.
      * cbn. discriminate.
    + exfalso. apply H1. by exists e1.
    + cbn. discriminate.
Qed.

End Orchestration.

Lemma fallback_order_witness :
  exists s,
    fst (VRPController.solve_vrp Examples.services Examples.four_customers Examples.fresh)
      = Some (solved s) /\
    VRPController.invoked
      (snd (VRPController.solve_vrp Examples.services Examples.four_customers
              Examples.fresh))
      = [VRPController.Simple].
Proof.
  eexists.
  apply (proj1 (fallback_order Examples.services Examples.four_customers Examples.fresh
                  eq_refl)).
  vm_compute. reflexivity.
Defined.

(** ** The data of the constraint-programming strategy *)

Section DataPreparation.
Context `{PyFloat}.
Import VRPService.

Lemma create_data_model_inv request data :
  _create_data_model request = Ok data ->
  time_windows data =
    (if use_time_windows request
     then (0, 86400) :: (customer_window <$> customers request)
     else []).
Proof.
  unfold _create_data_model. intros Hd. bind_inv Hd. by injection Hd as <-.
Qed.

(** C4, amended. In the data of the constraint-programming strategy, when
    time windows are disabled the time-window array is empty, and the
    routing model has no time dimension and no range that would read it;
    when they are enabled the array has one pair for each node, (0, 86400)
    for the depot and for every customer without a time window. *)
Theorem time_windows_follow_the_flag (request : VRPRequest) (data : DataModel) :
  _create_data_model request = Ok data ->
  (use_time_windows request = false ->
   time_windows data = [] /\
   rm_dimensions (build_routing_model data request) = [capacity_dimension data] /\
   rm_cumul_ranges (build_routing_model data request) = []) /\
  (use_time_windows request = true ->
   length (time_windows data) = S (length (customers request)) /\
   time_windows data !! 0%nat = Some (0, 86400) /\
   forall i c,
     customers request !! i = Some c -> c_time_window c = None ->
     time_windows data !! S i = Some (0, 86400)).
Proof.
  intros Hd. apply create_data_model_inv in Hd. split; intros Hflag.
  - unfold build_routing_model. cbn [rm_dimensions rm_cumul_ranges].
    rewrite Hd, Hflag. by split_and!.
  - rewrite Hd, Hflag. split_and!.
    + cbn [length]. by rewrite length_fmap.
    + reflexivity.
    + intros i c Hc Hw. rewrite lookup_cons. rewrite list_lookup_fmap, Hc.
      cbn. unfold customer_window. by rewrite Hw.
Qed.

Lemma follow_flag data request b path : forall t,
  follow data (with_capacity_constraints b request) t path = follow data request t path.
Proof.
  induction path as [|[n a] path IH]; intros t; [reflexivity|].
  cbn [follow].
  change (step data (with_capacity_constraints b request) t n a)
    with (step data request t n a).
  destruct (step data request t n a _); [apply IH|reflexivity|reflexivity].
Qed.

Lemma create_route_flag i solution data request b :
  _create_route i solution data (with_capacity_constraints b request)
  = _create_route i solution data request.
Proof.
  unfold _create_route. cbn [vehicles depot with_capacity_constraints].
  destruct (py_index (vehicles request) i); [|reflexivity|reflexivity].
  cbv beta iota delta [mbind outcome_bind obind].
  destruct (py_index (paths solution) i); [|reflexivity|reflexivity].
  by rewrite follow_flag.
Qed.

Lemma keep_routes_flag solution data request b ids : forall k,
  keep_routes ids solution data (with_capacity_constraints b request) k
  = keep_routes ids solution data request k.
Proof.
  induction ids as [|i ids IH]; intros k; [reflexivity|].
  cbn [keep_routes]. rewrite create_route_flag.
  destruct (_create_route i solution data request); [|reflexivity|reflexivity].
  cbv beta iota delta [mbind outcome_bind obind].
  destruct (customer_stops _); [apply IH|].
  destruct (py_add _ _); [|reflexivity|reflexivity].
  destruct (py_add _ _); [|reflexivity|reflexivity].
  destruct (py_add _ _); [|reflexivity|reflexivity].
  apply IH.
Qed.

(** C5, amended. The constraint-programming strategy adds the capacity
    dimension (the demand of the node as transit, no slack, the capacities
    of the vehicles as bounds, a start at zero) to the routing model of
    every request: it does not read [use_capacity_constraints], and the
    model and the result are the same whatever the flag is. *)
Theorem capacity_dimension_always_added (solver : Solver) (data : DataModel)
    (request : VRPRequest) :
  In (AddDimensionWithVehicleCapacity (demands data) 0 (vehicle_capacities data)
        true "Capacity")
     (rm_dimensions (build_routing_model data request)) /\
  (forall b,
     build_routing_model data (with_capacity_constraints b request)
     = build_routing_model data request) /\
  (forall b,
     solve_vrp solver (with_capacity_constraints b request) = solve_vrp solver request).
Proof.
  split_and!.
  - left. reflexivity.
  - reflexivity.
  - intros b. unfold solve_vrp.
    change (_create_data_model (with_capacity_constraints b request))
      with (_create_data_model request).
    destruct (_create_data_model request) as [d| |]; [|reflexivity|reflexivity].
    cbv beta iota delta [mbind outcome_bind obind].
    change (_solve_with_ortools solver d (with_capacity_constraints b request))
      with (_solve_with_ortools solver d request).
    destruct (_solve_with_ortools solver d request) as [[solution|]| |];
      try reflexivity.
    unfold _format_solution. by rewrite keep_routes_flag.
Qed.

End DataPreparation.

Lemma time_windows_follow_the_flag_witness :
  exists data,
    VRPService._create_data_model Examples.overloaded = Ok data /\
    VRPService.time_windows data = [].
Proof.
  eexists. split; [vm_compute; reflexivity|].
  refine (proj1 (proj1 (time_windows_follow_the_flag Examples.overloaded _ _) _)).
  - vm_compute. reflexivity.
  - reflexivity.
Defined.

(** C4 as it is stated fails: with time windows disabled the array has no
    pair for the depot (nor for any customer). *)
Lemma disabled_time_windows_are_empty :
  use_time_windows Examples.overloaded = false /\
  exists data,
    VRPService._create_data_model Examples.overloaded = Ok data /\
    VRPService.time_windows data !! 0%nat <> Some (0, 86400).
Proof.
  split; [reflexivity|]. eexists. split; [vm_compute; reflexivity|].
  cbn. discriminate.
Qed.

(** C5 as it is stated fails: capacity constraints are disabled and the
    routing model has the capacity dimension all the same. *)
Lemma capacity_dimension_despite_flag :
  use_capacity_constraints Examples.unconstrained = false /\
  exists data,
    VRPService._create_data_model Examples.unconstrained = Ok data /\
    existsb is_capacity_dimension
      (VRPService.rm_dimensions (VRPService.build_routing_model data Examples.unconstrained))
    = true.
Proof.
  split; [reflexivity|]. eexists. split; [vm_compute; reflexivity|]. reflexivity.
Qed.

(** ** The vehicle of a reconciled route *)

Section Reconciliation.
Context `{PyFloat}.
Import GeminiVRPService.

Lemma match_vehicle_first vehicle_name vehicle_id pre v post :
  Forall (fun u => matches vehicle_name vehicle_id u = false) pre ->
  matches vehicle_name vehicle_id v = true ->
  match_vehicle vehicle_name vehicle_id (pre ++ v :: post) = Some v.
Proof.
  unfold matches. intros Hpre Hv. induction Hpre as [|u pre Hu _ IH].
  - cbn [app match_vehicle]. by rewrite Hv.
  - cbn [app match_vehicle]. by rewrite Hu.
Qed.

Lemma match_vehicle_none vehicle_name vehicle_id vs :
  Forall (fun u => matches vehicle_name vehicle_id u = false) vs ->
  match_vehicle vehicle_name vehicle_id vs = None.
Proof.
  unfold matches. induction 1 as [|u vs Hu _ IH]; [reflexivity|].
  cbn [match_vehicle]. by rewrite Hu.
Qed.

Lemma create_route_from_data_inv route_data request r :
  _create_route_from_data route_data request = Ok (Some r) ->
  exists vehicle_name vehicle_id v,
    py_get route_data "vehicle_id" (VStr "V001") = Ok vehicle_id /\
    py_get route_data "vehicle_name" (VStr "Araç") = Ok vehicle_name /\
    select_vehicle vehicle_name vehicle_id request = Ok v /\
    r_vehicle_id r = vehicle_id /\ r_vehicle_name r = vehicle_name /\
    r_vehicle_type r = v_type v /\ r_capacity r = v_capacity v.
Proof.
  unfold _create_route_from_data, try_except. intros Hr.
  match type of Hr with
  | match ?body with Ok _ => _ | Raise _ => _ | OutOfFuel => _ end = _ =>
      destruct body as [[r'|]| |] eqn:Eb; try discriminate Hr
  end.
  injection Hr as ->. bind_inv Eb. injection Eb as <-.
  eexists _, _, _.
  split_and!; first [reflexivity|eassumption].
Qed.

(** C8, amended. When the external adapter reconciles a returned route, it
    takes the first vehicle of the fleet, in the order of the list, whose
    name is the returned name or whose id is the returned id; when no
    vehicle matches either, it takes the first vehicle of the list. The
    route has the type and the capacity of that vehicle, and the id and the
    name of the reply. *)
Theorem first_vehicle_matching_name_or_id (vehicle_name vehicle_id : pyval)
    (request : VRPRequest) :
  (forall pre v post,
     vehicles request = pre ++ v :: post ->
     Forall (fun u => matches vehicle_name vehicle_id u = false) pre ->
     matches vehicle_name vehicle_id v = true ->
     select_vehicle vehicle_name vehicle_id request = Ok v) /\
  (forall v rest,
     vehicles request = v :: rest ->
     Forall (fun u => matches vehicle_name vehicle_id u = false) (vehicles request) ->
     select_vehicle vehicle_name vehicle_id request = Ok v) /\
  (forall route_data r,
     py_get route_data "vehicle_id" (VStr "V001") = Ok vehicle_id ->
     py_get route_data "vehicle_name" (VStr "Araç") = Ok vehicle_name ->
     _create_route_from_data route_data request = Ok (Some r) ->
     exists v,
       select_vehicle vehicle_name vehicle_id request = Ok v /\
       r_vehicle_id r = vehicle_id /\ r_vehicle_name r = vehicle_name /\
       r_vehicle_type r = v_type v /\ r_capacity r = v_capacity v).
Proof.
  split_and!.
  - intros pre v post Hvs Hpre Hv. unfold select_vehicle.
    by rewrite Hvs, (match_vehicle_first _ _ _ _ _ Hpre Hv).
  - intros v rest Hvs Hnone. unfold select_vehicle.
    rewrite (match_vehicle_none _ _ _ Hnone), Hvs. reflexivity.
  - intros route_data r Hid Hname Hr.
    apply create_route_from_data_inv in Hr
      as (name' & id' & v & Hid' & Hname' & Hsel & H1 & H2 & H3 & H4).
    rewrite Hid in Hid'. injection Hid' as <-.
    rewrite Hname in Hname'. injection Hname' as <-.
    by exists v.
Qed.

End Reconciliation.

Lemma first_vehicle_matching_name_or_id_witness :
  GeminiVRPService.select_vehicle (VStr "Bus") (VStr "X1") Examples.two_vehicles
  = Ok (GridFloat.vehicle "X1" "Van" 25).
Proof.
  apply (proj1 (first_vehicle_matching_name_or_id (VStr "Bus") (VStr "X1")
                  Examples.two_vehicles)
           [] (GridFloat.vehicle "X1" "Van" 25) [GridFloat.vehicle "X2" "Bus" 40]).
  - reflexivity.
  - constructor.
  - reflexivity.
Defined.

(** C8 as it is stated fails: the second vehicle has the returned name, the
    first has the returned id; the rule of the claim takes the second, the
    adapter takes the first, and the route has its capacity. *)
Lemma id_match_before_name_match :
  GeminiVRPService.select_vehicle (VStr "Bus") (VStr "X1") Examples.two_vehicles
    = Ok (GridFloat.vehicle "X1" "Van" 25) /\
  select_by_name_then_id (VStr "Bus") (VStr "X1") Examples.two_vehicles
    = Ok (GridFloat.vehicle "X2" "Bus" 40) /\
  GeminiVRPService.select_vehicle (VStr "Bus") (VStr "X1") Examples.two_vehicles
    <> select_by_name_then_id (VStr "Bus") (VStr "X1") Examples.two_vehicles /\
  exists r,
    GeminiVRPService._create_route_from_data
      (VDict [("vehicle_id", VStr "X1"); ("vehicle_name", VStr "Bus")])
      Examples.two_vehicles = Ok (Some r) /\
    r_capacity r = 25.
Proof.
  split_and!; [reflexivity|reflexivity|discriminate|].
  eexists. split; [vm_compute; reflexivity|reflexivity].
Qed.

(** * More properties of the code *)

(** ** The greedy strategy at the edges of its input *)

Section GreedyEdges.
Context `{PyFloat}.
Import SimpleVRPService.

(** X1. Without vehicles the greedy strategy returns null, whatever the
    customers are: the division by the size of the fleet raises and the
    exception is swallowed. *)
Theorem greedy_without_vehicles (fuel : nat) (request : VRPRequest) :
  vehicles request = [] -> solve_vrp fuel request = Ok None.
Proof.
  intros Hv. unfold solve_vrp, solve_body. rewrite Hv. reflexivity.
Qed.

Lemma assign_no_customers fuel depot nv k : forall vs i routes,
  assign fuel depot nv k i vs [] routes = Ok routes.
Proof.
  induction vs as [|v vs IH]; intros i routes; [reflexivity|].
  cbn [assign]. rewrite take_nil, drop_nil.
  destruct (i =? nv - 1); cbn [app]; apply IH.
Qed.

(** X2. Without customers, and with a vehicle, the greedy strategy returns
    a solution of status success that has no route: no vehicle used, no
    customer served, every total the integer 0. *)
Theorem greedy_without_customers (fuel : nat) (request : VRPRequest) :
  customers request = [] -> vehicles request <> [] ->
  solve_vrp fuel request =
  Ok (Some {| routes := [];
              sol_total_distance := VInt 0;
              sol_total_cost := VInt 0;
              sol_total_time := VInt 0;
              vehicles_used := VInt 0;
              customers_served := VInt 0;
              average_utilization := VInt 0;
              average_efficiency := VInt 0;
              solving_time := VFloat (f_div (f_of_Z 1) (f_of_Z 100));
              status := "success";
              sol_algorithm := "Simple Multi-Vehicle";
              timestamp := "2025-01-01T00:00:00" |}).
Proof.
  intros Hc Hv. unfold solve_vrp, solve_body. rewrite Hc.
  destruct (Z.of_nat (length (vehicles request)) =? 0) eqn:En.
  { apply Z.eqb_eq in En. destruct (vehicles request); [congruence|simpl in En; lia]. }
  cbv beta iota zeta delta [mbind outcome_bind obind].
  rewrite assign_no_customers. reflexivity.
Qed.

(** The shares are the customers, in their order, for every fleet that is
    not empty. *)
Lemma shares_concat nv k : forall vs i rem,
  i + Z.of_nat (length vs) = nv -> vs <> [] ->
  concat (snd <$> shares nv k i vs rem) = rem.
Proof.
  induction vs as [|v vs IH]; intros i rem Hnv Hne; [congruence|].
  cbn [shares]. destruct vs as [|v' vs].
  - replace (i =? nv - 1) with true by (simpl in Hnv; symmetry; apply Z.eqb_eq; lia).
    rewrite take_drop. destruct rem as [|c rem]; [reflexivity|].
    cbn. by rewrite app_nil_r.
  - replace (i =? nv - 1) with false
      by (cbn [length] in Hnv; symmetry; apply Z.eqb_neq; lia).
    assert (Hrest : concat (snd <$> shares nv k (i + 1) (v' :: vs) (drop k rem))
                    = drop k rem).
    { apply IH; [cbn [length] in *; lia|congruence]. }
    destruct (take k rem) as [|c mine] eqn:Etake.
    + rewrite Hrest. rewrite <- (take_drop k rem) at 2. by rewrite Etake.
    + rewrite fmap_cons. cbn [snd concat]. rewrite Hrest, <- Etake. apply take_drop.
Qed.

Lemma count_customer_stops_concat (rs : list Route) :
  count_customer_stops rs
  = Z.of_nat (length (concat ((fun r => customer_stops (r_stops r)) <$> rs))).
Proof.
  unfold count_customer_stops. induction rs as [|r rs IH]; [reflexivity|].
  rewrite !fmap_cons. cbn [foldr concat]. rewrite IH, length_app. lia.
Qed.

(** The number of shares: one for each vehicle, or one for each customer
    when they are fewer. *)
Lemma shares_length (n_customers : list Customer) (fleet : list Vehicle) :
  fleet <> [] ->
  length (shares (Z.of_nat (length fleet))
            (Z.to_nat (Z.max 1 (Z.of_nat (length n_customers) / Z.of_nat (length fleet))))
            0 fleet n_customers)
  = Nat.min (length n_customers) (length fleet).
Proof.
  intros Hne.
  destruct (le_lt_dec (length fleet) (length n_customers)) as [Hle|Hlt].
  - assert (Hnm : (1 <= length fleet <= length n_customers)%nat).
    { destruct fleet; [congruence|simpl in *; lia]. }
    destruct (share_size _ _ Hnm) as [Hk Hkm].
    destruct (shares_all (Z.of_nat (length fleet))
                (Z.to_nat (Z.max 1 (Z.of_nat (length n_customers)
                                    / Z.of_nat (length fleet))))
                fleet 0 n_customers) as [Hfst _]; auto.
    apply (f_equal length) in Hfst.
    rewrite length_fmap, numbered_length in Hfst. lia.
  - rewrite share_size_few by exact Hlt.
    rewrite shares_few by lia.
    rewrite length_zip_with, numbered_length. lia.
Qed.


End GreedyEdges.

Lemma greedy_without_vehicles_witness :
  SimpleVRPService.solve_vrp 3
    (GridFloat.request Examples.origin (customers Examples.four_customers) [])
  = Ok None.
Proof.
  apply (greedy_without_vehicles 3). reflexivity.
Defined.

Lemma greedy_without_customers_witness :
  exists sol,
    SimpleVRPService.solve_vrp 0
      (GridFloat.request Examples.origin [] (vehicles Examples.four_customers))
    = Ok (Some sol) /\ routes sol = [] /\ status sol = "success"%string.
Proof.
  eexists. split.
  - apply (greedy_without_customers 0); [reflexivity|discriminate].
  - split; reflexivity.
Defined.


(** ** The greedy strategy: how many customers each vehicle has *)

Section GreedySizes.
Context `{PyFloat}.
Import SimpleVRPService.

Lemma shares_sizes nv k : forall vs i rem,
  i + Z.of_nat (length vs) = nv -> vs <> [] ->
  (1 <= k)%nat -> (k * length vs <= length rem)%nat ->
  (fun share => length (snd share)) <$> shares nv k i vs rem
  = replicate (length vs - 1) k ++ [(length rem - (length vs - 1) * k)%nat].
Proof.
  induction vs as [|v vs IH]; intros i rem Hnv Hne Hk Hlen; [congruence|].
  cbn [shares]. destruct vs as [|v' vs].
  - replace (i =? nv - 1) with true by (simpl in Hnv; symmetry; apply Z.eqb_eq; lia).
    rewrite take_drop. destruct rem as [|c rem]; [simpl in Hlen; lia|].
    cbn. repeat f_equal; lia.
  - replace (i =? nv - 1) with false
      by (cbn [length] in Hnv; symmetry; apply Z.eqb_neq; lia).
    cbn [length] in Hlen.
    destruct (take k rem) as [|c mine] eqn:Etake.
    { apply (f_equal length) in Etake. rewrite length_take in Etake.
      simpl in Etake. nia. }
    rewrite fmap_cons, IH.
    + cbn [snd]. rewrite <- Etake, length_take, length_drop. cbn [length].
      replace (S (S (length vs)) - 1)%nat with (S (S (length vs) - 1)) by lia.
      cbn [replicate app]. f_equal; [nia|]. do 2 f_equal. nia.
    + cbn [length] in *. lia.
    + congruence.
    + exact Hk.
    + rewrite length_drop. cbn [length]. nia.
Qed.

Lemma built_routes_sizes depot rs sh :
  Forall2 (fun r share => built_route depot share r) rs sh ->
  (fun r => length (customer_stops (r_stops r))) <$> rs
  = (fun share => length (snd share)) <$> sh.
Proof.
  induction 1 as [|r share rs sh Hb _ IH]; [reflexivity|].
  rewrite !fmap_cons, IH. f_equal.
  destruct (built_route_customer_stops _ _ _ Hb) as (order & Hord & Hs).
  rewrite (Forall2_length _ _ _ Hs). by apply Permutation_length.
Qed.


End GreedySizes.


(** ** The greedy strategy: the nearest customer *)

Section Nearest.
Context `{PyFloat}.
Import SimpleVRPService.

Lemma ranked_spec (ds : list float) :
  ranked ds = true ->
  forall x y z, In x ds -> In y ds -> In z ds ->
    (f_lt x y = true -> f_lt y z = true -> f_lt x z = true) /\
    (f_lt x z = true -> f_lt y z = false -> f_lt x y = true).
Proof.
  unfold ranked. intros Hr x y z Hx Hy Hz.
  rewrite forallb_forall in Hr. specialize (Hr x Hx).
  rewrite forallb_forall in Hr. specialize (Hr y Hy).
  rewrite forallb_forall in Hr. specialize (Hr z Hz).
  apply andb_prop in Hr as [Ht Hn].
  destruct (f_lt x y), (f_lt y z), (f_lt x z); simpl in *; split; congruence.
Qed.

Lemma nearest_scan_order current : forall cs nearest m c d,
  (forall x y z, In x (m :: legs_from current cs) -> In y (m :: legs_from current cs) ->
                 In z (m :: legs_from current cs) ->
     (f_lt x y = true -> f_lt y z = true -> f_lt x z = true) /\
     (f_lt x z = true -> f_lt y z = false -> f_lt x y = true)) ->
  nearest_scan current cs nearest m = Ok (Some c, d) ->
  (nearest = Some c /\ d = m /\
   Forall (fun c' => exists d', _calculate_distance current (c_coordinate c') = Ok d' /\
                                f_lt d' m = false) cs)
  \/ (exists before after, cs = before ++ c :: after /\
        _calculate_distance current (c_coordinate c) = Ok d /\
        f_lt d m = true /\
        Forall (fun c' => exists d', _calculate_distance current (c_coordinate c') = Ok d' /\
                                     f_lt d d' = true) before /\
        Forall (fun c' => exists d', _calculate_distance current (c_coordinate c') = Ok d' /\
                                     f_lt d' d = false) after).
Proof.
  induction cs as [|c0 cs IH]; intros nearest m c d Hord Hscan.
  - injection Hscan as -> ->. left. repeat split. constructor.
  - cbn [nearest_scan] in Hscan.
    destruct (_calculate_distance current (c_coordinate c0)) as [d0| |] eqn:Hd0;
      cbv beta iota delta [mbind outcome_bind obind] in Hscan; try discriminate.
    assert (Hlegs : legs_from current (c0 :: cs) = d0 :: legs_from current cs).
    { unfold legs_from. cbn [omap list_omap]. by rewrite Hd0. }
    rewrite Hlegs in Hord.
    destruct (f_lt d0 m) eqn:Hlt.
    + apply IH in Hscan.
      2: { intros x y z Hx Hy Hz. apply Hord; right; assumption. }
      destruct Hscan as [(Hc & -> & Hrest)|(before & after & -> & Hd & Hdm & Hb & Ha)].
      * injection Hc as ->. right. exists [], cs. repeat split; auto.
      * right. exists (c0 :: before), after. repeat split; auto.
        -- assert (Hin : In d (legs_from current (before ++ c :: after))).
           { unfold legs_from. apply list_elem_of_In, list_elem_of_omap.
             exists c. split; [apply list_elem_of_In, in_elt|by rewrite Hd]. }
           destruct (Hord d d0 m) as [Htr _];
             [right; right; exact Hin|right; left; reflexivity|left; reflexivity|].
           auto.
        -- constructor; [|exact Hb]. exists d0. split; auto.
    + apply IH in Hscan.
      2: { intros x y z Hx Hy Hz.
           apply Hord; (destruct Hx as [<-|Hx]; [by left|by right; right])
                    || (destruct Hy as [<-|Hy]; [by left|by right; right])
                    || (destruct Hz as [<-|Hz]; [by left|by right; right]). }
      destruct Hscan as [(-> & -> & Hrest)|(before & after & -> & Hd & Hdm & Hb & Ha)].
      * left. repeat split. constructor; [|exact Hrest]. exists d0. split; auto.
      * right. exists (c0 :: before), after. repeat split; auto.
        constructor; [|exact Hb]. exists d0. split; [exact Hd0|].
        assert (Hin : In d (legs_from current (before ++ c :: after))).
        { unfold legs_from. apply list_elem_of_In, list_elem_of_omap.
          exists c. split; [apply list_elem_of_In, in_elt|by rewrite Hd]. }
        destruct (Hord d d0 m) as [_ Hco];
          [right; right; exact Hin|right; left; reflexivity|left; reflexivity|].
        auto.
Qed.

(** X5. The scan for the nearest customer returns the first customer of the
    list at the least distance from the current location: the customers
    before it are strictly farther and none after it is nearer, provided [<]
    ranks the distances and [float('inf')]. *)
Theorem nearest_scan_first_minimum (current : Coordinate) (cs : list Customer)
    (c : Customer) (d : float) :
  ranked (f_inf :: legs_from current cs) = true ->
  nearest_scan current cs None f_inf = Ok (Some c, d) ->
  exists before after,
    cs = before ++ c :: after /\
    _calculate_distance current (c_coordinate c) = Ok d /\
    Forall (fun c' => exists d', _calculate_distance current (c_coordinate c') = Ok d' /\
                                 f_lt d d' = true) before /\
    Forall (fun c' => exists d', _calculate_distance current (c_coordinate c') = Ok d' /\
                                 f_lt d' d = false) after.
Proof.
  intros Hr Hscan.
  destruct (nearest_scan_order current cs None f_inf c d (ranked_spec _ Hr) Hscan)
    as [(Hc & _)|(before & after & Hcs & Hd & _ & Hb & Ha)]; [discriminate|].
  exists before, after. auto.
Qed.

End Nearest.

Lemma nearest_scan_first_minimum_witness :
  exists before after,
    customers Examples.four_customers
    = before ++ GridFloat.customer "C2" "B" 4 0 10 :: after /\
    _calculate_distance (GridFloat.coord 4 0)
      (c_coordinate (GridFloat.customer "C2" "B" 4 0 10)) = Ok (GridFloat.Fin 0) /\
    Forall (fun c' => exists d',
              _calculate_distance (GridFloat.coord 4 0) (c_coordinate c') = Ok d' /\
              f_lt (GridFloat.Fin 0) d' = true) before /\
    Forall (fun c' => exists d',
              _calculate_distance (GridFloat.coord 4 0) (c_coordinate c') = Ok d' /\
              f_lt d' (GridFloat.Fin 0) = false) after.
Proof.
  apply (nearest_scan_first_minimum (GridFloat.coord 4 0)
           (customers Examples.four_customers)
           (GridFloat.customer "C2" "B" 4 0 10) (GridFloat.Fin 0)).
  - vm_compute. reflexivity.
  - vm_compute. reflexivity.
Defined.

(** ** Loads along a route *)

Section Loads.
Context `{PyFloat}.

Lemma stops_demand_app (l1 l2 : list RouteStop) :
  stops_demand (l1 ++ l2) = stops_demand l1 + stops_demand l2.
Proof.
  unfold stops_demand. induction l1 as [|s l1 IH]; csimpl; [reflexivity|].
  rewrite IH. lia.
Qed.

Lemma running_load_app (carried : Z) (l1 l2 : list RouteStop) :
  running_load carried (l1 ++ l2)
  <-> running_load carried l1 /\ running_load (carried + stops_demand l1) l2.
Proof.
  revert carried. induction l1 as [|s l1 IH]; intros carried; cbn [app running_load].
  - unfold stops_demand. csimpl. rewrite Z.add_0_r. tauto.
  - rewrite IH.
    replace (carried + stops_demand (s :: l1))
      with (carried + s_demand s + stops_demand l1)
      by (unfold stops_demand; csimpl; lia).
    tauto.
Qed.

(** Stops other than visits of customers carry no demand. *)
Lemma stops_demand_customer_stops (stops : list RouteStop) :
  Forall (fun s => s_type s = "customer"%string \/ s_demand s = 0) stops ->
  stops_demand (customer_stops stops) = stops_demand stops.
Proof.
  unfold customer_stops, stops_demand.
  induction 1 as [|s stops Hs _ IH]; [reflexivity|].
  rewrite filter_cons. destruct (decide (s_type s = "customer"%string)) as [Hty|Hty].
  - csimpl. by rewrite IH.
  - csimpl. rewrite IH. destruct Hs as [Hs|Hs]; [contradiction|lia].
Qed.

Lemma visit_running fuel : forall w cs w',
  SimpleVRPService.visit fuel w cs = Ok w' ->
  running_load 0 (SimpleVRPService.w_stops w) ->
  stops_demand (SimpleVRPService.w_stops w) = SimpleVRPService.w_total_load w ->
  running_load 0 (SimpleVRPService.w_stops w') /\
  stops_demand (SimpleVRPService.w_stops w') = SimpleVRPService.w_total_load w'.
Proof.
  induction fuel as [|fuel IH]; intros w cs w' Hv Hrun Hsum.
  - destruct cs; [|discriminate Hv]. injection Hv as <-. by split.
  - destruct cs as [|c0 cs]; [injection Hv as <-; by split|].
    cbn [SimpleVRPService.visit] in Hv.
    destruct (SimpleVRPService.nearest_scan _ (c0 :: cs) None f_inf)
      as [[nearest d]| |]; try discriminate Hv.
    cbv beta iota delta [mbind outcome_bind obind] in Hv.
    destruct nearest as [c|]; [|exact (IH _ _ _ Hv Hrun Hsum)].
    destruct (SimpleVRPService.leg_minutes d) as [minutes| |]; try discriminate Hv.
    destruct (py_remove c (c0 :: cs)) as [rest|]; try discriminate Hv.
    cbn [or_raise] in Hv. apply IH in Hv; [exact Hv| |];
      cbn [SimpleVRPService.w_stops SimpleVRPService.w_total_load].
    + apply running_load_app. split; [exact Hrun|].
      cbn [running_load SimpleVRPService.customer_stop s_load s_demand].
      rewrite Z.add_0_l, Hsum. by split.
    + rewrite stops_demand_app, Hsum. unfold stops_demand. csimpl. lia.
Qed.

Lemma create_simple_route_running fuel i v cs depot r :
  SimpleVRPService._create_simple_route fuel i v cs depot = Ok r ->
  running_load 0 (r_stops r) /\ r_total_load r = VInt (stops_demand (r_stops r)).
Proof.
  unfold SimpleVRPService._create_simple_route. intros Hr. bind_inv Hr.
  injection Hr as <-. cbn [r_stops r_total_load].
  match goal with E : SimpleVRPService.visit _ _ _ = Ok _ |- _ =>
    apply visit_running in E as [Hrun Hsum] end;
    cbn [SimpleVRPService.w_stops SimpleVRPService.w_total_load].
  - split.
    + apply running_load_app. split; [exact Hrun|].
      cbn [running_load depot_stop s_load s_demand].
      rewrite Z.add_0_l, Z.add_0_r, Hsum. by split.
    + rewrite stops_demand_app, Hsum. unfold stops_demand. csimpl. f_equal. lia.
  - cbn [running_load depot_stop s_load s_demand]. by split.
  - reflexivity.
Qed.

(** X6. In every route of the greedy strategy the load of a stop is the
    demand of the stops up to it, itself included (the depot stops have
    demand 0), and the load of the route is the demand of all its stops. *)
Theorem greedy_loads_accumulate (fuel : nat) (request : VRPRequest) (sol : VRPSolution) :
  SimpleVRPService.solve_vrp fuel request = Ok (Some sol) ->
  Forall (fun r => running_load 0 (r_stops r) /\
                   r_total_load r = VInt (stops_demand (r_stops r)))
         (routes sol).
Proof.
  intros Hsol. apply solve_vrp_inv in Hsol as (rs & Hassign & ->).
  eapply assign_inv in Hassign; [exact Hassign| |constructor].
  intros i v cs r. apply create_simple_route_running.
Qed.

Lemma step_running data request t n a nx t' :
  VRPService.step data request t n a nx = Ok t' ->
  running_load 0 (VRPService.t_stops t) ->
  stops_demand (VRPService.t_stops t) = VRPService.t_route_load t ->
  Forall (fun s => s_type s = "customer"%string \/ s_demand s = 0) (VRPService.t_stops t) ->
  running_load 0 (VRPService.t_stops t') /\
  stops_demand (VRPService.t_stops t') = VRPService.t_route_load t' /\
  Forall (fun s => s_type s = "customer"%string \/ s_demand s = 0) (VRPService.t_stops t').
Proof.
  unfold VRPService.step. intros Hs Hrun Hsum Hty.
  destruct (n =? 0).
  - bind_inv Hs. injection Hs as <-.
    cbn [VRPService.t_stops VRPService.t_route_load]. split_and!.
    + apply running_load_app. split; [exact Hrun|].
      cbn [running_load depot_stop s_load s_demand].
      rewrite Z.add_0_l, Z.add_0_r, Hsum. by split.
    + rewrite stops_demand_app, Hsum. unfold stops_demand. csimpl. lia.
    + apply Forall_app. split; [exact Hty|]. constructor; [by right|constructor].
  - bind_inv Hs.
    match goal with p : (RouteStop * Z * Z)%type |- _ => destruct p as [[stop load] time] end.
    bind_inv Hs. injection Hs as <-.
    match goal with E : match py_index _ _ with _ => _ end = Ok (stop, load, time) |- _ =>
      destruct (py_index (customers request) (n - 1)) as [customer| |];
        try discriminate E; injection E as <- <- <- end.
    cbn [VRPService.t_stops VRPService.t_route_load]. split_and!.
    + apply running_load_app. split; [exact Hrun|].
      cbn [running_load s_load s_demand]. rewrite Z.add_0_l, Hsum. by split.
    + rewrite stops_demand_app, Hsum. unfold stops_demand. csimpl. lia.
    + apply Forall_app. split; [exact Hty|]. constructor; [by left|constructor].
Qed.

Lemma follow_running data request path : forall t t',
  VRPService.follow data request t path = Ok t' ->
  running_load 0 (VRPService.t_stops t) ->
  stops_demand (VRPService.t_stops t) = VRPService.t_route_load t ->
  Forall (fun s => s_type s = "customer"%string \/ s_demand s = 0) (VRPService.t_stops t) ->
  running_load 0 (VRPService.t_stops t') /\
  stops_demand (VRPService.t_stops t') = VRPService.t_route_load t' /\
  Forall (fun s => s_type s = "customer"%string \/ s_demand s = 0) (VRPService.t_stops t').
Proof.
  induction path as [|[n a] path IH]; intros t t' Hf Hrun Hsum Hty.
  - injection Hf as <-. by split_and!.
  - cbn [VRPService.follow] in Hf.
    destruct (VRPService.step data request t n a _) as [t1| |] eqn:Es; try discriminate Hf.
    cbv beta iota delta [mbind outcome_bind obind] in Hf.
    destruct (step_running _ _ _ _ _ _ _ Es Hrun Hsum Hty) as (Hrun1 & Hsum1 & Hty1).
    exact (IH _ _ Hf Hrun1 Hsum1 Hty1).
Qed.

Lemma create_route_running i solution data request r :
  VRPService._create_route i solution data request = Ok r ->
  running_load 0 (r_stops r) /\ load_is_demand r.
Proof.
  unfold VRPService._create_route. intros Hr. bind_inv Hr. injection Hr as <-.
  unfold load_is_demand. cbn [r_stops r_total_load].
  match goal with E : VRPService.follow _ _ _ _ = Ok _ |- _ =>
    apply follow_running in E as (Hrun & Hsum & Hty) end;
    cbn [VRPService.t_stops VRPService.t_route_load];
    [|exact I|reflexivity|constructor].
  split.
  - apply running_load_app. split; [exact Hrun|].
    cbn [running_load depot_stop s_load s_demand].
    rewrite Z.add_0_l, Z.add_0_r, Hsum. by split.
  - rewrite stops_demand_customer_stops.
    + rewrite stops_demand_app, Hsum. unfold stops_demand. csimpl. f_equal. lia.
    + apply Forall_app. split; [exact Hty|]. constructor; [by right|constructor].
Qed.

(** X7. In every route of the constraint-programming strategy, whatever
    the solver assigned, the load of a stop is the demand of the stops up to
    it, itself included, and the load of the route is the demand of its
    customer stops. *)
Theorem cp_loads_accumulate (solver : VRPService.Solver) (request : VRPRequest)
    (sol : VRPSolution) :
  VRPService.solve_vrp solver request = Ok (Some sol) ->
  Forall (fun r => running_load 0 (r_stops r) /\ load_is_demand r) (routes sol).
Proof.
  intros Hsol. apply solve_vrp_cp_inv in Hsol as (data & solution & _ & _ & Hfmt).
  apply format_solution_routes in Hfmt as (k & Hkeep & ->).
  eapply keep_routes_inv in Hkeep; [exact Hkeep| |constructor].
  intros i r. apply create_route_running.
Qed.

End Loads.

Lemma greedy_loads_accumulate_witness :
  exists sol,
    SimpleVRPService.solve_vrp 4 Examples.four_customers = Ok (Some sol) /\
    Forall (fun r => running_load 0 (r_stops r) /\
                     r_total_load r = VInt (stops_demand (r_stops r)))
           (routes sol).
Proof.
  eexists. split; [vm_compute; reflexivity|].
  apply (greedy_loads_accumulate 4 Examples.four_customers). vm_compute. reflexivity.
Defined.

Lemma cp_loads_accumulate_witness :
  exists sol,
    VRPService.solve_vrp Examples.solver Examples.overloaded = Ok (Some sol) /\
    Forall (fun r => running_load 0 (r_stops r) /\ load_is_demand r) (routes sol).
Proof.
  eexists. split; [vm_compute; reflexivity|].
  apply (cp_loads_accumulate Examples.solver Examples.overloaded). vm_compute. reflexivity.
Defined.

(** ** The greedy strategy: the order of the visits *)

Section NearestFirst.
Context `{PyFloat}.
Import SimpleVRPService.

Lemma py_remove_first {A} `{EqDecision A} (x : A) (before after : list A) :
  x ∉ before -> py_remove x (before ++ x :: after) = Some (before ++ after).
Proof.
  induction before as [|y before IH]; intros Hx; cbn [app py_remove].
  - by rewrite decide_True.
  - apply not_elem_of_cons in Hx as [Hne Hx].
    rewrite decide_False by congruence. by rewrite (IH Hx).
Qed.

Lemma visit_nearest_first (ds : list float) :
  In f_inf ds ->
  (forall x y z, In x ds -> In y ds -> In z ds ->
     (f_lt x y = true -> f_lt y z = true -> f_lt x z = true) /\
     (f_lt x z = true -> f_lt y z = false -> f_lt x y = true)) ->
  (forall x, In x ds -> f_lt x x = false) ->
  forall fuel w cs w',
    legs_among ds (w_current_location w :: (c_coordinate <$> cs)) cs ->
    visit fuel w cs = Ok w' ->
    exists order new,
      nearest_first (w_current_location w) cs order /\
      w_stops w' = w_stops w ++ new /\
      Forall2 serves new order.
Proof.
  intros Hinf Hord Hirr.
  induction fuel as [|fuel IH]; intros w cs w' Hlegs Hv.
  - destruct cs; [|discriminate Hv]. injection Hv as <-.
    exists [], []. rewrite app_nil_r. split_and!; [constructor|done|constructor].
  - destruct cs as [|c0 cs].
    { injection Hv as <-. exists [], []. rewrite app_nil_r.
      split_and!; [constructor|done|constructor]. }
    cbn [visit] in Hv.
    destruct (nearest_scan (w_current_location w) (c0 :: cs) None f_inf)
      as [[nearest d]| |] eqn:Escan; try discriminate Hv.
    cbv beta iota delta [mbind outcome_bind obind] in Hv.
    destruct nearest as [c|]; [|exact (IH _ _ _ Hlegs Hv)].
    destruct (leg_minutes d) as [minutes| |]; try discriminate Hv.
    destruct (py_remove c (c0 :: cs)) as [remaining|] eqn:Erem; try discriminate Hv.
    cbn [or_raise] in Hv.
    assert (Hsub : forall x, In x (f_inf :: legs_from (w_current_location w) (c0 :: cs)) ->
                             In x ds).
    { intros x [<-|Hx]; [exact Hinf|].
      apply list_elem_of_In, list_elem_of_omap in Hx as (c' & Hc' & Hd').
      destruct (_calculate_distance _ _) as [d'| |] eqn:Ed'; try discriminate Hd'.
      injection Hd' as ->. eapply Hlegs; [by left|exact Hc'|exact Ed']. }
    apply nearest_scan_order in Escan.
    2: { intros x y z Hx Hy Hz. apply Hord; by apply Hsub. }
    destruct Escan as [(Hc & _)|(before & after & Hcs & Hd & _ & Hb & Ha)];
      [discriminate Hc|].
    assert (Hnot : c ∉ before).
    { intros Hin. rewrite Forall_forall in Hb.
      destruct (Hb c Hin) as (d' & Hd' & Hlt).
      assert (d' = d) as -> by congruence.
      rewrite Hirr in Hlt; [discriminate Hlt|].
      eapply Hlegs; [by left| |exact Hd]. rewrite Hcs. apply list_elem_of_In, in_elt. }
    rewrite Hcs, (py_remove_first _ _ _ Hnot) in Erem. injection Erem as <-.
    apply IH in Hv.
    + destruct Hv as (order & new & Horder & Hst & Hall).
      cbn [w_stops w_current_location] in Horder, Hst.
      exists (c :: order), (customer_stop w c :: new). split_and!.
      * rewrite Hcs. by econstructor.
      * rewrite Hst. by rewrite <- app_assoc.
      * constructor; [by split_and!|exact Hall].
    + cbn [w_current_location]. intros a c' d' Ha' Hc' Hd'.
      assert (Hc'' : c' ∈ c0 :: cs).
      { rewrite Hcs. apply elem_of_app in Hc' as [Hc'|Hc'];
          apply elem_of_app; [by left|right; by right]. }
      eapply Hlegs; [|exact Hc''|exact Hd'].
      right. apply elem_of_cons in Ha' as [->|Ha'].
      * apply list_elem_of_fmap. exists c. split; [reflexivity|].
        rewrite Hcs. apply list_elem_of_In, in_elt.
      * apply list_elem_of_fmap in Ha' as (c'' & -> & Hc3).
        apply list_elem_of_fmap. exists c''. split; [reflexivity|].
        rewrite Hcs. apply elem_of_app in Hc3 as [Hc3|Hc3];
          apply elem_of_app; [by left|right; by right].
Qed.

Lemma assign_shares fuel depot nv k : forall vs i rem routes rs,
  assign fuel depot nv k i vs rem routes = Ok rs ->
  exists new,
    rs = routes ++ new /\
    Forall2 (fun r share =>
               _create_simple_route fuel (fst (fst share)) (snd (fst share)) (snd share) depot
               = Ok r)
            new (shares nv k i vs rem).
Proof.
  induction vs as [|v vs IH]; intros i rem routes rs Ha.
  - injection Ha as <-. exists []. rewrite app_nil_r. split; [done|constructor].
  - cbn [assign shares] in Ha |- *.
    destruct (if i =? nv - 1
              then (take k rem ++ drop k rem, [])
              else (take k rem, drop k rem)) as [mine rest].
    destruct mine as [|c mine].
    + by apply IH in Ha.
    + destruct (_create_simple_route fuel i v (c :: mine) depot) as [route| |] eqn:Er;
        cbv beta iota delta [mbind outcome_bind obind] in Ha; try discriminate Ha.
      apply IH in Ha as (new & -> & Hall).
      exists (route :: new). split; [by rewrite <- app_assoc|]. by constructor.
Qed.

Lemma shares_sub nv k : forall vs i rem share c,
  share ∈ shares nv k i vs rem -> c ∈ snd share -> c ∈ rem.
Proof.
  induction vs as [|v vs IH]; intros i rem share c Hs Hc; [by apply elem_of_nil in Hs|].
  cbn [shares] in Hs.
  destruct (i =? nv - 1).
  - rewrite take_drop in Hs. destruct rem as [|c0 rem].
    + rewrite shares_nil in Hs. by apply elem_of_nil in Hs.
    + apply elem_of_cons in Hs as [->|Hs]; [exact Hc|].
      rewrite shares_nil in Hs. by apply elem_of_nil in Hs.
  - assert (Hrest : forall x, x ∈ drop k rem -> x ∈ rem).
    { intros x Hx. eapply elem_of_sublist; [exact Hx|apply sublist_drop]. }
    destruct (take k rem) as [|c0 mine] eqn:Etake.
    + apply Hrest. by eapply IH.
    + apply elem_of_cons in Hs as [->|Hs].
      * cbn [snd] in Hc. rewrite <- Etake in Hc.
        eapply elem_of_sublist; [exact Hc|apply sublist_take].
      * apply Hrest. by eapply IH.
Qed.

(** X8. Every vehicle of the greedy strategy visits its customers nearest
    first: from the depot the first of its customers at the least distance,
    from there the first of the others at the least distance, and so on,
    provided [<] ranks the distances of the request. *)
Theorem greedy_visits_nearest_first (fuel : nat) (request : VRPRequest)
    (sol : VRPSolution) :
  ranked_legs request = true ->
  solve_vrp fuel request = Ok (Some sol) ->
  Forall2 (fun r share =>
             exists order visits final,
               nearest_first (depot request) (snd share) order /\
               r_stops r = depot_stop (depot request) (VInt 0) "08:00" "08:00"
                           :: visits ++ [final] /\
               Forall2 serves visits order)
          (routes sol)
          (shares (Z.of_nat (length (vehicles request)))
             (Z.to_nat (Z.max 1 (Z.of_nat (length (customers request))
                                 / Z.of_nat (length (vehicles request)))))
             0 (vehicles request) (customers request)).
Proof.
  intros Hr Hsol. unfold ranked_legs in Hr. cbv zeta in Hr.
  apply andb_prop in Hr as [Hrank Hirr].
  apply solve_vrp_inv in Hsol as (rs & Hassign & ->).
  apply assign_shares in Hassign as (new & -> & Hall). cbn [app].
  apply Forall2_same_length_lookup. split; [by eapply Forall2_length|].
  intros j r [[i v] cs] Hjr Hjs.
  pose proof (Forall2_lookup_lr _ _ _ _ _ _ Hall Hjr Hjs) as Hroute.
  pose proof (list_elem_of_lookup_2 _ _ _ Hjs) as Hshare.
  clear Hall Hjr Hjs. cbn [fst snd] in *.
  unfold _create_simple_route in Hroute. bind_inv Hroute. injection Hroute as <-.
  cbn [r_stops].
  match goal with E : visit _ _ _ = Ok _ |- _ =>
    apply (visit_nearest_first (f_inf :: request_legs request)) in E end.
  - destruct E as (order & visits & Horder & Hst & Hserves).
    cbn [w_stops w_current_location] in Horder, Hst.
    exists order, visits. eexists. split_and!; [exact Horder| |exact Hserves].
    rewrite Hst. reflexivity.
  - by left.
  - by apply ranked_spec.
  - intros x Hx. rewrite forallb_forall in Hirr. apply negb_true_iff. by apply Hirr.
  - cbn [w_current_location]. intros loc c leg Hloc Hc Hleg. right.
    unfold request_legs. apply in_flat_map.
    assert (Hcin : c ∈ customers request) by (eapply shares_sub; [exact Hshare|exact Hc]).
    exists loc. split.
    + apply list_elem_of_In. unfold locations.
      apply elem_of_cons in Hloc as [->|Hloc]; [by left|right].
      apply list_elem_of_fmap in Hloc as (c' & -> & Hc').
      apply list_elem_of_fmap. exists c'. split; [reflexivity|].
      eapply shares_sub; [exact Hshare|exact Hc'].
    + unfold legs_from. apply list_elem_of_In, list_elem_of_omap.
      exists c. split; [exact Hcin|by rewrite Hleg].
Qed.

End NearestFirst.
Lemma greedy_visits_nearest_first_witness :
  exists sol,
    SimpleVRPService.solve_vrp 4 Examples.four_customers = Ok (Some sol) /\
    Forall2 (fun r share =>
               exists order visits final,
                 nearest_first (depot Examples.four_customers) (snd share) order /\
                 r_stops r = depot_stop (depot Examples.four_customers) (VInt 0)
                               "08:00" "08:00" :: visits ++ [final] /\
                 Forall2 serves visits order)
            (routes sol)
            (shares (Z.of_nat (length (vehicles Examples.four_customers)))
               (Z.to_nat (Z.max 1 (Z.of_nat (length (customers Examples.four_customers))
                                   / Z.of_nat (length (vehicles Examples.four_customers)))))
               0 (vehicles Examples.four_customers) (customers Examples.four_customers)).
Proof.
  eexists. split; [vm_compute; reflexivity|].
  apply (greedy_visits_nearest_first 4 Examples.four_customers).
  - vm_compute. reflexivity.
  - vm_compute. reflexivity.
Defined.

(** ** Clock times: formatting and reading back *)

Lemma parse_digits_uint (d : Decimal.uint) : forall acc prev,
  d <> Decimal.Nil \/ prev = true ->
  parse_digits (NilEmpty.string_of_uint d) acc prev = Some (uint_value d acc).
Proof.
  induction d; intros acc prev Hd;
    try (cbn [NilEmpty.string_of_uint parse_digits uint_value];
         match goal with |- context [is_digit ?c] => change (is_digit c) with true end;
         cbv iota;
         match goal with |- context [digit_value ?c] =>
           let v := eval vm_compute in (digit_value c) in change (digit_value c) with v end;
         apply IHd; right; reflexivity).
  destruct Hd as [Hd| ->]; [congruence|reflexivity].
Qed.

Lemma of_uint_acc_value (d : Decimal.uint) : forall acc,
  Z.pos (Pos.of_uint_acc d acc) = uint_value d (Z.pos acc).
Proof.
  induction d; intros acc; cbn [Pos.of_uint_acc uint_value];
    try reflexivity; rewrite IHd; f_equal; lia.
Qed.

Lemma of_uint_value (d : Decimal.uint) : Z.of_N (Pos.of_uint d) = uint_value d 0.
Proof.
  induction d; cbn [Pos.of_uint uint_value]; try reflexivity; try exact IHd;
    cbn [Z.of_N]; rewrite of_uint_acc_value; reflexivity.
Qed.

Lemma all_digits_uint (d : Decimal.uint) : all_digits (NilEmpty.string_of_uint d) = true.
Proof. induction d; cbn [NilEmpty.string_of_uint all_digits]; auto. Qed.

Lemma all_digits_digits_of (n : N) : all_digits (digits_of n) = true.
Proof.
  unfold digits_of, NilZero.string_of_uint.
  destruct (N.to_uint n); try reflexivity; apply all_digits_uint.
Qed.

Lemma string_app_cons (c : ascii) (a b : string) :
  (String c a ++ b)%string = String c (a ++ b).
Proof. reflexivity. Qed.

Lemma string_app_nil (b : string) : (EmptyString ++ b)%string = b.
Proof. reflexivity. Qed.

Lemma all_digits_app (a b : string) :
  all_digits (a ++ b) = all_digits a && all_digits b.
Proof.
  induction a as [|c a IH]; [reflexivity|].
  rewrite string_app_cons. cbn [all_digits]. rewrite IH. by rewrite andb_assoc.
Qed.

Lemma all_digits_zeros (k : nat) : all_digits (zeros k) = true.
Proof. induction k; cbn; auto. Qed.

Lemma is_digit_plain c :
  is_digit c = true ->
  is_space c = false /\ Ascii.eqb c ":" = false /\ Ascii.eqb c "-" = false
  /\ Ascii.eqb c "+" = false.
Proof.
  intros Hd. apply is_digit_chars in Hd. simpl in Hd.
  repeat (destruct Hd as [<-|Hd]; [by vm_compute|]). contradiction.
Qed.

Lemma rstrip_digits (s : string) : all_digits s = true -> rstrip s = s.
Proof.
  induction s as [|c s IH]; [reflexivity|]. cbn [all_digits rstrip].
  intros [Hc Hs]%andb_prop. rewrite (IH Hs).
  destruct (is_digit_plain c Hc) as (-> & _). by destruct s.
Qed.

Lemma strip_digits (s : string) : all_digits s = true -> strip s = s.
Proof.
  intros Hs. unfold strip.
  assert (Hl : lstrip s = s).
  { destruct s as [|c s]; [reflexivity|]. cbn [lstrip].
    apply andb_prop in Hs as [Hc _]. by destruct (is_digit_plain c Hc) as (-> & _). }
  rewrite Hl. by apply rstrip_digits.
Qed.

Lemma split_on_digits (s : string) : all_digits s = true -> split_on ":" s = [s].
Proof.
  induction s as [|c s IH]; [reflexivity|]. cbn [all_digits split_on].
  intros [Hc Hs]%andb_prop. rewrite (IH Hs).
  by destruct (is_digit_plain c Hc) as (_ & -> & _).
Qed.

Lemma split_on_colon (a b : string) :
  all_digits a = true -> all_digits b = true ->
  split_on ":" (a ++ ":" ++ b) = [a; b].
Proof.
  intros Ha Hb. induction a as [|c a IH].
  - rewrite string_app_nil, string_app_cons. cbn [split_on].
    change (Ascii.eqb ":" ":") with true. cbv iota. by rewrite split_on_digits.
  - cbn [all_digits] in Ha. apply andb_prop in Ha as [Hc Ha].
    rewrite string_app_cons. cbn [split_on]. rewrite (IH Ha).
    by destruct (is_digit_plain c Hc) as (_ & -> & _).
Qed.

Lemma parse_digits_zeros (k : nat) (s : string) : forall prev,
  parse_digits (zeros k ++ s) 0 prev
  = parse_digits s 0 (prev || negb (k =? 0)%nat).
Proof.
  induction k as [|k IH]; intros prev.
  - cbn [zeros]. rewrite string_app_nil. cbn. by rewrite orb_false_r.
  - cbn [zeros]. rewrite string_app_cons. cbn [parse_digits].
    change (is_digit "0") with true. cbv iota.
    change (10 * 0 + digit_value "0") with 0. rewrite IH.
    cbn. by rewrite orb_true_r.
Qed.

Lemma digits_of_value (n : N) : forall prev,
  parse_digits (digits_of n) 0 prev = Some (Z.of_N n).
Proof.
  intros prev. unfold digits_of, NilZero.string_of_uint.
  rewrite <- (DecimalN.Unsigned.of_to n) at 2. unfold N.of_uint.
  rewrite of_uint_value.
  destruct (N.to_uint n) eqn:Ed; try (apply parse_digits_uint; left; discriminate).
  reflexivity.
Qed.

Lemma format_0d_digits (width : nat) (z : Z) :
  0 <= z -> all_digits (format_0d width z) = true.
Proof.
  intros Hz. unfold format_0d.
  replace (z <? 0) with false by (symmetry; apply Z.ltb_ge; lia).
  rewrite string_app_nil, all_digits_app, all_digits_zeros, all_digits_digits_of.
  reflexivity.
Qed.

(** [int] reads what the format [0<width>d] writes. *)
Lemma py_int_format_0d (width : nat) (z : Z) :
  0 <= z -> py_int (format_0d width z) = Some z.
Proof.
  intros Hz. unfold py_int. rewrite strip_digits by (by apply format_0d_digits).
  assert (Hp : parse_digits (format_0d width z) 0 false = Some z).
  { unfold format_0d.
    replace (z <? 0) with false by (symmetry; apply Z.ltb_ge; lia).
    rewrite string_app_nil, parse_digits_zeros, digits_of_value. f_equal. lia. }
  pose proof (format_0d_digits width z Hz) as Hd.
  destruct (format_0d width z) as [|c r]; [exact Hp|].
  cbn [all_digits] in Hd. apply andb_prop in Hd as [Hc _].
  apply is_digit_chars in Hc. simpl in Hc.
  repeat (destruct Hc as [<-|Hc]; [exact Hp|]). contradiction.
Qed.

Section ClockTimes.
Context `{PyFloat}.

Lemma time_to_seconds_format (h m : Z) :
  0 <= h -> 0 <= m ->
  VRPService._time_to_seconds (format_0d 2 h ++ ":" ++ format_0d 2 m)
  = h * 3600 + m * 60.
Proof.
  intros Hh Hm. unfold VRPService._time_to_seconds.
  rewrite split_on_colon by (by apply format_0d_digits).
  by rewrite !py_int_format_0d.
Qed.

(** X9. Reading back a formatted number of seconds gives the seconds of
    its whole minutes: the seconds within the minute are dropped. *)
Theorem seconds_to_time_reads_back (seconds : Z) :
  0 <= seconds ->
  VRPService._time_to_seconds (VRPService._seconds_to_time seconds)
  = seconds - seconds mod 60.
Proof.
  intros Hs. unfold VRPService._seconds_to_time. cbv zeta.
  rewrite time_to_seconds_format.
  - pose proof (Z.div_mod seconds 3600 ltac:(lia)) as H1.
    pose proof (Z.div_mod (seconds mod 3600) 60 ltac:(lia)) as H2.
    pose proof (Z.div_mod seconds 60 ltac:(lia)) as H3.
    pose proof (Z.mod_pos_bound (seconds mod 3600) 60 ltac:(lia)).
    pose proof (Z.mod_pos_bound seconds 60 ltac:(lia)).
    lia.
  - apply Z.div_pos; lia.
  - apply Z.div_pos; [|lia]. apply Z.mod_pos_bound. lia.
Qed.

(** X10. The clock of the constraint-programming strategy, in seconds, and
    the clock of the greedy strategy, in minutes, print the same text. *)
Theorem seconds_and_minutes_agree (seconds : Z) :
  VRPService._seconds_to_time seconds
  = SimpleVRPService._minutes_to_time (seconds / 60).
Proof.
  unfold VRPService._seconds_to_time, SimpleVRPService._minutes_to_time. cbv zeta.
  rewrite Z.div_div by lia. change (60 * 60) with 3600.
  replace ((seconds mod 3600) / 60) with ((seconds / 60) mod 60); [reflexivity|].
  change 3600 with (60 * 60). rewrite Z.rem_mul_r by lia.
  rewrite (Z.mul_comm 60 ((seconds / 60) mod 60)), Z.div_add by lia.
  rewrite (Z.div_small (seconds mod 60)); [lia|apply Z.mod_pos_bound; lia].
Qed.

End ClockTimes.

(** ** Clock times and the validation *)

Lemma within_day_table :
  forallb (fun h1 => forallb (fun h2 => forallb (fun m1 => forallb (fun m2 =>
    within_day (hhmm h1 h2 m1 m2)) digit_chars) digit_chars) digit_chars) digit_chars
  = true.
Proof. vm_compute. reflexivity. Qed.

Lemma valid_HHMM_within_day (s : string) :
  valid_HHMM s = true ->
  ValidationService._is_valid_time s = true /\ VRPService._time_to_seconds s <= 86340.
Proof.
  intros Hv.
  destruct s as [|h1 [|h2 [|c [|m1 [|m2 [|? ?]]]]]]; try discriminate Hv.
  pose proof Hv as Hd. unfold valid_HHMM in Hd.
  apply andb_prop in Hd as [Hd _]. apply andb_prop in Hd as [Hd _].
  apply andb_prop in Hd as [Hd Dm2]. apply andb_prop in Hd as [Hd Dm1].
  apply andb_prop in Hd as [Hd Dh2]. apply andb_prop in Hd as [Hc Dh1].
  apply Ascii.eqb_eq in Hc. subst c.
  pose proof within_day_table as T.
  rewrite forallb_forall in T. specialize (T h1 (is_digit_chars _ Dh1)).
  rewrite forallb_forall in T. specialize (T h2 (is_digit_chars _ Dh2)).
  rewrite forallb_forall in T. specialize (T m1 (is_digit_chars _ Dm1)).
  rewrite forallb_forall in T. specialize (T m2 (is_digit_chars _ Dm2)).
  unfold within_day, hhmm in T. rewrite Hv in T. cbn [implb] in T.
  apply andb_prop in T as [T1 T2]. split; [exact T1|]. by apply Z.leb_le.
Qed.

Lemma minutes_to_time_table :
  forallb (fun m => valid_HHMM (SimpleVRPService._minutes_to_time (Z.of_nat m)))
          (seq 0 1440) = true.
Proof. vm_compute. reflexivity. Qed.

Lemma minutes_to_time_in_day (minutes : Z) :
  0 <= minutes < 1440 -> valid_HHMM (SimpleVRPService._minutes_to_time minutes) = true.
Proof.
  intros Hm. pose proof minutes_to_time_table as T.
  rewrite forallb_forall in T. specialize (T (Z.to_nat minutes)).
  rewrite Z2Nat.id in T by lia. apply T. apply in_seq. lia.
Qed.

(** X11. The greedy clock, which starts at 08:00, prints a wall-clock time
    [HH:MM] exactly up to 23:59: from minute 1440 on the hours are 24 or
    more. *)
Theorem minutes_to_time_valid (minutes : Z) :
  0 <= minutes ->
  (valid_HHMM (SimpleVRPService._minutes_to_time minutes) = true <-> minutes < 1440).
Proof.
  intros Hm. split.
  - intros Hv. apply valid_HHMM_within_day in Hv as [_ Hv].
    unfold SimpleVRPService._minutes_to_time in Hv. cbv zeta in Hv.
    rewrite time_to_seconds_format in Hv.
    + pose proof (Z.div_mod minutes 60 ltac:(lia)).
      pose proof (Z.mod_pos_bound minutes 60 ltac:(lia)). lia.
    + apply Z.div_pos; lia.
    + apply Z.mod_pos_bound. lia.
  - intros Hlt. apply minutes_to_time_in_day. lia.
Qed.

(** X12. The validation accepts every wall-clock time [HH:MM]. *)
Theorem valid_HHMM_is_valid_time (s : string) :
  valid_HHMM s = true -> ValidationService._is_valid_time s = true.
Proof. intros Hv. by apply valid_HHMM_within_day in Hv as [Hv _]. Qed.

(** What the validation accepts as a time has hours and minutes in range,
    and both services read it as their seconds. *)
Lemma valid_time_parts (s : string) :
  ValidationService._is_valid_time s = true ->
  exists hours minutes,
    0 <= hours <= 23 /\ 0 <= minutes <= 59 /\
    VRPService._time_to_seconds s = hours * 3600 + minutes * 60.
Proof.
  intros Hv.
  unfold ValidationService._is_valid_time in Hv. unfold VRPService._time_to_seconds.
  destruct (split_on ":" s) as [|h [|m [|? ?]]]; try discriminate.
  destruct (py_int h) as [hours|]; [|discriminate].
  destruct (py_int m) as [minutes|]; [|discriminate].
  destruct ((0 <=? hours) && (hours <=? 23)) eqn:Eh; [|discriminate].
  destruct ((0 <=? minutes) && (minutes <=? 59)) eqn:Em; [|discriminate].
  apply andb_prop in Eh as [Eh1 Eh2]. apply andb_prop in Em as [Em1 Em2].
  apply Z.leb_le in Eh1, Eh2, Em1, Em2.
  exists hours, minutes. split_and!; auto.
Qed.

(** X13. A text the validation accepts as a time (it may lack a leading
    zero, or have blanks around a number) is read by the
    constraint-programming strategy as whole minutes within the day:
    printing the seconds gives a wall-clock time [HH:MM], which reads as the
    same seconds. *)
Theorem accepted_time_normalises (s : string) :
  ValidationService._is_valid_time s = true ->
  let seconds := VRPService._time_to_seconds s in
  0 <= seconds <= 86340 /\
  valid_HHMM (VRPService._seconds_to_time seconds) = true /\
  VRPService._time_to_seconds (VRPService._seconds_to_time seconds) = seconds.
Proof.
  intros Hv. cbv zeta.
  destruct (valid_time_parts s Hv) as (hours & minutes & Hh & Hm & ->).
  assert (Hq : (hours * 3600 + minutes * 60) / 3600 = hours).
  { symmetry. apply (Z.div_unique _ _ _ (minutes * 60)); lia. }
  assert (Hr : (hours * 3600 + minutes * 60) mod 3600 = minutes * 60).
  { symmetry. apply (Z.mod_unique _ _ hours); lia. }
  assert (Hfmt : VRPService._seconds_to_time (hours * 3600 + minutes * 60)
                 = SimpleVRPService._minutes_to_time (hours * 60 + minutes)).
  { unfold VRPService._seconds_to_time, SimpleVRPService._minutes_to_time. cbv zeta.
    rewrite Hq, Hr, Z.div_mul by lia.
    replace ((hours * 60 + minutes) / 60) with hours
      by (apply (Z.div_unique _ _ _ minutes); lia).
    replace ((hours * 60 + minutes) mod 60) with minutes
      by (apply (Z.mod_unique _ _ hours); lia).
    reflexivity. }
  split_and!; [lia|lia| |].
  - rewrite Hfmt. apply minutes_to_time_in_day. lia.
  - unfold VRPService._seconds_to_time. cbv zeta.
    rewrite time_to_seconds_format, Hq, Hr, Z.div_mul by (rewrite ?Hq, ?Hr, ?Z.div_mul; lia).
    reflexivity.
Qed.

Lemma seconds_to_time_reads_back_witness :
  VRPService._time_to_seconds (VRPService._seconds_to_time 30659) = 30659 - 30659 mod 60.
Proof. apply (seconds_to_time_reads_back 30659). lia. Defined.

Lemma minutes_to_time_valid_witness :
  valid_HHMM (SimpleVRPService._minutes_to_time 510) = true <-> 510 < 1440.
Proof. apply (minutes_to_time_valid 510). lia. Defined.

Lemma valid_HHMM_is_valid_time_witness :
  valid_HHMM "23:59" = true /\ ValidationService._is_valid_time "23:59" = true.
Proof. split; [reflexivity|]. apply (valid_HHMM_is_valid_time "23:59"). reflexivity. Defined.

Lemma accepted_time_normalises_witness :
  ValidationService._is_valid_time " 7:5" = true /\
  VRPService._seconds_to_time (VRPService._time_to_seconds " 7:5") = "07:05"%string /\
  valid_HHMM
    (VRPService._seconds_to_time (VRPService._time_to_seconds " 7:5")) = true.
Proof.
  split; [reflexivity|]. split; [reflexivity|].
  apply (accepted_time_normalises " 7:5"). reflexivity.
Defined.

(** ** The validation service *)

Section ValidationProperties.
Context `{PyFloat} `{!PyFloatLe}.
Import ValidationService.

Lemma check_nil (cond : bool) (msg : string) : check cond msg = [] <-> cond = false.
Proof. unfold check. destruct cond; split; congruence. Qed.

Lemma is_empty_false (s : string) : is_empty s = false <-> s <> EmptyString.
Proof. unfold is_empty. apply String.eqb_neq. Qed.

Lemma py_in_In (x : string) (xs : list string) : py_in x xs = true <-> In x xs.
Proof.
  unfold py_in. rewrite existsb_exists. split.
  - intros (y & Hy & Heq). apply String.eqb_eq in Heq. by subst.
  - intros Hx. exists x. split; [exact Hx|apply String.eqb_refl].
Qed.

Lemma validate_time_window_nil (w : TimeWindow) (label : string) :
  validate_time_window w label = [] <->
  _is_valid_time (tw_start w) = true /\ _is_valid_time (tw_end w) = true /\
  _time_to_seconds (tw_start w) < _time_to_seconds (tw_end w).
Proof.
  unfold validate_time_window.
  rewrite !app_nil, !check_nil, !negb_false_iff.
  destruct (_is_valid_time (tw_start w)), (_is_valid_time (tw_end w)); cbn [andb];
    rewrite ?check_nil, ?Z.leb_gt; intuition congruence.
Qed.

Lemma validate_customer_nil (customer : Customer) (index : Z) :
  _validate_customer customer index = [] <-> valid_customer customer.
Proof.
  unfold _validate_customer, valid_customer. cbv zeta.
  rewrite !app_nil, !check_nil, !is_empty_false, !negb_false_iff,
    orb_false_iff, Z.leb_gt, !Z.ltb_ge.
  destruct (c_time_window customer) as [w|].
  - rewrite validate_time_window_nil. split.
    + intros (? & ? & ? & ? & ? & ? & ?). split_and!; auto; try lia.
      intros w' [= <-]. auto.
    + intros (? & ? & ? & ? & ? & ? & Hw). split_and!; auto; try lia.
      all: by apply Hw.
  - split.
    + intros (? & ? & ? & ? & ? & ? & ?). split_and!; auto; try lia. discriminate.
    + intros (? & ? & ? & ? & ? & ? & Hw). split_and!; auto; lia.
Qed.

Lemma given_and_false {A} (x : option A) (bad : A -> bool) :
  given_and x bad = false <-> forall a, x = Some a -> bad a = false.
Proof.
  unfold given_and. destruct x as [a|]; split; auto.
  - intros Hb a' [= <-]. exact Hb.
  - discriminate.
Qed.

Lemma validate_vehicle_nil (vehicle : Vehicle) (index : Z) :
  _validate_vehicle vehicle index = [] <-> valid_vehicle vehicle.
Proof.
  unfold _validate_vehicle, valid_vehicle. cbv zeta.
  rewrite !app_nil, !check_nil, !is_empty_false, !given_and_false, Z.leb_gt.
  split.
  - intros (? & ? & ? & ? & ? & ? & Hd & ? & ? & ?). split_and!; auto.
    intros d Hsome. specialize (Hd d Hsome). apply Z.leb_gt in Hd. exact Hd.
  - intros (? & ? & ? & ? & ? & ? & Hd & ? & ? & ?). split_and!; auto.
    intros d Hsome. apply Z.leb_gt. by apply Hd.
Qed.

Lemma validate_each_nil {A} (validate : A -> Z -> list string) (P : A -> Prop) :
  (forall x i, validate x i = [] <-> P x) ->
  forall xs i, validate_each validate i xs = [] <-> Forall P xs.
Proof.
  intros Hv. induction xs as [|x xs IH]; intros i; cbn [validate_each].
  - split; auto.
  - rewrite app_nil, Hv, IH, Forall_cons. tauto.
Qed.

(** What a request without validation errors has, as far as the
    strategies read it. *)
Lemma validated_parts (request : VRPRequest) :
  validate_vrp_request request = [] ->
  Forall valid_customer (customers request) /\ vehicles request <> [] /\
  0 < max_solving_time request <= 3600.
Proof.
  unfold validate_vrp_request. rewrite !app_nil.
  intros (_ & Hc & Hv & Ht & _). split; [|split].
  - destruct (customers request) as [|c cs]; [constructor|].
    by apply (validate_each_nil _ _ validate_customer_nil) in Hc.
  - intros Hnil. rewrite Hnil in Hv. discriminate Hv.
  - destruct (max_solving_time request <=? 0) eqn:E0; [discriminate Ht|].
    apply Z.leb_gt in E0. apply check_nil, Z.ltb_ge in Ht. lia.
Qed.

(** X14. The validation returns no error exactly for the requests with
    coordinates in range, at least one customer and one vehicle, each with
    its identifiers, positive amounts and well-formed, ordered time window,
    a solving time between 1 and 3600 seconds, and a known objective and
    algorithm. *)
Theorem validation_passes_exactly_valid_requests (request : VRPRequest) :
  validate_vrp_request request = [] <-> valid_request request.
Proof.
  unfold validate_vrp_request, valid_request.
  rewrite !app_nil, !check_nil, !negb_false_iff, !py_in_In.
  assert (Hc : match customers request with
               | [] => ["At least one customer is required"%string]
               | _ :: _ => validate_each _validate_customer 0 (customers request)
               end = []
               <-> customers request <> [] /\ Forall valid_customer (customers request)).
  { destruct (customers request) as [|c cs] eqn:Ec.
    - split; [discriminate|]. intros [Hne _]. congruence.
    - rewrite (validate_each_nil _ _ validate_customer_nil). split.
      + intros Hall. split; [discriminate|exact Hall].
      + tauto. }
  assert (Hv : match vehicles request with
               | [] => ["At least one vehicle is required"%string]
               | _ :: _ => validate_each _validate_vehicle 0 (vehicles request)
               end = []
               <-> vehicles request <> [] /\ Forall valid_vehicle (vehicles request)).
  { destruct (vehicles request) as [|v vs] eqn:Ev.
    - split; [discriminate|]. intros [Hne _]. congruence.
    - rewrite (validate_each_nil _ _ validate_vehicle_nil). split.
      + intros Hall. split; [discriminate|exact Hall].
      + tauto. }
  assert (Ht : (if max_solving_time request <=? 0
                then ["Max solving time must be positive"%string]
                else check (3600 <? max_solving_time request)
                       "Max solving time cannot exceed 3600 seconds") = []
               <-> 0 < max_solving_time request <= 3600).
  { destruct (max_solving_time request <=? 0) eqn:E0.
    - apply Z.leb_le in E0. split; [discriminate|lia].
    - apply Z.leb_gt in E0. rewrite check_nil, Z.ltb_ge. lia. }
  destruct (customers request) eqn:Ec; destruct (vehicles request) eqn:Ev;
    rewrite Hc, Hv, Ht; tauto.
Qed.

End ValidationProperties.

(** ** The orchestrator: the statistics and the validated requests *)

Section ControllerProperties.
Context `{PyFloat} `{!PyFloatLe}.
Import VRPController.

Lemma fallback_chain_counters svc request st result st' :
  fallback_chain svc request st = (result, st') ->
  total_requests st' = total_requests st /\
  successful_solves st' = successful_solves st /\
  failed_solves st' = failed_solves st.
Proof.
  unfold fallback_chain, call.
  destruct (service svc Simple request) as [[s|]| |]; try (intros [= <- <-]; by cbn).
  destruct (service svc Gemini request) as [[s|]| |]; intros [= <- <-]; by cbn.
Qed.

(** X15. A call of the controller that returns counts one request; when
    the validation passes it counts one success or one failure, as the
    answer says; when the validation reports errors the answer is a
    failure with those errors that is counted neither as a success nor as a
    failure, and no strategy is called. *)
Theorem controller_statistics (svc : Services) (request : VRPRequest)
    (st st' : ControllerState) (response : Response) :
  solve_vrp svc request st = (Some response, st') ->
  total_requests st' = total_requests st + 1 /\
  (validate_vrp_request svc request = [] ->
   successful_solves st' = successful_solves st + (if success response then 1 else 0) /\
   failed_solves st' = failed_solves st + (if success response then 0 else 1)) /\
  (validate_vrp_request svc request <> [] ->
   success response = false /\
   details response = validate_vrp_request svc request /\
   successful_solves st' = successful_solves st /\
   failed_solves st' = failed_solves st /\
   invoked st' = invoked st).
Proof.
  unfold solve_vrp.
  destruct (validate_vrp_request svc request) as [|e errors] eqn:Ev.
  - destruct (fallback_chain svc request (count_request st)) as [result st1] eqn:Ef.
    apply fallback_chain_counters in Ef as (Ht & Hs & Hf). cbn in Ht, Hs, Hf.
    destruct result as [[sol|]| |]; intros Heq; try discriminate Heq;
      injection Heq as <- <-; cbn;
      (split_and!; [lia|intros _; lia|intros Hne; by destruct Hne]).
  - intros [= <- <-]. cbn. split_and!; [reflexivity|discriminate|].
    intros _. by split_and!.
Qed.


End ControllerProperties.

Lemma controller_statistics_witness :
  VRPController.solve_vrp MoreExamples.controller Examples.nowhere Examples.fresh
  = (Some MoreExamples.rejected, MoreExamples.one_request) /\
  VRPController.total_requests MoreExamples.one_request
  = VRPController.total_requests Examples.fresh + 1.
Proof.
  split; [vm_compute; reflexivity|].
  apply (controller_statistics MoreExamples.controller Examples.nowhere Examples.fresh
           MoreExamples.one_request MoreExamples.rejected).
  vm_compute. reflexivity.
Defined.


(** ** The constraint-programming strategy: the data and the kept routes *)

Section ConstraintProgrammingProperties.
Context `{PyFloat}.
Import VRPService.

Lemma mapM_Ok {A B} (f : A -> outcome B) (l : list A) : forall ys,
  mapM f l = Ok ys -> Forall2 (fun x y => f x = Ok y) l ys.
Proof.
  induction l as [|x l IH]; intros ys Hm; cbn [mapM] in Hm.
  - injection Hm as <-. constructor.
  - destruct (f x) as [y| |] eqn:Ey;
      cbv beta iota delta [mbind outcome_bind obind] in Hm; try discriminate Hm.
    destruct (mapM f l) as [k| |] eqn:Ek;
      cbv beta iota delta [mbind outcome_bind obind] in Hm; try discriminate Hm.
    injection Hm as <-. constructor; [exact Ey|]. by apply IH.
Qed.

Lemma matrix_row_shape (locations : list Coordinate) (i : nat) (a : Coordinate)
    (row : list (Z * Z)) :
  matrix_row locations i a = Ok row ->
  length row = length locations /\
  ((i < length locations)%nat -> row !! i = Some (0, 0)).
Proof.
  unfold matrix_row. intros Hrow. apply mapM_Ok in Hrow.
  split.
  - rewrite <- (Forall2_length _ _ _ Hrow). apply length_imap.
  - intros Hi. destruct (lookup_lt_is_Some_2 locations i Hi) as [b Hb].
    assert (Hjb : imap pair locations !! i = Some (i, b)).
    { rewrite list_lookup_imap, Hb. reflexivity. }
    destruct (Forall2_lookup_l _ _ _ _ _ Hrow Hjb) as (cell & Hcell & Hc).
    rewrite Hcell. unfold matrix_cell in Hc. cbn [fst snd] in Hc.
    rewrite Nat.eqb_refl in Hc. by injection Hc as <-.
Qed.

Lemma rows_shape (locations : list Coordinate) (rows : list (list (Z * Z))) :
  mapM (fun ia => matrix_row locations (fst ia) (snd ia)) (imap pair locations) = Ok rows ->
  length rows = length locations /\
  Forall (fun row => length row = length locations) rows /\
  (forall i row, rows !! i = Some row -> row !! i = Some (0, 0)).
Proof.
  intros Hrows. apply mapM_Ok in Hrows.
  assert (Hlen : length rows = length locations).
  { rewrite <- (Forall2_length _ _ _ Hrows). apply length_imap. }
  split_and!; [exact Hlen| |].
  - apply Forall_lookup. intros i row Hi.
    destruct (Forall2_lookup_r _ _ _ _ _ Hrows Hi) as ([j a] & _ & Hrow).
    by apply matrix_row_shape in Hrow as [Hrow _].
  - intros i row Hi.
    destruct (Forall2_lookup_r _ _ _ _ _ Hrows Hi) as ([j a] & Hja & Hrow).
    rewrite list_lookup_imap in Hja.
    destruct (locations !! i) as [b|] eqn:Hb; [|discriminate Hja].
    injection Hja as <- <-. cbn [fst snd] in Hrow.
    apply matrix_row_shape in Hrow as [_ Hrow]. apply Hrow.
    rewrite <- Hlen. by eapply lookup_lt_Some.
Qed.

(** X17. The data of the constraint-programming strategy has one node for
    the depot and one for each customer: both matrices are square of that
    size with a zero diagonal, the demands and the service times (in
    seconds, 60 for each minute) have one entry for each node, that of the
    depot being 0, and the routing model has that many nodes and one
    capacity for each vehicle. *)
Theorem data_model_shape (request : VRPRequest) (data : DataModel) :
  _create_data_model request = Ok data ->
  let nodes := S (length (customers request)) in
  length (distance_matrix data) = nodes /\
  length (time_matrix data) = nodes /\
  Forall (fun row => length row = nodes) (distance_matrix data) /\
  Forall (fun row => length row = nodes) (time_matrix data) /\
  (forall i row, distance_matrix data !! i = Some row -> row !! i = Some 0) /\
  (forall i row, time_matrix data !! i = Some row -> row !! i = Some 0) /\
  demands data = 0 :: (c_demand <$> customers request) /\
  service_times data = 0 :: ((fun c => 60 * c_service_time c) <$> customers request) /\
  rm_nodes (build_routing_model data request) = Z.of_nat nodes /\
  length (vehicle_capacities data) = length (vehicles request) /\
  rm_vehicles (build_routing_model data request) = Z.of_nat (length (vehicles request)).
Proof.
  unfold _create_data_model. intros Hd. bind_inv Hd. injection Hd as <-.
  match goal with E : mapM _ _ = Ok ?r |- _ =>
    rename r into rows; apply rows_shape in E as (Hlen & Hrow & Hdiag) end.
  cbn [length] in Hlen, Hrow. rewrite length_fmap in Hlen, Hrow.
  cbv zeta.
  cbn [distance_matrix time_matrix demands service_times vehicle_capacities
       build_routing_model rm_nodes rm_vehicles num_vehicles].
  rewrite ?length_map, ?length_fmap. split_and!; try done.
  - apply Forall_forall. intros row Hin. apply list_elem_of_In, in_map_iff in Hin.
    destruct Hin as (r & <- & Hin). rewrite length_map.
    rewrite Forall_forall in Hrow. apply Hrow. by apply list_elem_of_In.
  - apply Forall_forall. intros row Hin. apply list_elem_of_In, in_map_iff in Hin.
    destruct Hin as (r & <- & Hin). rewrite length_map.
    rewrite Forall_forall in Hrow. apply Hrow. by apply list_elem_of_In.
  - intros i row Hi. change (map (map fst) rows) with (map fst <$> rows) in Hi.
    rewrite list_lookup_fmap in Hi. destruct (rows !! i) as [r|] eqn:Hr; [|discriminate Hi].
    injection Hi as <-. change (map fst r) with (fst <$> r).
    by rewrite list_lookup_fmap, (Hdiag _ _ Hr).
  - intros i row Hi. change (map (map snd) rows) with (map snd <$> rows) in Hi.
    rewrite list_lookup_fmap in Hi. destruct (rows !! i) as [r|] eqn:Hr; [|discriminate Hi].
    injection Hi as <-. change (map snd r) with (snd <$> r).
    by rewrite list_lookup_fmap, (Hdiag _ _ Hr).
  - f_equal. apply list_fmap_ext. intros _ c _. lia.
  - by rewrite Hlen.
Qed.

End ConstraintProgrammingProperties.

Section KeptRoutes.
Context `{PyFloat}.
Import VRPService.

Lemma py_index_lookup {A} (l : list A) (j : nat) (x : A) :
  py_index l (Z.of_nat j) = Ok x -> l !! j = Some x.
Proof.
  unfold py_index. replace (0 <=? Z.of_nat j) with true by (symmetry; apply Z.leb_le; lia).
  rewrite Nat2Z.id. destruct (l !! j); [|discriminate]. by intros [= <-].
Qed.

Lemma create_route_vehicle j solution data request r :
  _create_route (Z.of_nat j) solution data request = Ok r ->
  exists v, vehicles request !! j = Some v /\ route_vehicle r (Z.of_nat j, v).
Proof.
  unfold _create_route. intros Hr. bind_inv Hr. injection Hr as <-.
  match goal with E : py_index (vehicles request) _ = Ok ?v |- _ =>
    exists v; split; [by apply py_index_lookup|] end.
  by split_and!.
Qed.

(** The loop over the vehicles from index [j] on: it adds, in order, a
    route for some of them, each with a customer stop. *)
Lemma keep_routes_fleet solution data request : forall vs j k k',
  drop j (vehicles request) = vs ->
  keep_routes (Z.of_nat <$> seq j (length vs)) solution data request k = Ok k' ->
  exists new kept,
    k_routes k' = k_routes k ++ new /\
    sublist kept (numbered (Z.of_nat j) vs) /\
    Forall2 route_vehicle new kept /\
    Forall (fun r => customer_stops (r_stops r) <> []) new.
Proof.
  induction vs as [|v vs IH]; intros j k k' Hdrop Hkeep.
  - injection Hkeep as <-. exists [], []. rewrite app_nil_r.
    split_and!; [done|constructor|constructor|constructor].
  - cbn [length seq fmap list_fmap keep_routes] in Hkeep.
    destruct (_create_route (Z.of_nat j) solution data request) as [route| |] eqn:Er;
      cbv beta iota delta [mbind outcome_bind obind] in Hkeep; try discriminate Hkeep.
    destruct (create_route_vehicle _ _ _ _ _ Er) as (v' & Hv' & Hroute).
    assert (Hj : vehicles request !! (j + 0)%nat = Some v)
      by (rewrite <- lookup_drop, Hdrop; reflexivity).
    rewrite Nat.add_0_r in Hj.
    assert (v' = v) as -> by congruence.
    assert (Hdrop' : drop (S j) (vehicles request) = vs).
    { replace (S j) with (j + 1)%nat by lia.
      rewrite <- drop_drop, Hdrop. reflexivity. }
    cbn [numbered]. replace (Z.of_nat j + 1) with (Z.of_nat (S j)) by lia.
    destruct (customer_stops (r_stops route)) as [|s ss] eqn:Ecs.
    + destruct (IH _ _ _ Hdrop' Hkeep) as (new & kept & Hk & Hsub & Hall & Hcs).
      exists new, kept. split_and!; auto. by apply sublist_cons.
    + bind_inv Hkeep.
      destruct (IH _ _ _ Hdrop' Hkeep) as (new & kept & Hk & Hsub & Hall & Hcs).
      cbn [k_routes] in Hk.
      exists (route :: new), ((Z.of_nat j, v) :: kept). split_and!.
      * rewrite Hk. by rewrite <- app_assoc.
      * by apply sublist_skip.
      * by constructor.
      * constructor; [by rewrite Ecs|exact Hcs].
Qed.

(** X18. The routes of the constraint-programming strategy are those of
    some of the vehicles, in the order of the fleet and at most one for each
    vehicle, with the number, name, type and capacity of the vehicle; every
    route has a customer stop, and [vehicles_used] is their number. *)
Theorem cp_routes_follow_the_fleet (solver : Solver) (request : VRPRequest)
    (sol : VRPSolution) :
  solve_vrp solver request = Ok (Some sol) ->
  exists kept,
    sublist kept (numbered 0 (vehicles request)) /\
    Forall2 route_vehicle (routes sol) kept /\
    Forall (fun r => customer_stops (r_stops r) <> []) (routes sol) /\
    vehicles_used sol = VInt (Z.of_nat (length (routes sol))) /\
    (length (routes sol) <= length (vehicles request))%nat.
Proof.
  intros Hsol. apply solve_vrp_cp_inv in Hsol as (data & solution & Hdata & _ & Hfmt).
  assert (Hnum : num_vehicles data = Z.of_nat (length (vehicles request))).
  { unfold _create_data_model in Hdata. bind_inv Hdata. by injection Hdata as <-. }
  assert (Hused : vehicles_used sol = VInt (Z.of_nat (length (routes sol)))).
  { unfold _format_solution in Hfmt. bind_inv Hfmt. by injection Hfmt as <-. }
  apply format_solution_routes in Hfmt as (k & Hkeep & Hroutes).
  rewrite Hnum, Nat2Z.id in Hkeep.
  apply (keep_routes_fleet _ _ _ (vehicles request) 0%nat) in Hkeep; [|reflexivity].
  destruct Hkeep as (new & kept & Hk & Hsub & Hall & Hcs).
  cbn [k_routes app] in Hk. rewrite Hroutes, Hk in *.
  exists kept. split_and!; auto.
  rewrite (Forall2_length _ _ _ Hall).
  apply sublist_length in Hsub. by rewrite numbered_length in Hsub.
Qed.

(** X19. When the solver finds no assignment, or raises, the
    constraint-programming strategy returns [None], whatever the request. *)
Theorem cp_without_assignment (solver : Solver) (request : VRPRequest) :
  (forall model parameters solution,
     SolveWithParameters solver model parameters <> inr (Some solution)) ->
  solve_vrp solver request = Ok None.
Proof.
  intros Hnone. unfold solve_vrp.
  destruct (_create_data_model request) as [data|e|] eqn:Ed;
    [| reflexivity | by destruct (halts_create_data_model request)].
  cbv beta iota delta [mbind outcome_bind obind]. unfold _solve_with_ortools.
  destruct (SolveWithParameters solver _ _) as [e|[solution|]] eqn:Es;
    [reflexivity| |reflexivity].
  by destruct (Hnone _ _ _ Es).
Qed.

End KeptRoutes.

Section ValidatedWindows.
Context `{PyFloat} `{!PyFloatLe}.
Import VRPService.

(** X20. For a request without validation errors and with time windows
    enabled, the routing model has one range for each node, in the order of
    the nodes, and every range is a stretch of the day that is not empty:
    [0 <= lo < hi <= 86400]; the time limit of the search is between 1 and
    30 seconds. *)
Theorem validated_time_windows (request : VRPRequest) (data : DataModel) :
  ValidationService.validate_vrp_request request = [] ->
  use_time_windows request = true ->
  _create_data_model request = Ok data ->
  length (rm_cumul_ranges (build_routing_model data request))
  = S (length (customers request)) /\
  (forall i node lo hi,
     rm_cumul_ranges (build_routing_model data request) !! i = Some (node, (lo, hi)) ->
     node = i /\ 0 <= lo < hi /\ hi <= 86400) /\
  1 <= time_limit_seconds (search_parameters request) <= 30.
Proof.
  intros Hvalid Hflag Hdata. apply create_data_model_inv in Hdata.
  destruct (validated_parts request Hvalid) as (Hcs & _ & Htime).
  unfold build_routing_model, search_parameters.
  cbn [rm_cumul_ranges time_limit_seconds]. rewrite Hdata, Hflag.
  split_and!; [|  |lia|lia].
  - by rewrite length_imap, length_cons, length_fmap.
  - intros i node lo hi Hrange. rewrite list_lookup_imap in Hrange.
    destruct i as [|i].
    { cbn in Hrange. injection Hrange as <- <- <-. lia. }
    change (((0, 86400) :: (customer_window <$> customers request)) !! S i)
      with ((customer_window <$> customers request) !! i) in Hrange.
    rewrite list_lookup_fmap in Hrange.
    destruct (customers request !! i) as [c|] eqn:Hc; [|discriminate Hrange].
    cbn in Hrange. injection Hrange as <- Hw. split; [reflexivity|].
    rewrite Forall_forall in Hcs.
    specialize (Hcs c (list_elem_of_lookup_2 _ _ _ Hc)).
    destruct Hcs as (_ & _ & _ & _ & _ & _ & Hwin).
    unfold customer_window in Hw.
    destruct (c_time_window c) as [w|]; [|injection Hw as <- <-; lia].
    injection Hw as <- <-.
    destruct (Hwin w eq_refl) as (Hs & He & Hlt).
    destruct (valid_time_parts _ Hs) as (h1 & m1 & ? & ? & E1).
    destruct (valid_time_parts _ He) as (h2 & m2 & ? & ? & E2).
    change (ValidationService._time_to_seconds (tw_start w))
      with (_time_to_seconds (tw_start w)) in Hlt.
    change (ValidationService._time_to_seconds (tw_end w))
      with (_time_to_seconds (tw_end w)) in Hlt.
    lia.
Qed.

End ValidatedWindows.

Lemma data_model_shape_witness :
  exists data,
    VRPService._create_data_model Examples.four_customers = Ok data /\
    length (VRPService.distance_matrix data) = 5%nat /\
    VRPService.rm_nodes (VRPService.build_routing_model data Examples.four_customers) = 5.
Proof.
  eexists. split; [vm_compute; reflexivity|].
  split; [|split];
    eapply (data_model_shape Examples.four_customers); vm_compute; reflexivity.
Defined.

Lemma cp_routes_follow_the_fleet_witness :
  exists sol,
    VRPService.solve_vrp Examples.solver Examples.overloaded = Ok (Some sol) /\
    exists kept,
      sublist kept (numbered 0 (vehicles Examples.overloaded)) /\
      Forall2 route_vehicle (routes sol) kept /\
      Forall (fun r => customer_stops (r_stops r) <> []) (routes sol) /\
      vehicles_used sol = VInt (Z.of_nat (length (routes sol))) /\
      (length (routes sol) <= length (vehicles Examples.overloaded))%nat.
Proof.
  eexists. split; [vm_compute; reflexivity|].
  apply (cp_routes_follow_the_fleet Examples.solver Examples.overloaded).
  vm_compute. reflexivity.
Defined.

Lemma cp_without_assignment_witness :
  VRPService.solve_vrp Examples.no_solver Examples.four_customers = Ok None.
Proof.
  apply (cp_without_assignment Examples.no_solver Examples.four_customers).
  intros model parameters solution. simpl. discriminate.
Defined.

Lemma validated_time_windows_witness :
  exists data,
    VRPService._create_data_model MoreExamples.timed = Ok data /\
    VRPService.rm_cumul_ranges (VRPService.build_routing_model data MoreExamples.timed)
    = [(0%nat, (0, 86400)); (1%nat, (0, 86400)); (2%nat, (32400, 63000))] /\
    1 <= VRPService.time_limit_seconds (VRPService.search_parameters MoreExamples.timed)
      <= 30.
Proof.
  eexists. split; [vm_compute; reflexivity|]. split; [vm_compute; reflexivity|].
  eapply (validated_time_windows MoreExamples.timed); vm_compute; reflexivity.
Defined.

(** ** The constraint-programming strategy: the stops of a path *)

Section PathProperties.
Context `{PyFloat}.
Import VRPService.

Lemma step_node data request t n a nx t' :
  step data request t n a nx = Ok t' ->
  exists s, t_stops t' = t_stops t ++ [s] /\ node_stop request n s.
Proof.
  unfold step, node_stop. intros Hs.
  destruct (n =? 0).
  - bind_inv Hs. injection Hs as <-. eexists. split; [reflexivity|]. by split_and!.
  - bind_inv Hs.
    match goal with p : (RouteStop * Z * Z)%type |- _ => destruct p as [[stop load] time] end.
    bind_inv Hs. injection Hs as <-.
    match goal with E : match py_index _ _ with _ => _ end = Ok (stop, load, time) |- _ =>
      destruct (py_index (customers request) (n - 1)) as [customer| |] eqn:Ec;
        try discriminate E; injection E as <- <- <- end.
    eexists. split; [reflexivity|]. exists customer. split; [reflexivity|]. by split_and!.
Qed.

Lemma follow_nodes data request path : forall t t',
  follow data request t path = Ok t' ->
  exists new, t_stops t' = t_stops t ++ new /\
              Forall2 (fun na s => node_stop request (fst na) s) path new.
Proof.
  induction path as [|[n a] path IH]; intros t t' Hf.
  - injection Hf as <-. exists []. rewrite app_nil_r. split; [done|constructor].
  - cbn [follow] in Hf.
    destruct (step data request t n a _) as [t1| |] eqn:Es; try discriminate Hf.
    cbv beta iota delta [mbind outcome_bind obind] in Hf.
    apply step_node in Es as (s & Hst & Hnode).
    apply IH in Hf as (new & Hnew & Hall).
    exists (s :: new). split; [rewrite Hnew, Hst; by rewrite <- app_assoc|].
    by constructor.
Qed.

Lemma create_route_path i solution data request r :
  _create_route i solution data request = Ok r ->
  exists path stops final,
    path ∈ paths solution /\
    r_stops r = stops ++ [final] /\
    node_stop request 0 final /\
    Forall2 (fun na s => node_stop request (fst na) s) path stops.
Proof.
  unfold _create_route. intros Hr. bind_inv Hr. injection Hr as <-. cbn [r_stops].
  match goal with E : py_index (paths solution) i = Ok ?p |- _ =>
    apply py_index_elem in E; exists p end.
  match goal with E : follow _ _ _ _ = Ok _ |- _ =>
    apply follow_nodes in E as (new & Hnew & Hall) end.
  cbn [t_stops app] in Hnew. rewrite Hnew.
  eexists new, _. split_and!; [assumption|reflexivity| |exact Hall].
  unfold node_stop. cbn. by split_and!.
Qed.

(** X21. Every route of the constraint-programming strategy follows a
    path of the assignment of the solver: node by node, a depot stop at the
    depot of the request for node 0 and the visit of customer [node - 1]
    for another node, then a closing depot stop. *)
Theorem cp_routes_follow_the_paths (solver : Solver) (request : VRPRequest)
    (sol : VRPSolution) :
  solve_vrp solver request = Ok (Some sol) ->
  exists data solution,
    _create_data_model request = Ok data /\
    SolveWithParameters solver (build_routing_model data request)
      (search_parameters request) = inr (Some solution) /\
    Forall (fun r => exists path stops final,
                       path ∈ paths solution /\
                       r_stops r = stops ++ [final] /\
                       node_stop request 0 final /\
                       Forall2 (fun na s => node_stop request (fst na) s) path stops)
           (routes sol).
Proof.
  intros Hsol. apply solve_vrp_cp_inv in Hsol as (data & solution & Hdata & Hsolve & Hfmt).
  exists data, solution. split_and!; [exact Hdata|exact Hsolve|].
  apply format_solution_routes in Hfmt as (k & Hkeep & ->).
  eapply keep_routes_inv in Hkeep; [exact Hkeep| |constructor].
  intros i r. apply create_route_path.
Qed.

End PathProperties.

Lemma cp_routes_follow_the_paths_witness :
  exists sol,
    VRPService.solve_vrp Examples.solver Examples.overloaded = Ok (Some sol) /\
    exists data solution,
      VRPService._create_data_model Examples.overloaded = Ok data /\
      VRPService.SolveWithParameters Examples.solver
        (VRPService.build_routing_model data Examples.overloaded)
        (VRPService.search_parameters Examples.overloaded) = inr (Some solution) /\
      Forall (fun r => exists path stops final,
                         path ∈ VRPService.paths solution /\
                         r_stops r = stops ++ [final] /\
                         node_stop Examples.overloaded 0 final /\
                         Forall2 (fun na s => node_stop Examples.overloaded (fst na) s)
                           path stops)
             (routes sol).
Proof.
  eexists. split; [vm_compute; reflexivity|].
  apply (cp_routes_follow_the_paths Examples.solver Examples.overloaded).
  vm_compute. reflexivity.
Defined.

(** ** The external adapter: what it takes from the reply *)

Section AdapterProperties.
Context `{PyFloat}.
Import GeminiVRPService.

Lemma find_customer_elem (name : pyval) (cs : list Customer) (c : Customer) :
  find_customer name cs = Some c -> c ∈ cs.
Proof.
  induction cs as [|c0 cs IH]; [discriminate|]. cbn [find_customer].
  destruct (py_eq_str name (c_name c0)).
  - intros [= <-]. by left.
  - intros Hf. right. by apply IH.
Qed.

Lemma create_stop_from_request stop_data request s :
  _create_stop_from_data stop_data request = Ok (Some s) -> reconciled_stop request s.
Proof.
  unfold _create_stop_from_data, try_except. intros Hs.
  match type of Hs with
  | match ?body with Ok _ => _ | Raise _ => _ | OutOfFuel => _ end = _ =>
      destruct body as [[s'|]| |] eqn:Eb; try discriminate Hs
  end.
  injection Hs as ->.
  destruct (py_get stop_data "type" (VStr "customer")) as [stop_type| |];
    cbv beta iota delta [mbind outcome_bind obind] in Eb; try discriminate Eb.
  destruct (py_eq_str stop_type "depot").
  { injection Eb as <-. by left. }
  destruct (customers request) as [|c0 cs] eqn:Ecs; [discriminate Eb|].
  destruct (py_get stop_data "name" VNone) as [name| |];
    cbv beta iota delta [mbind outcome_bind obind] in Eb; try discriminate Eb.
  destruct (find_customer name (c0 :: cs)) as [customer|] eqn:Ef; [|discriminate Eb].
  destruct (py_get stop_data "demand" _) as [load| |];
    cbv beta iota delta [mbind outcome_bind obind] in Eb; try discriminate Eb.
  injection Eb as <-. right. exists customer.
  split; [rewrite Ecs; by apply find_customer_elem in Ef|]. by split_and!.
Qed.

Lemma collect_stops_from_request request : forall stops_data acc stops,
  collect_stops stops_data request acc = Ok stops ->
  Forall (reconciled_stop request) acc ->
  Forall (reconciled_stop request) stops /\
  (length stops <= length acc + length stops_data)%nat.
Proof.
  induction stops_data as [|sd rest IH]; intros acc stops Hc Hacc.
  - injection Hc as <-. split; [exact Hacc|cbn; lia].
  - cbn [collect_stops] in Hc.
    destruct (_create_stop_from_data sd request) as [[s|]| |] eqn:Es;
      cbv beta iota delta [mbind outcome_bind obind] in Hc; try discriminate Hc.
    + apply IH in Hc as [Hall Hlen].
      * split; [exact Hall|]. rewrite length_app in Hlen. cbn [length] in *. lia.
      * apply Forall_app. split; [exact Hacc|].
        constructor; [by eapply create_stop_from_request|constructor].
    + apply IH in Hc as [Hall Hlen]; [|exact Hacc].
      split; [exact Hall|]. cbn [length]. lia.
Qed.

Lemma match_vehicle_elem vehicle_name vehicle_id vs v :
  match_vehicle vehicle_name vehicle_id vs = Some v -> v ∈ vs.
Proof.
  induction vs as [|u vs IH]; [discriminate|]. cbn [match_vehicle].
  destruct (py_eq_str vehicle_name (v_name u) || py_eq_str vehicle_id (v_id u)).
  - intros [= <-]. by left.
  - intros Hm. right. by apply IH.
Qed.

Lemma select_vehicle_elem vehicle_name vehicle_id request v :
  select_vehicle vehicle_name vehicle_id request = Ok v -> v ∈ vehicles request.
Proof.
  unfold select_vehicle.
  destruct (match_vehicle vehicle_name vehicle_id (vehicles request)) as [u|] eqn:Em.
  - intros [= <-]. by eapply match_vehicle_elem.
  - destruct (vehicles request) as [|u vs]; [discriminate|].
    intros [= <-]. by left.
Qed.

Lemma create_route_from_request route_data request r :
  _create_route_from_data route_data request = Ok (Some r) ->
  reconciled_route request r.
Proof.
  unfold _create_route_from_data, try_except. intros Hr.
  match type of Hr with
  | match ?body with Ok _ => _ | Raise _ => _ | OutOfFuel => _ end = _ =>
      destruct body as [[r'|]| |] eqn:Eb; try discriminate Hr
  end.
  injection Hr as ->. bind_inv Eb. injection Eb as <-.
  unfold reconciled_route. cbn [r_stops r_vehicle_type r_capacity]. split.
  - match goal with E : collect_stops _ _ [] = Ok _ |- _ =>
      by apply collect_stops_from_request in E as [E _] end.
  - match goal with E : select_vehicle _ _ _ = Ok ?v |- _ =>
      exists v; split; [by apply select_vehicle_elem in E|by split] end.
Qed.

(** X22. Whatever the reply says, the adapter takes the stops of a
    solution from the request: every stop is the depot stop of the request
    or the visit of one of its customers, with the id, name, location,
    demand and service time of that customer, and every route has the type
    and the capacity of a vehicle of the request. *)
Theorem adapter_solution_is_reconciled (env : Collaborator) (request : VRPRequest)
    (sol : VRPSolution) :
  solve_vrp env request = Ok (Some sol) ->
  Forall (reconciled_route request) (routes sol).
Proof.
  apply adapter_routes_inv. intros route_data r. apply create_route_from_request.
Qed.

(** X23. With no vehicle in the request the adapter drops every route of
    the reply (the default, the first vehicle, is the [IndexError] of its
    handler): a solution it returns has no route. *)
Theorem adapter_without_vehicles (env : Collaborator) (request : VRPRequest)
    (sol : VRPSolution) :
  vehicles request = [] ->
  solve_vrp env request = Ok (Some sol) ->
  routes sol = [].
Proof.
  intros Hnil Hs.
  apply (adapter_routes_inv env request (fun _ => False)) in Hs.
  - destruct (routes sol) as [|r rs]; [reflexivity|]. by apply Forall_cons in Hs as [[] _].
  - intros route_data r Hr. apply create_route_from_request in Hr as [_ (v & Hv & _)].
    rewrite Hnil in Hv. by apply elem_of_nil in Hv.
Qed.

End AdapterProperties.

(** ** The code fence of a reply *)

Lemma string_length_app (a b : string) :
  String.length (a ++ b) = (String.length a + String.length b)%nat.
Proof.
  induction a as [|c a IH]; [reflexivity|].
  rewrite string_app_cons. cbn [String.length]. by rewrite IH.
Qed.

Lemma string_drop_app (a b : string) : string_drop (String.length a) (a ++ b) = b.
Proof.
  induction a as [|c a IH]; [reflexivity|].
  rewrite string_app_cons. cbn [String.length string_drop]. exact IH.
Qed.

Lemma string_take_app (a b : string) : string_take (String.length a) (a ++ b) = a.
Proof.
  induction a as [|c a IH]; [reflexivity|].
  rewrite string_app_cons. cbn [String.length string_take]. by rewrite IH.
Qed.

Lemma rstrip_app_fence (a : string) : rstrip (a ++ "```") = (a ++ "```")%string.
Proof.
  induction a as [|c a IH]; [reflexivity|].
  rewrite string_app_cons. cbn [rstrip]. rewrite IH.
  destruct a as [|c' a]; reflexivity.
Qed.

(** X24. A reply inside a code fence is unwrapped: the opening fence with
    its [json] tag and the closing fence go, and what is between them stays
    as it is. *)
Theorem clean_response_unwraps (body : string) :
  GeminiVRPService.clean_response ("```json" ++ body ++ "```") = body.
Proof.
  unfold GeminiVRPService.clean_response.
  assert (Hstrip : strip ("```json" ++ body ++ "```") = ("```json" ++ body ++ "```")%string).
  { unfold strip. rewrite !string_app_cons, string_app_nil. cbn [lstrip].
    change (is_space "`") with false. cbv iota.
    change (String "`" (String "`" (String "`" (String "j" (String "s" (String "o"
              (String "n" (body ++ "```"))))))))
      with (("```json" ++ body) ++ "```")%string.
    apply rstrip_app_fence. }
  rewrite Hstrip. cbv zeta.
  assert (Hstart : startswith ("```json" ++ body ++ "```") "```json" = true).
  { unfold startswith. rewrite !string_app_cons, string_app_nil. cbn [String.prefix].
    repeat (destruct (ascii_dec _ _) as [_|Hne]; [|by destruct Hne]).
    by destruct body. }
  rewrite Hstart.
  change 7%nat with (String.length "```json"). rewrite string_drop_app.
  assert (Hend : endswith (body ++ "```") "```" = true).
  { unfold endswith. rewrite string_length_app.
    replace (String.length body + String.length "```" - String.length "```")%nat
      with (String.length body) by lia.
    rewrite string_drop_app. apply andb_true_intro. split; [reflexivity|].
    apply Nat.leb_le. lia. }
  rewrite Hend, string_length_app.
  replace (String.length body + String.length "```" - 3)%nat
    with (String.length body) by (cbn [String.length]; lia).
  apply string_take_app.
Qed.

Lemma adapter_solution_is_reconciled_witness :
  exists sol,
    GeminiVRPService.solve_vrp Examples.collaborator Examples.overloaded = Ok (Some sol) /\
    Forall (reconciled_route Examples.overloaded) (routes sol).
Proof.
  eexists. split; [vm_compute; reflexivity|].
  apply (adapter_solution_is_reconciled Examples.collaborator Examples.overloaded).
  vm_compute. reflexivity.
Defined.

Lemma adapter_without_vehicles_witness :
  exists sol,
    GeminiVRPService.solve_vrp Examples.collaborator MoreExamples.no_fleet
    = Ok (Some sol) /\
    routes sol = [].
Proof.
  eexists. split; [vm_compute; reflexivity|].
  apply (adapter_without_vehicles Examples.collaborator MoreExamples.no_fleet).
  - reflexivity.
  - vm_compute. reflexivity.
Defined.

(** ** The dictionary of a solution *)

Section SolutionDictProperties.
Context `{PyFloat}.
Import SolutionDict.

Lemma fmap_inj_list {A B} (f : A -> B) :
  (forall x y, f x = f y -> x = y) ->
  forall l k : list A, f <$> l = f <$> k -> l = k.
Proof.
  intros Hf. induction l as [|x l IH]; intros [|y k] Heq; try discriminate Heq.
  - reflexivity.
  - rewrite !fmap_cons in Heq. injection Heq as Hxy Hlk.
    f_equal; [by apply Hf|by apply IH].
Qed.

Lemma stop_dict_inj (s1 s2 : RouteStop) : stop_dict s1 = stop_dict s2 -> s1 = s2.
Proof.
  destruct s1 as [? ? ? [? ?] ? ? ? ? ? ?], s2 as [? ? ? [? ?] ? ? ? ? ? ?].
  unfold stop_dict. cbn. intros Heq. injection Heq. intros. by subst.
Qed.

Lemma route_dict_inj (r1 r2 : Route) : route_dict r1 = route_dict r2 -> r1 = r2.
Proof.
  destruct r1, r2. unfold route_dict. cbn. intros Heq. injection Heq.
  intros. subst. f_equal. by eapply fmap_inj_list; [apply stop_dict_inj|].
Qed.

(** X25. The dictionary the controller answers with carries the whole
    solution: two solutions with the same dictionary are the same, stop by
    stop and field by field. *)
Theorem convert_solution_to_dict_is_lossless (s1 s2 : VRPSolution) :
  _convert_solution_to_dict s1 = _convert_solution_to_dict s2 -> s1 = s2.
Proof.
  destruct s1, s2. unfold _convert_solution_to_dict. cbn. intros Heq. injection Heq.
  intros. subst. f_equal. by eapply fmap_inj_list; [apply route_dict_inj|].
Qed.

End SolutionDictProperties.

Lemma convert_solution_to_dict_is_lossless_witness :
  MoreExamples.no_routes = MoreExamples.no_routes.
Proof.
  apply (convert_solution_to_dict_is_lossless MoreExamples.no_routes MoreExamples.no_routes).
  reflexivity.
Defined.
